(** * titletoimagebot: the title layout engine, the image compositor's
    upscaling rule, the imgur publisher, the sqlite ledger and the
    submission processor of [titletoimagebot.py], embedded in Rocq.

    Python [str] values are [string]s whose characters are code points
    below 256; Python [int]s are [Z]; the sqlite tables are finite maps
    keyed by their primary key; methods that touch the database, the
    file system or the network are computations in a state-and-exception
    monad over an explicit world, which also record the calls they make
    to the collaborators. Calls to [logging] are left out. *)

From Stdlib Require Import ZArith Ascii String List Bool Lia SpecFloat.
From stdpp Require Import base option list gmap strings.

Import ListNotations.
Local Open Scope Z_scope.

(** ** Exceptions and results *)

Module Py.

(** The exception classes the bot raises, catches or lets through.
    [ImgurClientError] and [ImgurClientRateLimitError] are the two
    classes of [imgurpython.helpers.error]; each derives from
    [Exception] directly, so a handler for one does not catch the
    other. [KeyboardInterrupt] stands for what is not an [Exception]. *)
Inductive exn : Type :=
| ImgurClientError
| ImgurClientRateLimitError
| OSError
| FileNotFoundError
| APIException
| TypeError (message : string)
| ZeroDivisionError
| OverflowError
| IntegrityError
| ValueError
| KeyError (key : string)
| IndexError
| OtherException (name : string)
| KeyboardInterrupt.

Definition is_ImgurClientError (e : exn) : bool :=
  match e with ImgurClientError => true | _ => false end.

Definition is_ImgurClientRateLimitError (e : exn) : bool :=
  match e with ImgurClientRateLimitError => true | _ => false end.

(** [FileNotFoundError] is a subclass of [OSError]. *)
Definition is_OSError (e : exn) : bool :=
  match e with OSError | FileNotFoundError => true | _ => false end.

Definition is_APIException (e : exn) : bool :=
  match e with APIException => true | _ => false end.

Definition is_Exception (e : exn) : bool :=
  match e with KeyboardInterrupt => false | _ => true end.

Inductive result (A : Type) : Type :=
| Ok (a : A)
| Raise (e : exn).
Arguments Ok {A} a.
Arguments Raise {A} e.

Definition rbind {A B : Type} (r : result A) (k : A -> result B) : result B :=
  match r with
  | Ok a => k a
  | Raise e => Raise e
  end.

End Py.

(** ** Python string primitives used by the bot *)

Module PyStr.

(** [c.isspace()] on code points below 256. *)
Definition isspace (c : ascii) : bool :=
  let n := N_of_ascii c in
  ((9 <=? n) && (n <=? 13) || (28 <=? n) && (n <=? 32)
   || (n =? 133) || (n =? 160))%N.

(** Truth value of a string: [''] is false. *)
Definition truthy (s : string) : bool :=
  match s with EmptyString => false | String _ _ => true end.

Definition len (s : string) : nat := String.length s.

(** [s + c] for a single character [c]. *)
Definition snoc (s : string) (c : ascii) : string := s +:+ String c EmptyString.

(** [s.split()]: maximal runs of non-whitespace characters. *)
Fixpoint split_from (word : string) (s : string) : list string :=
  match s with
  | EmptyString => if truthy word then [word] else []
  | String c rest =>
      if isspace c
      then (if truthy word then word :: split_from EmptyString rest
            else split_from EmptyString rest)
      else split_from (snoc word c) rest
  end.

Definition split (s : string) : list string := split_from EmptyString s.

(** [s.split(sep)] for a one-character separator. *)
Fixpoint split_on (sep : ascii) (s : string) : list string :=
  match s with
  | EmptyString => [EmptyString]
  | String c rest =>
      if Ascii.eqb c sep then EmptyString :: split_on sep rest
      else match split_on sep rest with
           | piece :: pieces => String c piece :: pieces
           | [] => [String c EmptyString]
           end
  end.

(** [sep.join(words)]. *)
Definition join (sep : string) (words : list string) : string :=
  String.concat sep words.

(** The first [n] characters of [s]. *)
Fixpoint take (n : nat) (s : string) : string :=
  match n, s with
  | O, _ => EmptyString
  | S _, EmptyString => EmptyString
  | S m, String c rest => String c (take m rest)
  end.

(** [s[:-n]] for [n >= 0]; [s[:-0]] is [s[:0]], the empty string. *)
Definition slice_to_neg (s : string) (n : nat) : string :=
  match n with
  | O => EmptyString
  | S _ => take (len s - n) s
  end.

Fixpoint lstrip (s : string) : string :=
  match s with
  | EmptyString => EmptyString
  | String c rest => if isspace c then lstrip rest else s
  end.

Fixpoint rstrip (s : string) : string :=
  match s with
  | EmptyString => EmptyString
  | String c rest =>
      let r := rstrip rest in
      if negb (truthy r) && isspace c then EmptyString else String c r
  end.

(** [s.strip()]. *)
Definition strip (s : string) : string := lstrip (rstrip s).

(** [s.startswith(prefix)], [s.endswith(suffix)] and [needle in s]. *)
Fixpoint startswith (s prefix : string) : bool :=
  match prefix, s with
  | EmptyString, _ => true
  | String _ _, EmptyString => false
  | String p prefix', String c s' => Ascii.eqb c p && startswith s' prefix'
  end.

Fixpoint endswith (s suffix : string) : bool :=
  String.eqb s suffix
  || match s with
     | EmptyString => false
     | String _ rest => endswith rest suffix
     end.

Fixpoint contains (needle s : string) : bool :=
  startswith s needle
  || match s with
     | EmptyString => false
     | String _ rest => contains needle rest
     end.

(** [c.lower()] on code points below 256: the ASCII capitals and the
    Latin-1 capitals other than the multiplication sign. *)
Definition lower_char (c : ascii) : ascii :=
  let n := N_of_ascii c in
  if ((65 <=? n) && (n <=? 90)
      || (192 <=? n) && (n <=? 222) && negb (n =? 215))%N
  then ascii_of_N (n + 32) else c.

Fixpoint lower (s : string) : string :=
  match s with
  | EmptyString => EmptyString
  | String c rest => String (lower_char c) (lower rest)
  end.

(** [template.format] with positional [args] and keyword [kwargs], for templates whose fields are
    [{}] (filled from [args] in order) or [{name}] (looked up in
    [kwargs]), with the escapes [{{] and [}}]. Explicit indices,
    attribute access, conversions and format specs, which no template
    of the bot uses, are not covered. *)
Inductive format_state : Type :=
| Literal
| AfterOpen
| InField (name : string)
| AfterClose.

Fixpoint lookup_kwarg (kwargs : list (string * string)) (name : string)
  : option string :=
  match kwargs with
  | [] => None
  | (k, v) :: rest => if String.eqb k name then Some v else lookup_kwarg rest name
  end.

Definition emit (piece : string) (rest : Py.result string) : Py.result string :=
  Py.rbind rest (fun r => Py.Ok (piece +:+ r)).

Fixpoint format_from (args : list string) (kwargs : list (string * string))
         (st : format_state) (template : string) : Py.result string :=
  match template with
  | EmptyString =>
      match st with
      | Literal => Py.Ok EmptyString
      | _ => Py.Raise Py.ValueError
      end
  | String c rest =>
      match st with
      | Literal =>
          if Ascii.eqb c "{" then format_from args kwargs AfterOpen rest
          else if Ascii.eqb c "}" then format_from args kwargs AfterClose rest
          else emit (String c EmptyString) (format_from args kwargs Literal rest)
      | AfterOpen =>
          if Ascii.eqb c "{"
          then emit "{" (format_from args kwargs Literal rest)
          else if Ascii.eqb c "}"
          then match args with
               | [] => Py.Raise Py.IndexError
               | value :: args' => emit value (format_from args' kwargs Literal rest)
               end
          else format_from args kwargs (InField (String c EmptyString)) rest
      | InField name =>
          if Ascii.eqb c "}"
          then match lookup_kwarg kwargs name with
               | None => Py.Raise (Py.KeyError name)
               | Some value => emit value (format_from args kwargs Literal rest)
               end
          else if Ascii.eqb c "{" then Py.Raise Py.ValueError
          else format_from args kwargs (InField (snoc name c)) rest
      | AfterClose =>
          if Ascii.eqb c "}"
          then emit "}" (format_from args kwargs Literal rest)
          else Py.Raise Py.ValueError
      end
  end.

Definition format (template : string) (args : list string)
           (kwargs : list (string * string)) : Py.result string :=
  format_from args kwargs Literal template.

(** The newline and the double quote, which a literal cannot hold. *)
Definition nl : string := String (ascii_of_nat 10) EmptyString.
Definition dquote : string := String (ascii_of_nat 34) EmptyString.

(** A word as [split] produces them: non-empty, free of whitespace. *)
Fixpoint nospace (s : string) : bool :=
  match s with
  | EmptyString => true
  | String c rest => negb (isspace c) && nospace rest
  end.

Definition is_word (s : string) : Prop := truthy s = true /\ nospace s = true.

End PyStr.

(** ** RedditImage: title layout *)

Module Layout.
Import PyStr.

(** [RedditImage.margin] *)
Definition margin : Z := 10.

Definition all_delimiters : list ascii := [","; ";"; "."]%char.

Definition is_delimiter (c : ascii) : bool :=
  existsb (Ascii.eqb c) all_delimiters.

(** The list [lines] is never empty in either loop; it is carried as
    the pair of its finished lines and its last element [lines[-1]]. *)
Definition lines_of (finished : list string) (last : string) : list string :=
  finished ++ [last].

Section Metrics.
(** [self._font_title.getsize] and [self._width]. *)
Variable getsize : string -> Z * Z.
Variable width : Z.

(** [getsize(line)[0] + RedditImage.margin > self._width] *)
Definition too_wide (line : string) : bool :=
  width <? fst (getsize line) + margin.

(** One iteration of the loop of [_wrap_title]. *)
Definition wrap_step (st : list string * string * list string) (word : string)
  : list string * string * list string :=
  let '(finished, _, line_words) := st in
  let line_words := line_words ++ [word] in
  let last := join " " line_words in
  if too_wide last
  then (finished ++ [strip (slice_to_neg last (len word))], word, [word])
  else (finished, last, line_words).

Definition wrap_loop (words : list string) (st : list string * string * list string) :=
  fold_left wrap_step words st.

Definition _wrap_title (title : string) : list string :=
  let '(finished, last, _) := wrap_loop (split title) ([], EmptyString, []) in
  List.filter truthy (lines_of finished last).

(** One iteration of the character loop of [_split_title]. *)
Definition split_step (st : list string * string * option ascii) (character : ascii)
  : list string * string * option ascii :=
  let '(finished, last, delimiter) := st in
  if Ascii.eqb character " " && negb (truthy last) then st
  else
    let last := snoc last character in
    let delimiter :=
      match delimiter with
      | None => if is_delimiter character then Some character else None
      | Some d => Some d
      end in
    match delimiter with
    | Some d =>
        if Ascii.eqb character d then (finished ++ [last], EmptyString, delimiter)
        else (finished, last, delimiter)
    | None => (finished, last, delimiter)
    end.

Fixpoint split_loop (title : string) (st : list string * string * option ascii) :=
  match title with
  | EmptyString => st
  | String character rest => split_loop rest (split_step st character)
  end.

(** The segmentation [lines] and the [delimiter] after the first loop. *)
Definition split_scan (title : string) : list string * option ascii :=
  let '(finished, last, delimiter) := split_loop title ([], EmptyString, None) in
  (lines_of finished last, delimiter).

Definition _split_title (title : string) : list string :=
  let lines := fst (split_scan title) in
  if existsb too_wide lines then _wrap_title title
  else List.filter truthy lines.

(** A group is the list of words put on one line; only a group of two
    words or more was ever measured. *)
Definition group_fits (ws : list string) : Prop :=
  (2 <= length ws)%nat -> too_wide (join " " ws) = false.

Definition nonempty_group (ws : list string) : bool :=
  match ws with [] => false | _ :: _ => true end.

Inductive wrap_inv (seen : list string)
          (st : list string * string * list string) : Prop :=
| WrapInv (groups : list (list string))
    (Hfinished : fst (fst st) = map (join " ") groups)
    (Hlast : snd (fst st) = join " " (snd st))
    (Hseen : concat groups ++ snd st = seen)
    (Hfit : Forall group_fits groups)
    (Hfit_last : group_fits (snd st)).

End Metrics.

(** Spec side of DELIMITED mode: the delimiter is the first character
    of the text among the three, and the text is cut after each of its
    occurrences; a line never starts with a blank. *)
Fixpoint first_delimiter (title : string) : option ascii :=
  match title with
  | EmptyString => None
  | String c rest => if is_delimiter c then Some c else first_delimiter rest
  end.

Fixpoint cut_after (d : ascii) (s : string) : list string :=
  match s with
  | EmptyString => [EmptyString]
  | String c rest =>
      if Ascii.eqb c d then String c EmptyString :: cut_after d rest
      else match cut_after d rest with
           | piece :: pieces => String c piece :: pieces
           | [] => [String c EmptyString]
           end
  end.

Fixpoint drop_blanks (s : string) : string :=
  match s with
  | EmptyString => EmptyString
  | String c rest => if Ascii.eqb c " " then drop_blanks rest else s
  end.

Definition delimited_lines (title : string) : list string :=
  match first_delimiter title with
  | Some d => map drop_blanks (cut_after d title)
  | None => [drop_blanks title]
  end.

(** Number of occurrences of a character. *)
Fixpoint occurrences (d : ascii) (s : string) : nat :=
  match s with
  | EmptyString => O
  | String c rest => (if Ascii.eqb c d then 1 else 0) + occurrences d rest
  end%nat.

(** [s.endswith(d)] for a character. *)
Fixpoint ends_with (d : ascii) (s : string) : bool :=
  match s with
  | EmptyString => false
  | String c EmptyString => Ascii.eqb c d
  | String _ rest => ends_with d rest
  end.

(** Every line but the last ends with its only occurrence of [d], and
    the last line has none: the lines end exactly at the [d]s. *)
Fixpoint terminated_by (d : ascii) (lines : list string) : Prop :=
  match lines with
  | [] => False
  | line :: rest =>
      match rest with
      | [] => occurrences d line = O
      | _ :: _ => ends_with d line = true /\ occurrences d line = 1%nat
                  /\ terminated_by d rest
      end
  end.

(** A line that the delimiter ended: it ends with [d], its only one. *)
Definition ends_line (d : ascii) (line : string) : Prop :=
  ends_with d line = true /\ occurrences d line = 1%nat.

(** Some character of [s] is one of the three delimiters. *)
Fixpoint has_delimiter (s : string) : bool :=
  match s with
  | EmptyString => false
  | String c rest => is_delimiter c || has_delimiter rest
  end.

(** The pieces of the rest of the text, the first one continuing the
    current line [last]. *)
Definition continue_line (last : string) (text : string) : string :=
  last +:+ (if truthy last then text else drop_blanks text).

Definition glue (last : string) (pieces : list string) : list string :=
  match pieces with
  | [] => [last]
  | piece :: rest => continue_line last piece :: map drop_blanks rest
  end.

(** A font in which every character is [px] wide, for examples. *)
Definition monospace (px : Z) (s : string) : Z * Z :=
  (Z.of_nat (len s) * px, 2 * px).

End Layout.

(** ** Python floats: the binary64 operations of [__init__] *)

Module Float64.

Definition prec : Z := 53.
Definition emax : Z := 1024.

(** [float(n)], rounding to nearest even. *)
Definition of_int (n : Z) : spec_float :=
  binary_normalize prec emax n 0 false.

(** [a / b] on two [int]s: the correctly rounded quotient, which for
    operands below [2^53] is the binary64 quotient of their
    conversions. *)
Definition true_div (a b : Z) : Py.result spec_float :=
  if b =? 0 then Py.Raise Py.ZeroDivisionError
  else Py.Ok (SFdiv prec emax (of_int a) (of_int b)).

(** [n * x] for an [int] and a [float]. *)
Definition mul_int (n : Z) (x : spec_float) : spec_float :=
  SFmul prec emax (of_int n) x.

(** [math.ceil(x)]. *)
Definition ceil (x : spec_float) : Py.result Z :=
  match x with
  | S754_zero _ => Py.Ok 0
  | S754_finite sign m e =>
      let v := if sign then Z.neg m else Z.pos m in
      Py.Ok (if 0 <=? e then v * 2 ^ e else - ((- v) / 2 ^ (- e)))
  | S754_infinity _ => Py.Raise Py.OverflowError
  | S754_nan => Py.Raise Py.ValueError
  end.

End Float64.

(** ** RedditImage: construction and composition *)

Module RedditImage.
Import PyStr Layout.

(** A PIL image: its size and the text drawn on it, each with the
    position it was drawn at. *)
Record image : Type := {
  size : Z * Z;
  drawn : list ((Z * Z) * string)
}.

(** The instance attributes; the font is known by its size. *)
Record t : Type := {
  _image : image;
  upscaled : bool;
  _width : Z;
  _height : Z;
  _font_size : Z
}.

Definition min_size : Z := 500.
Definition font_scale_factor : Z := 16.

(** [a < b] on two pairs: Python compares tuples lexicographically. *)
Definition tuple_lt (a b : Z * Z) : bool :=
  (fst a <? fst b) || ((fst a =? fst b) && (snd a <? snd b)).

(** [image.resize(size, Image.LANCZOS)] *)
Definition resize (img : image) (new_size : Z * Z) : image :=
  {| size := new_size; drawn := drawn img |}.

Definition __init__ (img : image) : Py.result t :=
  let '(width, height) := size img in
  if tuple_lt (size img) (min_size, min_size) then
    Py.rbind (if width <? height
              then Float64.true_div min_size width
              else Float64.true_div min_size height) (fun factor =>
    Py.rbind (Float64.ceil (Float64.mul_int width factor)) (fun new_width =>
    Py.rbind (Float64.ceil (Float64.mul_int height factor)) (fun new_height =>
    let resized := resize img (new_width, new_height) in
    Py.Ok {| _image := resized;
             upscaled := true;
             _width := fst (size resized);
             _height := snd (size resized);
             _font_size := fst (size resized) / font_scale_factor |})))
  else
    Py.Ok {| _image := img;
             upscaled := false;
             _width := fst (size img);
             _height := snd (size img);
             _font_size := fst (size img) / font_scale_factor |}.

(** *** [regex_resolution.sub('', title)] *)

Definition is_digit (c : ascii) : bool :=
  let n := N_of_ascii c in ((48 <=? n) && (n <=? 57))%N.

(** The class [xX*] and the multiplication sign, code point 215. *)
Definition is_times (c : ascii) : bool :=
  Ascii.eqb c "x" || Ascii.eqb c "X" || Ascii.eqb c "*"
  || (N_of_ascii c =? 215)%N.

Fixpoint skip_digits (s : string) : string :=
  match s with
  | EmptyString => EmptyString
  | String c rest => if is_digit c then skip_digits rest else s
  end.

(** [[0-9]+]: what is left after one digit or more, if any. *)
Definition digits (s : string) : option string :=
  match s with
  | String c rest => if is_digit c then Some (skip_digits rest) else None
  | EmptyString => None
  end.

(** [\s?] in front of something that is not whitespace. *)
Definition optional_space (s : string) : string :=
  match s with
  | String c rest => if isspace c then rest else s
  | EmptyString => s
  end.

Definition expect (p : ascii -> bool) (s : string) : option string :=
  match s with
  | String c rest => if p c then Some rest else None
  | EmptyString => None
  end.

(** The pattern from its opening bracket on; what is left after it. *)
Definition bracketed (s : string) : option string :=
  r1 ← expect (Ascii.eqb "[") s;
  r2 ← digits r1;
  r3 ← expect is_times (optional_space r2);
  r4 ← digits (optional_space r3);
  expect (Ascii.eqb "]") r4.

(** A match of the whole pattern at the start of [s]. *)
Definition match_resolution (s : string) : option string :=
  match s with
  | String c rest =>
      if isspace c then bracketed rest else bracketed s
  | EmptyString => None
  end.

(** Leftmost non-overlapping matches are dropped; [skip] counts the
    characters of the current match still to pass over. *)
Fixpoint sub_from (skip : nat) (s : string) : string :=
  match s with
  | EmptyString => EmptyString
  | String c rest =>
      match skip with
      | S k => sub_from k rest
      | O =>
          match match_resolution s with
          | Some remaining => sub_from (len rest - len remaining) rest
          | None => String c (sub_from O rest)
          end
      end
  end.

Definition regex_resolution_sub (title : string) : string := sub_from O title.

(** *** [add_title] *)

(** [draw.text] for each line of [enumerate(lines)] from index [i]. *)
Fixpoint draw_lines (i : Z) (line_height : Z) (lines : list string)
  : list ((Z * Z) * string) :=
  match lines with
  | [] => []
  | line :: rest =>
      ((margin, i * line_height + margin), line)
        :: draw_lines (i + 1) line_height rest
  end.

Section AddTitle.
(** [ImageFont.truetype(font_file, size).getsize] *)
Variable truetype_getsize : Z -> string -> Z * Z.

Definition title_lines (self : t) (title : string) (boot : bool) : list string :=
  let title := regex_resolution_sub title in
  let getsize := truetype_getsize (_font_size self) in
  if boot then _split_title getsize (_width self) title
  else _wrap_title getsize (_width self) title.

Definition add_title (self : t) (title : string) (boot : bool) : t :=
  let stripped := regex_resolution_sub title in
  let getsize := truetype_getsize (_font_size self) in
  let line_height := snd (getsize stripped) + margin in
  let lines := title_lines self title boot in
  let whitespace_height := line_height * Z.of_nat (length lines) + margin in
  let new := {| size := (_width self, _height self + whitespace_height);
                drawn := draw_lines 0 line_height lines |} in
  {| _image := new;
     upscaled := upscaled self;
     _width := fst (size new);
     _height := snd (size new);
     _font_size := _font_size self |}.
End AddTitle.

End RedditImage.

(** ** The sqlite ledger *)

Module Database.
Import Py.

(** Modelled from the spec: the schema of the two tables, which the
    repository creates outside this file: [messages(id PK, author,
    subject, body)] and [submissions(id PK, author, title, url,
    imgur_url NULL, retry INT DEFAULT 0, timestamp)]. The timestamp
    column, which no code reads, is left out. *)
Record message_row : Type := {
  msg_id : string;
  msg_author : string;
  msg_subject : string;
  msg_body : string
}.

Record submission_row : Type := {
  row_id : string;
  row_author : string;
  row_title : string;
  row_url : string;
  row_imgur_url : option string;
  row_retry : Z
}.

(** [if row['retry']]: an integer is false when it is zero. *)
Definition row_retry_is_zero (row : submission_row) : bool := row_retry row =? 0.

Record tables : Type := {
  submissions : gmap string submission_row;
  messages : gmap string message_row
}.

(** A connection: the tables as its statements left them, and the
    tables as of its last [commit]. *)
Record t : Type := {
  connection : tables;
  committed : tables
}.

Definition execute (f : tables -> tables) (db : t) : t :=
  {| connection := f (connection db); committed := committed db |}.

Definition commit (db : t) : t :=
  {| connection := connection db; committed := connection db |}.

Definition set_retry (retry : Z) (row : submission_row) : submission_row :=
  {| row_id := row_id row; row_author := row_author row;
     row_title := row_title row; row_url := row_url row;
     row_imgur_url := row_imgur_url row; row_retry := retry |}.

Definition set_imgur_url (imgur_url : string) (row : submission_row)
  : submission_row :=
  {| row_id := row_id row; row_author := row_author row;
     row_title := row_title row; row_url := row_url row;
     row_imgur_url := Some imgur_url; row_retry := row_retry row |}.

Definition update_submission (f : submission_row -> submission_row)
           (submission_id : string) (tb : tables) : tables :=
  {| submissions := alter f submission_id (submissions tb);
     messages := messages tb |}.

Definition delete_from_messages (message_id : string) (tb : tables) : tables :=
  {| submissions := submissions tb;
     messages := delete message_id (messages tb) |}.

Definition message_exists (db : t) (message_id : string) : bool :=
  match messages (connection db) !! message_id with
  | Some _ => true
  | None => false
  end.

Definition message_insert (db : t) (message_id author subject body : string)
  : result unit * t :=
  match messages (connection db) !! message_id with
  | Some _ => (Raise IntegrityError, db)
  | None =>
      let row := {| msg_id := message_id; msg_author := author;
                    msg_subject := subject; msg_body := body |} in
      (Ok tt,
       commit (execute (fun tb =>
         {| submissions := submissions tb;
            messages := <[message_id := row]> (messages tb) |}) db))
  end.

Definition submission_select (db : t) (submission_id : string)
  : option submission_row :=
  submissions (connection db) !! submission_id.

Definition submission_insert (db : t) (submission_id author title url : string)
  : result unit * t :=
  match submissions (connection db) !! submission_id with
  | Some _ => (Raise IntegrityError, db)
  | None =>
      let row := {| row_id := submission_id; row_author := author;
                    row_title := title; row_url := url;
                    row_imgur_url := None; row_retry := 0 |} in
      (Ok tt,
       commit (execute (fun tb =>
         {| submissions := <[submission_id := row]> (submissions tb);
            messages := messages tb |}) db))
  end.

(** [message] is the praw comment, known here by its id. *)
Definition submission_set_retry (db : t) (submission_id : string)
           (delete_message : bool) (message : option string)
  : result unit * t :=
  let db := execute (update_submission (set_retry 1) submission_id) db in
  if delete_message then
    match message with
    | None =>
        (Raise (TypeError "If delete_message is True, message must be set"), db)
    | Some message_id =>
        (Ok tt, commit (execute (delete_from_messages message_id) db))
    end
  else (Ok tt, commit db).

Definition submission_clear_retry (db : t) (submission_id : string) : t :=
  commit (execute (update_submission (set_retry 0) submission_id) db).

Definition submission_set_imgur_url (db : t) (submission_id imgur_url : string) : t :=
  commit (execute (update_submission (set_imgur_url imgur_url) submission_id) db).

End Database.

(** ** The world of the bot and its computations *)

Module World.
Import Py.

(** The calls made to the collaborators, in order. *)
Inductive event : Type :=
| Get (url : string)
| AddTitle (title : string) (boot : bool)
| Save (path : string)
| Upload (path : string)
| Remove (path : string)
| ReplyToSubmission (submission_id : string) (body : string)
| ReplyToComment (comment_id : string) (body : string).

(** The dictionary [imgur_config]. *)
Record imgur_config : Type := {
  config_album : option string;
  config_name : string;
  config_title : string;
  config_description : string
}.

(** What PIL answers to [Image.save]: the file is written, or an
    exception comes out (a JPEG with a side above 65500, a full disk).
    PIL opens the file before it encodes the image, and whether a failed
    save leaves the file behind depends on its version: the answer says
    it. *)
Inductive save_answer : Type :=
| Written
| NotWritten (err : exn) (left_behind : bool).

(** What the outside answers: [requests.get] followed by [Image.open],
    the metrics of the font at a given size, PIL's answer to the save
    of an image under a path, imgur's answer to an upload (the [link]
    of its response) and reddit's answer to a reply. *)
Record env : Type := {
  fetch_image : string -> result RedditImage.image;
  truetype_getsize : Z -> string -> Z * Z;
  image_save : RedditImage.image -> string -> save_answer;
  upload_from_path : string -> imgur_config -> result string;
  reddit_reply : event -> result unit
}.

Record state : Type := {
  db : Database.t;
  files : gset string
}.

(** A computation: from a state to a result, the state it leaves and
    the calls it made. *)
Definition M (A : Type) : Type := state -> result A * state * list event.

Definition ret {A : Type} (a : A) : M A := fun st => (Ok a, st, []).

Definition raise {A : Type} (e : exn) : M A := fun st => (Raise e, st, []).

Definition bind {A B : Type} (m : M A) (k : A -> M B) : M B :=
  fun st =>
    match m st with
    | (Ok a, st1, evs1) =>
        let '(r, st2, evs2) := k a st1 in (r, st2, evs1 ++ evs2)
    | (Raise e, st1, evs1) => (Raise e, st1, evs1)
    end.

Definition lift {A : Type} (r : result A) : M A := fun st => (r, st, []).

Definition call (ev : event) : M unit := fun st => (Ok tt, st, [ev]).

(** [try: m except E: handler], [E] given by the test [catches]. *)
Definition try_except {A : Type} (m : M A) (catches : exn -> bool)
           (handler : exn -> M A) : M A :=
  fun st =>
    match m st with
    | (Ok a, st1, evs1) => (Ok a, st1, evs1)
    | (Raise e, st1, evs1) =>
        if catches e
        then let '(r, st2, evs2) := handler e st1 in (r, st2, evs1 ++ evs2)
        else (Raise e, st1, evs1)
    end.

(** [try: m finally: cleanup]: the cleanup runs on every way out of
    [m]; an exception of the cleanup replaces the outcome of [m]. *)
Definition try_finally {A : Type} (m : M A) (cleanup : M unit) : M A :=
  fun st =>
    let '(r, st1, evs1) := m st in
    match cleanup st1 with
    | (Ok _, st2, evs2) => (r, st2, evs1 ++ evs2)
    | (Raise e, st2, evs2) => (Raise e, st2, evs1 ++ evs2)
    end.

Definition result_of {A : Type} (run : result A * state * list event) : result A :=
  fst (fst run).
Definition state_of {A : Type} (run : result A * state * list event) : state :=
  snd (fst run).
Definition events_of {A : Type} (run : result A * state * list event) : list event :=
  snd run.

(** A query on the database. *)
Definition read_db {A : Type} (f : Database.t -> A) : M A :=
  fun st => (Ok (f (db st)), st, []).

(** A statement on the database. *)
Definition with_db {A : Type} (f : Database.t -> result A * Database.t) : M A :=
  fun st =>
    let '(r, db') := f (db st) in
    (r, {| db := db'; files := files st |}, []).

End World.

(** ** The publisher and the submission processor *)

Module Bot.
Import Py PyStr World.

Notation "x <- m ;; k" := (bind m (fun x => k))
  (at level 100, m at next level, right associativity).
Notation "m ;;; k" := (bind m (fun _ => k))
  (at level 100, right associativity).

(** *** [RedditImage.upload] *)

Definition path_png : string := "temp.png".
Definition path_jpg : string := "temp.jpg".

(** [self._image.save(path)] *)
Definition save (e : env) (image : RedditImage.image) (path : string) : M unit :=
  fun st =>
    match image_save e image path with
    | Written =>
        (Ok tt, {| db := db st; files := {[path]} ∪ files st |}, [Save path])
    | NotWritten err left_behind =>
        (Raise err,
         {| db := db st;
            files := if left_behind then {[path]} ∪ files st else files st |},
         [Save path])
    end.

(** [os.remove(path)] *)
Definition remove (path : string) : M unit :=
  fun st =>
    if decide (path ∈ files st)
    then (Ok tt, {| db := db st; files := files st ∖ {[path]} |}, [Remove path])
    else (Raise FileNotFoundError, st, [Remove path]).

(** [imgur.upload_from_path(path, config, anon=False)] *)
Definition imgur_upload (e : env) (path : string) (config : imgur_config)
  : M string :=
  fun st => (upload_from_path e path config, st, [Upload path]).

(** The url, or [None]. *)
Definition upload (e : env) (self : RedditImage.t) (config : imgur_config)
  : M (option string) :=
  save e (RedditImage._image self) path_png ;;;
  save e (RedditImage._image self) path_jpg ;;;
  try_finally
    (try_except
       (response <- imgur_upload e path_png config ;; ret (Some response))
       is_ImgurClientError
       (fun _ =>
          try_except
            (response <- imgur_upload e path_jpg config ;; ret (Some response))
            is_ImgurClientError
            (fun _ => ret None)))
    (remove path_png ;;; remove path_jpg).

(** The state [upload] leaves behind once both files are written. *)
Definition after_upload (st : state) : state :=
  {| db := db st;
     files := ({[path_jpg]} ∪ ({[path_png]} ∪ files st))
                ∖ {[path_png]} ∖ {[path_jpg]} |}.

(** *** praw's submissions and comments *)

Record Submission : Type := {
  id : string;
  author : option string;
  title : string;
  url : string;
  score : Z;
  subreddit : string;
  shortlink : string
}.

Record Comment : Type := { comment_id : string }.

Definition is_set {A : Type} (o : option A) : bool :=
  match o with Some _ => true | None => false end.

(** *** [TitleToImageBot] *)

Definition _template : string := Eval cbv in
  "[Image with added title]({image_url})" +:+ nl +:+ nl +:+
  "{upscaled}---" +:+ nl +:+ nl +:+
  "summon me with /u/titletoimagebot | " +:+
  "[feedback](https://reddit.com/message/compose/" +:+
  "?to=TitleToImageBot&subject=feedback%20{submission_id}) | " +:+
  "[source](https://github.com/gerenook/titletoimagebot)".

Definition upscaled_note (upscaled : bool) : string :=
  if upscaled then " (image was upscaled)" +:+ nl +:+ nl else EmptyString.

(** The text of the reply. *)
Definition reply_text (url : string) (submission_id : string) (upscaled : bool)
  : result string :=
  format _template []
         [("image_url", url);
          ("upscaled", upscaled_note upscaled);
          ("submission_id", submission_id)].

(** The reply written out, the note standing where the template has
    [{upscaled}]. *)
Definition rendered (note : string) (image_url submission_id : string) : string :=
  "[Image with added title](" +:+ image_url +:+ ")" +:+ nl +:+ nl +:+
  note +:+ "---" +:+ nl +:+ nl +:+
  "summon me with /u/titletoimagebot | " +:+
  "[feedback](https://reddit.com/message/compose/" +:+
  "?to=TitleToImageBot&subject=feedback%20" +:+ submission_id +:+ ") | " +:+
  "[source](https://github.com/gerenook/titletoimagebot)".

(** The note as the specification words it, without a leading blank. *)
Definition specified_note (upscaled : bool) : string :=
  if upscaled then "(image was upscaled)" +:+ nl +:+ nl else EmptyString.

Definition set_retry_for (submission : Submission) (source_comment : option Comment)
  : M unit :=
  with_db (fun d =>
    Database.submission_set_retry d (id submission) (is_set source_comment)
      (option_map comment_id source_comment)).

(** The database once [set_retry_for] has run. *)
Definition flagged (d : Database.t) (submission : Submission)
           (source_comment : option Comment) : Database.t :=
  snd (Database.submission_set_retry d (id submission) (is_set source_comment)
         (option_map comment_id source_comment)).

Definition reply_event (submission : Submission) (source_comment : option Comment)
           (body : string) : event :=
  match source_comment with
  | Some comment => ReplyToComment (comment_id comment) body
  | None => ReplyToSubmission (id submission) body
  end.

Definition send_reply (e : env) (ev : event) : M unit :=
  fun st => (reddit_reply e ev, st, [ev]).

Definition _reply_imgur_url (e : env) (url : string) (submission : Submission)
           (source_comment : option Comment) (upscaled : bool) : M bool :=
  reply <- lift (reply_text url (id submission) upscaled) ;;
  sent <- try_except
            (send_reply e (reply_event submission source_comment reply) ;;;
             ret true)
            is_Exception
            (fun error =>
               if is_APIException error
               then set_retry_for submission source_comment ;;; ret false
               else ret false) ;;
  if sent
  then with_db (fun d => (Ok tt, Database.submission_clear_retry d (id submission))) ;;;
       ret true
  else ret false.

(** The [return] statement a run of [_process_submission] ends at. *)
Inductive outcome : Type :=
| AuthorDeleted
| ScoreBelowThreshold
| AlreadyInDatabase
| NotARhyme
| AnimatedGif
| DownloadFailed
| RateLimited
| UploadFailed
| ReplyFailed
| Processed.

Definition score_threshold : Z := 500.
Definition triggers : list string := [","; ";"; "roses"].

Definition imgur_title_template : string := Eval cbv in
  dquote +:+ "{}" +:+ dquote +:+ " by /u/{}".

Definition fetch (e : env) (url : string) : M RedditImage.image :=
  fun st => (fetch_image e url, st, [Get url]).

(** [custom_title] if it is given and not empty, else the title. *)
Definition title_to_add (submission : Submission) (custom_title : option string)
  : string :=
  match custom_title with
  | Some t => if truthy t then t else title submission
  | None => title submission
  end.

Definition is_boot (submission : Submission) : bool :=
  String.eqb (subreddit submission) "boottoobig".

(** [_process_submission] from [image = RedditImage(img)] to its end
    (lines 389 to 414): composition, upload, reply. *)
Definition compose_and_publish (e : env) (submission : Submission)
           (source_comment : option Comment) (custom_title : option string)
           (author : string) (img : RedditImage.image) : M outcome :=
  image <- lift (RedditImage.__init__ img) ;;
  call (AddTitle (title_to_add submission custom_title) (is_boot submission)) ;;;
  let image := RedditImage.add_title (truetype_getsize e) image
                 (title_to_add submission custom_title) (is_boot submission) in
  imgur_title <- lift (format imgur_title_template [title submission; author] []) ;;
  let imgur_config := {| config_album := None;
                         config_name := id submission;
                         config_title := imgur_title;
                         config_description := shortlink submission |} in
  uploaded <- try_except
                (imgur_url <- upload e image imgur_config ;; ret (Some imgur_url))
                is_ImgurClientRateLimitError
                (fun _ => set_retry_for submission source_comment ;;; ret None) ;;
  match uploaded with
  | None => ret RateLimited
  | Some imgur_url =>
  match imgur_url with
  | None => ret UploadFailed
  | Some link =>
  if negb (truthy link) then ret UploadFailed
  else
  with_db (fun d => (Ok tt, Database.submission_set_imgur_url d (id submission) link)) ;;;
  replied <- _reply_imgur_url e link submission source_comment
               (RedditImage.upscaled image) ;;
  if replied then ret Processed else ret ReplyFailed
  end end.

(** [_process_submission] from its start to the download of the image
    (lines 330 to 388), followed by [compose_and_publish]. *)
Definition _process_submission (e : env) (submission : Submission)
           (source_comment : option Comment) (custom_title : option string)
  : M outcome :=
  match author submission with
  | None => ret AuthorDeleted
  | Some author =>
  let sub := subreddit submission in
  if String.eqb sub "fakehistoryporn" && negb (is_set source_comment)
     && (score submission <? score_threshold)
  then ret ScoreBelowThreshold
  else
  let title := title submission in
  let url := url submission in
  result <- read_db (fun d => Database.submission_select d (id submission)) ;;
  if match result with
     | Some row => negb (negb (Database.row_retry_is_zero row) || is_set source_comment)
     | None => false
     end
  then ret AlreadyInDatabase
  else
  match result with
  | Some _ => ret tt
  | None => with_db (fun d => Database.submission_insert d (id submission) author title url)
  end ;;;
  let boot := is_boot submission in
  if boot && negb (is_set source_comment)
     && negb (existsb (fun t => contains t (lower title)) triggers)
  then ret NotARhyme
  else
  if endswith url ".gif" || endswith url ".gifv" then ret AnimatedGif
  else
  fetched <- try_except
               (img <- fetch e url ;; ret (Some img))
               is_OSError
               (fun _ =>
                  try_except
                    (img <- fetch e (url +:+ ".jpg") ;; ret (Some img))
                    is_OSError
                    (fun _ => ret None)) ;;
  match fetched with
  | None => ret DownloadFailed
  | Some img =>
      compose_and_publish e submission source_comment custom_title author img
  end
  end.

(** [img] is what the download of the submission gave: the answer to
    its url, or after an [OSError] the answer to [<url>.jpg]. *)
Definition downloaded (e : env) (submission : Submission) (img : RedditImage.image)
  : Prop :=
  fetch_image e (url submission) = Ok img
  \/ exists err : exn,
      fetch_image e (url submission) = Raise err
      /\ is_OSError err = true
      /\ fetch_image e (url submission +:+ ".jpg") = Ok img.

(** The dictionary [imgur_config] of a submission by [author]. *)
Definition imgur_config_of (submission : Submission) (author : string) : imgur_config :=
  {| config_album := None;
     config_name := id submission;
     config_title := dquote +:+ title submission +:+ dquote +:+ " by /u/" +:+ author;
     config_description := shortlink submission |}.

(** [link] is what imgur answered to the upload: to the PNG, or after
    an [ImgurClientError] to the JPG. *)
Definition uploaded_to (e : env) (config : imgur_config) (link : string) : Prop :=
  upload_from_path e path_png config = Ok link
  \/ exists err : exn,
      upload_from_path e path_png config = Raise err
      /\ is_ImgurClientError err = true
      /\ upload_from_path e path_jpg config = Ok link.

(** A run with earlier calls put in front of its own. *)
Definition after_calls {A : Type} (earlier : list event)
           (run : result A * state * list event) : result A * state * list event :=
  (result_of run, state_of run, earlier ++ events_of run).

(** A download, as opposed to any other call. *)
Definition is_get (ev : event) : bool :=
  match ev with Get _ => true | _ => false end.

Definition is_reply (ev : event) : bool :=
  match ev with
  | ReplyToSubmission _ _ | ReplyToComment _ _ => true
  | _ => false
  end.

End Bot.

(** ** A small world for examples *)

Module Demo.
Import Py World Bot.

Definition picture : RedditImage.image :=
  {| RedditImage.size := (800, 600); RedditImage.drawn := [] |}.

Definition thumbnail : RedditImage.image :=
  {| RedditImage.size := (300, 200); RedditImage.drawn := [] |}.

Definition link : string := "https://i.imgur.com/abc.png".

(** Every download gives [img], every save writes its file, every
    upload answers [answer], every reply is accepted. *)
Definition world (img : RedditImage.image) (answer : string -> result string) : env :=
  {| fetch_image := fun _ => Ok img;
     truetype_getsize := fun font_size => Layout.monospace (font_size / 2);
     image_save := fun _ _ => Written;
     upload_from_path := fun path _ => answer path;
     reddit_reply := fun _ => Ok tt |}.



(** As [world], but reddit answers every reply with [APIException]. *)
Definition refusing (img : RedditImage.image) (answer : string -> result string) : env :=
  {| fetch_image := fun _ => Ok img;
     truetype_getsize := fun font_size => Layout.monospace (font_size / 2);
     image_save := fun _ _ => Written;
     upload_from_path := fun path _ => answer path;
     reddit_reply := fun _ => Raise APIException |}.

(** A strip that upscaling makes 500 wide and 70000 high, and what
    [RedditImage] makes of it. *)
Definition strip : RedditImage.image :=
  {| RedditImage.size := (100, 14000); RedditImage.drawn := [] |}.

Definition tall : RedditImage.t :=
  {| RedditImage._image :=
       {| RedditImage.size := (500, 70000); RedditImage.drawn := [] |};
     RedditImage.upscaled := true;
     RedditImage._width := 500;
     RedditImage._height := 70000;
     RedditImage._font_size := 31 |}.


Definition config : imgur_config :=
  {| config_album := None; config_name := "t3_abc";
     config_title := "A quiet lake"; config_description := "https://redd.it/abc" |}.

Definition accepts (path : string) : result string := Ok link.

Definition rate_limited (path : string) : result string :=
  Raise ImgurClientRateLimitError.

Definition rejects_png (path : string) : result string :=
  if String.eqb path "temp.png" then Raise ImgurClientError else Ok link.


Definition post : Submission :=
  {| id := "t3_abc"; author := Some "alice"; title := "A quiet lake [1920x1080]";
     url := "https://example.org/lake.png"; score := 7;
     subreddit := "pics"; shortlink := "https://redd.it/abc" |}.

Definition animation : Submission :=
  {| id := "t3_gif"; author := Some "carol"; title := "Waves";
     url := "https://example.org/waves.gifv"; score := 12;
     subreddit := "pics"; shortlink := "https://redd.it/gif" |}.

Definition mention : Comment := {| comment_id := "t1_xyz" |}.

Definition empty_tables : Database.tables :=
  {| Database.submissions := ∅; Database.messages := ∅ |}.

Definition fresh : state :=
  {| db := {| Database.connection := empty_tables; Database.committed := empty_tables |};
     files := ∅ |}.

Definition seen_row : Database.submission_row :=
  {| Database.row_id := "t3_abc"; Database.row_author := "alice";
     Database.row_title := "A quiet lake [1920x1080]";
     Database.row_url := "https://example.org/lake.png";
     Database.row_imgur_url := Some link; Database.row_retry := 0 |}.

Definition mention_row : Database.message_row :=
  {| Database.msg_id := "t1_xyz"; Database.msg_author := "bob";
     Database.msg_subject := "username mention";
     Database.msg_body := "u/titletoimagebot" |}.

Definition seen_tables : Database.tables :=
  {| Database.submissions := {[ "t3_abc" := seen_row ]};
     Database.messages := {[ "t1_xyz" := mention_row ]} |}.

Definition seen : state :=
  {| db := {| Database.connection := seen_tables; Database.committed := seen_tables |};
     files := ∅ |}.

End Demo.

(** ** Measures used to state further properties *)

Module Measures.
Import Py PyStr.

(** [c in s] for a character. *)
Fixpoint has_char (c : ascii) (s : string) : bool :=
  match s with
  | EmptyString => false
  | String x rest => Ascii.eqb x c || has_char c rest
  end.

(** A run of ASCII digits, possibly empty. *)
Fixpoint all_digits (s : string) : bool :=
  match s with
  | EmptyString => true
  | String c rest => RedditImage.is_digit c && all_digits rest
  end.

(** The text without its whitespace. *)
Fixpoint remove_whitespace (s : string) : string :=
  match s with
  | EmptyString => EmptyString
  | String c rest =>
      if isspace c then remove_whitespace rest else String c (remove_whitespace rest)
  end.

(** [ceil(side * (min_size / side))], what [__init__] makes of the
    side it divides by. *)
Definition scaled_side (side : Z) : result Z :=
  rbind (Float64.true_div RedditImage.min_size side) (fun factor =>
  Float64.ceil (Float64.mul_int side factor)).

(** True when [s] is empty or starts with something other than a digit. *)
Definition starts_without_digit (s : string) : bool :=
  match s with
  | EmptyString => true
  | String c _ => negb (RedditImage.is_digit c)
  end.

(** A blank, or nothing. *)
Definition pad (blank : bool) : string := if blank then " " else EmptyString.

(** The integers from 1 to [n]. *)
Definition upto (n : nat) : list Z := map (fun i => Z.of_nat (S i)) (seq 0 n).

Definition scaled_side_hits (side : Z) : bool :=
  match scaled_side side with
  | Ok n => (n =? 500) || (n =? 501)
  | Raise _ => false
  end.

End Measures.

(** ** Relations between the states of a run *)

Module Invariants.
Import Py World.

(** Every submission the first database holds, the second holds too. *)
Definition rows_kept (d d' : Database.t) : Prop :=
  forall submission_id : string,
    is_Some (Database.submission_select d submission_id) ->
    is_Some (Database.submission_select d' submission_id).

(** A computation that deletes no submission. *)
Definition keeps_rows {A : Type} (m : M A) : Prop :=
  forall st : state, rows_kept (db st) (db (state_of (m st))).

(** A computation whose database, at its end, stands in the relation
    [R] to the database at its start. *)
Definition preserves {A : Type} (R : Database.t -> Database.t -> Prop) (m : M A) : Prop :=
  forall st : state, R (db st) (db (state_of (m st))).

(** Every row of the messages table is as it was, the row of [skip]
    apart. *)
Definition other_messages_kept (skip : option string) (d d' : Database.t) : Prop :=
  forall message_id : string,
    skip <> Some message_id ->
    Database.messages (Database.connection d') !! message_id
    = Database.messages (Database.connection d) !! message_id.

End Invariants.

(** ** The inbox and the main cycle *)

Module Inbox.
Import Py PyStr World Bot.

(** *** The custom title of a mention *)

(** [re.match] of [.*u/titletoimagebot\s*Q(.+)Q.*] with [IGNORECASE],
    [Q] being the class of the double quote and the two curly quotes.
    The curly quotes are code points above 255, so that on the strings
    modelled here the class holds the double quote alone. *)
Definition is_newline (c : ascii) : bool := (N_of_ascii c =? 10)%N.

Definition is_quote (c : ascii) : bool := (N_of_ascii c =? 34)%N.

(** The literal, matched letter by letter whatever the case. *)
Fixpoint skip_literal (literal s : string) : option string :=
  match literal, s with
  | EmptyString, _ => Some s
  | String _ _, EmptyString => None
  | String l literal', String c s' =>
      if Ascii.eqb (lower_char c) l then skip_literal literal' s' else None
  end.

(** [\s*] in front of something that is not whitespace. *)
Fixpoint skip_spaces (s : string) : string :=
  match s with
  | EmptyString => EmptyString
  | String c rest => if isspace c then skip_spaces rest else s
  end.

(** The greedy group [(.+)] in front of a quote: what stands on the
    line before its last quote; [.] does not match a newline. *)
Fixpoint before_last_quote (s : string) : option string :=
  match s with
  | EmptyString => None
  | String c rest =>
      if is_newline c then None
      else match before_last_quote rest with
           | Some group => Some (String c group)
           | None => if is_quote c then Some EmptyString else None
           end
  end.

(** The pattern from the mention on, at the start of [s]. *)
Definition match_mention (s : string) : option string :=
  rest ← skip_literal "u/titletoimagebot" s;
  match skip_spaces rest with
  | String c quoted =>
      if is_quote c
      then group ← before_last_quote quoted;
           if truthy group then Some group else None
      else None
  | EmptyString => None
  end.

(** The leading [.*] is greedy and stays on the first line: the last
    position of that line at which the rest matches wins. *)
Fixpoint match_custom_title (body : string) : option string :=
  match body with
  | EmptyString => None
  | String c rest =>
      if is_newline c then None
      else match match_custom_title rest with
           | Some group => Some group
           | None => match_mention body
           end
  end.

(** The title handed to [_process_submission]. *)
Definition custom_title_of (body_original : string) : option string :=
  match match_custom_title body_original with
  | Some title => if (512 <? len title)%nat then None else Some title
  | None => None
  end.

(** *** praw's inbox items *)

(** [isinstance(message, praw.models.Comment)], with the submission a
    comment belongs to. *)
Inductive kind : Type :=
| IsMessage
| IsComment (submission : Submission).

Record Message : Type := {
  message_id : string;
  message_author : option string;
  message_subject : string;
  message_body : string;
  message_kind : kind
}.

(** The calls of a cycle: those of [_process_submission], and reddit's
    [mark_read], [message] and [delete]. *)
Inductive call : Type :=
| Processing (ev : event)
| MarkRead (message_id : string)
| SendMessage (recipient subject body : string)
| DeleteComment (comment_id : string).

(** What the outside answers during a cycle: the answers of [env], the
    name of [reddit.user.me()], reddit's answer to each call, and the
    three listings, each for the limit it is asked with. *)
Record cycle_env : Type := {
  base : env;
  me : result string;
  reddit_answer : call -> result unit;
  hot : Z -> list Submission;
  inbox_all : Z -> list Message;
  comments_new : Z -> list (string * Z)
}.

(** A computation of a cycle: as [M], with the calls of a cycle. *)
Definition N (A : Type) : Type := state -> result A * state * list call.

Definition nret {A : Type} (a : A) : N A := fun st => (Ok a, st, []).

Definition nbind {A B : Type} (m : N A) (k : A -> N B) : N B :=
  fun st =>
    match m st with
    | (Ok a, st1, calls1) =>
        let '(r, st2, calls2) := k a st1 in (r, st2, calls1 ++ calls2)
    | (Raise e, st1, calls1) => (Raise e, st1, calls1)
    end.

Notation "x <-- m ;; k" := (nbind m (fun x => k))
  (at level 100, m at next level, right associativity).
Notation "m ;;;; k" := (nbind m (fun _ => k))
  (at level 100, right associativity).

(** A computation of [_process_submission] or of the database, inside a
    cycle. *)
Definition processing {A : Type} (m : M A) : N A :=
  fun st => let '(r, st1, evs) := m st in (r, st1, map Processing evs).

Definition answer {A : Type} (r : result A) : N A := fun st => (r, st, []).

Definition reddit (ce : cycle_env) (c : call) : N unit :=
  fun st => (reddit_answer ce c, st, [c]).

Definition outcome_of {A : Type} (run : result A * state * list call) : result A :=
  fst (fst run).
Definition final {A : Type} (run : result A * state * list call) : state :=
  snd (fst run).
Definition calls_of {A : Type} (run : result A * state * list call) : list call :=
  snd run.

(** *** [_process_feedback_message] *)

Definition __author__ : string := "gerenook".

Definition feedback_body_template : string := Eval cbv in
  "Subject: {}" +:+ nl +:+ nl +:+ "Body: {}".

Definition _process_feedback_message (ce : cycle_env) (message : Message) : N unit :=
  match message_author message with
  | None => answer (Raise (OtherException "AttributeError"))
  | Some message_author =>
      subject <-- answer (format "TitleToImageBot feedback from {}"
                            [message_author] []) ;;
      body <-- answer (format feedback_body_template
                         [message_subject message; message_body message] []) ;;
      reddit ce (SendMessage __author__ subject body)
  end.

(** *** [_process_message] *)

(** The [return] a run of [_process_message] ends at, or the branch it
    took. *)
Inductive message_outcome : Type :=
| NoAuthor
| Duplicate
| OwnMessage
| AutoModerator
| Mention (processed : outcome)
| Feedback
| GoodBot
| BadBot
| Ignored.

(** The submission of a comment that mentions the bot: the first
    condition of the branching. *)
Definition mentioned (message : Message) (subject body : string) : option Submission :=
  match message_kind message with
  | IsComment submission =>
      if String.eqb subject "username mention"
         || (String.eqb subject "comment reply" && contains "u/titletoimagebot" body)
      then Some submission else None
  | IsMessage => None
  end.

Definition _process_message (ce : cycle_env) (message : Message) : N message_outcome :=
  match message_author message with
  | None => nret NoAuthor
  | Some author =>
  let subject := lower (message_subject message) in
  let body_original := message_body message in
  let body := lower (message_body message) in
  known <-- processing (read_db (fun d => Database.message_exists d (message_id message))) ;;
  if known : bool then nret Duplicate
  else
  processing (with_db (fun d =>
    Database.message_insert d (message_id message) author subject body)) ;;;;
  me_name <-- answer (me ce) ;;
  if String.eqb author me_name then nret OwnMessage
  else
  match mentioned message subject body with
  | Some submission =>
      if String.eqb (lower author) "automoderator"
      then reddit ce (MarkRead (message_id message)) ;;;; nret AutoModerator
      else
        let title := custom_title_of body_original in
        processed <-- processing
                        (_process_submission (base ce) submission
                           (Some {| comment_id := message_id message |}) title) ;;
        reddit ce (MarkRead (message_id message)) ;;;;
        nret (Mention processed)
  | None =>
      if startswith subject "feedback"
      then _process_feedback_message ce message ;;;; nret Feedback
      else if contains "good bot" body && (len body <? 12)%nat
      then reddit ce (MarkRead (message_id message)) ;;;; nret GoodBot
      else if contains "bad bot" body && (len body <? 12)%nat
      then reddit ce (MarkRead (message_id message)) ;;;; nret BadBot
      else nret Ignored
  end
  end.

(** *** [run] *)

Fixpoint for_each {A : Type} (items : list A) (body : A -> N unit) : N unit :=
  match items with
  | [] => nret tt
  | item :: rest => body item ;;;; for_each rest body
  end.

Definition remove_if_bad (ce : cycle_env) (comment : string * Z) : N unit :=
  if snd comment <=? -1 then reddit ce (DeleteComment (fst comment)) else nret tt.

Definition run (ce : cycle_env) (limit : Z) : N unit :=
  for_each (hot ce limit)
    (fun submission =>
       processing (_process_submission (base ce) submission None None) ;;;; nret tt) ;;;;
  for_each (inbox_all ce limit)
    (fun message => _process_message ce message ;;;; nret tt) ;;;;
  answer (me ce) ;;;;
  for_each (comments_new ce 100) (remove_if_bad ce).

(** *** Measures on runs of a cycle *)

(** A run with earlier calls put in front of its own. *)
Definition ahead {A : Type} (earlier : list call)
           (run : result A * state * list call) : result A * state * list call :=
  (outcome_of run, final run, earlier ++ calls_of run).

(** Whitespace only. *)
Fixpoint all_space (s : string) : bool :=
  match s with
  | EmptyString => true
  | String c rest => isspace c && all_space rest
  end.

(** No newline. *)
Fixpoint one_line (s : string) : bool :=
  match s with
  | EmptyString => true
  | String c rest => negb (is_newline c) && one_line rest
  end.

(** The comment [_process_message] hands to [_process_submission]. *)
Definition as_comment (message : Message) : Comment :=
  {| comment_id := message_id message |}.

(** The state once a message is recorded. *)
Definition recorded (message : Message) (author : string) (st : state) : state :=
  {| db := snd (Database.message_insert (db st) (message_id message) author
                  (lower (message_subject message)) (lower (message_body message)));
     files := files st |}.

(** How [_process_message] ends a mention once [_process_submission]
    has run: it marks the message read, unless an exception came out. *)
Definition finish (ce : cycle_env) (message : Message)
           (processed : result outcome * state * list event)
  : result message_outcome * state * list call :=
  match result_of processed with
  | Ok o =>
      (match reddit_answer ce (MarkRead (message_id message)) with
       | Ok _ => Ok (Mention o)
       | Raise err => Raise err
       end,
       state_of processed,
       map Processing (events_of processed) ++ [MarkRead (message_id message)])
  | Raise err => (Raise err, state_of processed, map Processing (events_of processed))
  end.

(** The submission a new message has [_process_message] process: that
    of a comment that mentions the bot, written by neither the bot nor
    AutoModerator. *)
Definition addressed (ce : cycle_env) (message : Message) (author : string)
  : option Submission :=
  match me ce with
  | Ok me_name =>
      if String.eqb author me_name then None
      else
        match mentioned message (lower (message_subject message))
                (lower (message_body message)) with
        | Some submission =>
            if String.eqb (lower author) "automoderator" then None else Some submission
        | None => None
        end
  | Raise _ => None
  end.

Definition is_processing (c : call) : bool :=
  match c with Processing _ => true | _ => false end.

(** The comments deleted, in order. *)
Definition deleted (calls : list call) : list string :=
  flat_map (fun c => match c with DeleteComment comment_id => [comment_id] | _ => [] end)
           calls.

Definition is_bad (comment : string * Z) : bool := snd comment <=? -1.

(** A computation that deletes no comment. *)
Definition deletes_nothing {A : Type} (m : N A) : Prop :=
  forall st : state, deleted (calls_of (m st)) = [].

(** *** A small inbox for examples *)

Definition quiet (c : call) : result unit := Ok tt.

Definition cycle (e : env) (submissions : list Submission) (messages : list Message)
           (comments : list (string * Z)) : cycle_env :=
  {| base := e;
     me := Ok "titletoimagebot";
     reddit_answer := quiet;
     hot := fun _ => submissions;
     inbox_all := fun _ => messages;
     comments_new := fun _ => comments |}.


Definition served : cycle_env :=
  cycle (Demo.world Demo.picture Demo.accepts) [] [] [].

Definition warning : Message :=
  {| message_id := "t1_auto"; message_author := Some "AutoModerator";
     message_subject := "username mention";
     message_body := "u/titletoimagebot your post was removed";
     message_kind := IsComment Demo.post |}.

Definition summon : Message :=
  {| message_id := "t1_xyz"; message_author := Some "bob";
     message_subject := "username mention";
     message_body := "/u/TitleToImageBot " +:+ dquote +:+ "Still waters" +:+ dquote;
     message_kind := IsComment Demo.post |}.

Definition praise : Message :=
  {| message_id := "t1_good"; message_author := Some "dave";
     message_subject := "comment reply"; message_body := "Good bot!";
     message_kind := IsComment Demo.post |}.

Definition complaint : Message :=
  {| message_id := "t4_fb"; message_author := Some "erin";
     message_subject := "Feedback t3_abc"; message_body := "The text is too small.";
     message_kind := IsMessage |}.

End Inbox.

(** ** Facts about the string primitives *)

Section PyStrFacts.
Import PyStr.

Lemma append_nil_l (s : string) : EmptyString +:+ s = s.
Proof. reflexivity. Qed.

Lemma append_cons (c : ascii) (s t : string) :
  String c s +:+ t = String c (s +:+ t).
Proof. reflexivity. Qed.

Ltac unfold_append := rewrite ?append_cons, ?append_nil_l in *.

Lemma append_empty_r (s : string) : s +:+ EmptyString = s.
Proof. induction s as [|c s IH]; unfold_append; [reflexivity | now rewrite IH]. Qed.

Lemma append_assoc (a b c : string) : (a +:+ b) +:+ c = a +:+ (b +:+ c).
Proof. induction a as [|x a IH]; unfold_append; [reflexivity | now rewrite IH]. Qed.

Lemma len_append (a b : string) : len (a +:+ b) = (len a + len b)%nat.
Proof.
  unfold len. induction a as [|x a IH]; unfold_append; simpl; [reflexivity | now rewrite IH].
Qed.

Lemma snoc_cons (c : ascii) (s : string) (x : ascii) :
  snoc (String c s) x = String c (snoc s x).
Proof. reflexivity. Qed.

Lemma snoc_nil (x : ascii) : snoc EmptyString x = String x EmptyString.
Proof. reflexivity. Qed.

Lemma snoc_append (a : string) (c : ascii) (b : string) :
  snoc a c +:+ b = a +:+ String c b.
Proof. unfold snoc. now rewrite append_assoc. Qed.

Lemma truthy_snoc (s : string) (c : ascii) : truthy (snoc s c) = true.
Proof. destruct s; reflexivity. Qed.

Lemma truthy_false (s : string) : truthy s = false -> s = EmptyString.
Proof. destruct s; [reflexivity | discriminate]. Qed.

Lemma truthy_append_r (a b : string) : truthy b = true -> truthy (a +:+ b) = true.
Proof. destruct a; unfold_append; simpl; auto. Qed.

Lemma nospace_append (a b : string) :
  nospace (a +:+ b) = nospace a && nospace b.
Proof.
  induction a as [|c a IH]; unfold_append; simpl; [reflexivity|].
  rewrite IH. now rewrite andb_assoc.
Qed.

Lemma nospace_snoc (s : string) (c : ascii) :
  nospace s = true -> isspace c = false -> nospace (snoc s c) = true.
Proof.
  intros Hs Hc. unfold snoc. rewrite nospace_append, Hs. simpl. now rewrite Hc.
Qed.

Lemma take_append_exact (a b : string) : take (len a) (a +:+ b) = a.
Proof.
  induction a as [|c a IH]; unfold_append; simpl; [now destruct b | now rewrite IH].
Qed.

(** *** [split] *)

Lemma split_from_words (s word : string) :
  nospace word = true -> Forall is_word (split_from word s).
Proof.
  revert word. induction s as [|c s IH]; intros word Hw; simpl.
  - destruct (truthy word) eqn:E; repeat constructor; assumption.
  - destruct (isspace c) eqn:Ec.
    + destruct (truthy word) eqn:E.
      * constructor; [split; assumption | now apply IH].
      * now apply IH.
    + apply IH. now apply nospace_snoc.
Qed.

Lemma split_words (s : string) : Forall is_word (split s).
Proof. now apply split_from_words. Qed.

(** Scanning a whitespace-free run only extends the pending word. *)
Lemma split_from_run (w rest word : string) :
  nospace w = true ->
  split_from word (w +:+ rest) = split_from (word +:+ w) rest.
Proof.
  revert word. induction w as [|c w IH]; intros word Hw; unfold_append.
  - now rewrite append_empty_r.
  - simpl in Hw. apply andb_true_iff in Hw as [Hc Hw].
    apply negb_true_iff in Hc. simpl. rewrite Hc.
    rewrite IH by assumption. now rewrite snoc_append.
Qed.

Lemma split_word (w : string) : is_word w -> split w = [w].
Proof.
  intros [Ht Hn]. unfold split.
  rewrite <- (append_empty_r w) at 1.
  rewrite split_from_run by assumption. unfold_append. simpl. now rewrite Ht.
Qed.

Lemma join_cons (sep w : string) (ws : list string) :
  ws <> [] -> join sep (w :: ws) = w +:+ sep +:+ join sep ws.
Proof. destruct ws; [congruence | reflexivity]. Qed.

Lemma join_snoc (sep : string) (ws : list string) (w : string) :
  ws <> [] -> join sep (ws ++ [w]) = join sep ws +:+ sep +:+ w.
Proof.
  induction ws as [|x ws IH]; intros Hne; [congruence|].
  destruct ws as [|y ws].
  - reflexivity.
  - change ((x :: y :: ws) ++ [w]) with (x :: ((y :: ws) ++ [w])).
    rewrite join_cons by discriminate.
    rewrite IH by discriminate.
    rewrite (join_cons sep x (y :: ws)) by discriminate.
    now rewrite !append_assoc.
Qed.

(** Splitting a space-joined list of words gives the words back. *)
Lemma split_join (ws : list string) :
  Forall is_word ws -> split (join " " ws) = ws.
Proof.
  induction 1 as [|w ws Hw Hws IH]; [reflexivity|].
  destruct ws as [|y ws].
  - now apply split_word.
  - rewrite join_cons by discriminate.
    destruct Hw as [Ht Hn]. unfold split.
    rewrite split_from_run by assumption. unfold_append. simpl.
    rewrite Ht. f_equal. exact IH.
Qed.

Lemma split_on_cons (sep c : ascii) (s : string) :
  split_on sep (String c s) =
  if Ascii.eqb c sep then EmptyString :: split_on sep s
  else match split_on sep s with
       | piece :: pieces => String c piece :: pieces
       | [] => [String c EmptyString]
       end.
Proof. reflexivity. Qed.

(** A whitespace-free run stays in front of the first piece. *)
Lemma split_on_run (w rest : string) :
  nospace w = true ->
  split_on " " (w +:+ rest) =
  match split_on " " rest with
  | piece :: pieces => (w +:+ piece) :: pieces
  | [] => [w]
  end.
Proof.
  induction w as [|c w IH]; intros Hw; unfold_append.
  - destruct rest as [|c rest]; [reflexivity|].
    destruct (split_on " " (String c rest)) eqn:E; [|reflexivity].
    rewrite split_on_cons in E.
    destruct (Ascii.eqb c " "); [discriminate|].
    destruct (split_on " " rest); discriminate.
  - cbn [nospace] in Hw. apply andb_true_iff in Hw as [Hc Hw].
    rewrite split_on_cons.
    destruct (Ascii.eqb_spec c " ") as [->|_]; [discriminate Hc|].
    rewrite IH by assumption.
    destruct (split_on " " rest); reflexivity.
Qed.

Lemma split_on_join (ws : list string) :
  Forall is_word ws -> ws <> [] -> split_on " " (join " " ws) = ws.
Proof.
  induction 1 as [|w ws [Ht Hn] Hws IH]; intros Hne; [congruence|].
  destruct ws as [|y ws].
  - cbn [join String.concat]. rewrite <- (append_empty_r w) at 1.
    rewrite split_on_run by assumption. cbn [split_on].
    now rewrite append_empty_r.
  - rewrite join_cons by discriminate.
    rewrite split_on_run by assumption. unfold_append.
    rewrite split_on_cons, Ascii.eqb_refl, append_empty_r.
    f_equal. now apply IH.
Qed.

(** *** [strip] *)

Lemma rstrip_nospace (s : string) : nospace s = true -> rstrip s = s.
Proof.
  induction s as [|c s IH]; simpl; [reflexivity|].
  intros H. apply andb_true_iff in H as [Hc Hs].
  apply negb_true_iff in Hc. rewrite Hc, andb_false_r. now rewrite IH.
Qed.

Lemma rstrip_before_word (a w : string) :
  is_word w -> rstrip (a +:+ w) = a +:+ w.
Proof.
  intros [Ht Hn]. induction a as [|c a IH]; unfold_append.
  - now apply rstrip_nospace.
  - simpl. rewrite IH. now rewrite truthy_append_r.
Qed.

Lemma rstrip_blank_end (s : string) : rstrip (s +:+ " ") = rstrip s.
Proof.
  induction s as [|c s IH]; unfold_append; [reflexivity | simpl; now rewrite IH].
Qed.

Lemma join_words_shape (ws : list string) :
  Forall is_word ws -> ws <> [] ->
  exists a w, is_word w /\ join " " ws = a +:+ w.
Proof.
  intros Hws Hne. destruct (exists_last Hne) as [ws' [w ->]].
  apply Forall_app in Hws as [_ Hw]. inversion Hw as [|? ? Hw' _]; subst.
  destruct ws' as [|x ws'].
  - exists EmptyString, w. split; [assumption | reflexivity].
  - exists (join " " (x :: ws') +:+ " "), w. split; [assumption|].
    rewrite join_snoc by discriminate. now rewrite append_assoc.
Qed.

Lemma lstrip_join_words (ws : list string) :
  Forall is_word ws -> lstrip (join " " ws) = join " " ws.
Proof.
  intros Hws. destruct ws as [|w ws]; [reflexivity|].
  inversion Hws as [|? ? [Ht Hn] _]; subst.
  destruct w as [|c w]; [discriminate|].
  simpl in Hn. apply andb_true_iff in Hn as [Hc _]. apply negb_true_iff in Hc.
  destruct ws as [|y ws].
  - simpl. now rewrite Hc.
  - rewrite join_cons by discriminate. unfold_append. simpl. now rewrite Hc.
Qed.

Lemma strip_join_words (ws : list string) :
  Forall is_word ws -> strip (join " " ws) = join " " ws.
Proof.
  intros Hws. unfold strip. destruct ws as [|x ws]; [reflexivity|].
  destruct (join_words_shape (x :: ws) Hws) as (a & w & Hw & E); [discriminate|].
  rewrite E, rstrip_before_word by assumption. rewrite <- E.
  now apply lstrip_join_words.
Qed.

(** What [_wrap_title] computes when it takes the last word back off
    the current line: the line as it was before the word was added. *)
Lemma strip_slice_join (ws : list string) (w : string) :
  Forall is_word ws -> is_word w ->
  strip (slice_to_neg (join " " (ws ++ [w])) (len w)) = join " " ws.
Proof.
  intros Hws Hw. destruct Hw as [Ht Hn].
  unfold slice_to_neg. destruct (len w) eqn:El.
  { destruct w; [discriminate | discriminate El]. }
  rewrite <- El. clear El.
  destruct ws as [|x ws].
  - simpl. rewrite Nat.sub_diag. now destruct w.
  - rewrite join_snoc by discriminate.
    rewrite <- append_assoc.
    rewrite len_append.
    replace (len (join " " (x :: ws) +:+ " ") + len w - len w)%nat
      with (len (join " " (x :: ws) +:+ " ")) by lia.
    rewrite take_append_exact.
    unfold strip. rewrite rstrip_blank_end.
    now apply strip_join_words.
Qed.

End PyStrFacts.

(** ** Facts about WRAPPED mode *)

Section WrapFacts.
Import PyStr Layout.
Variable getsize : string -> Z * Z.
Variable width : Z.

Lemma wrap_inv_init : wrap_inv getsize width [] ([], EmptyString, []).
Proof.
  exists []; simpl; try reflexivity; [constructor|].
  intros H; simpl in H; lia.
Qed.

Lemma wrap_inv_step seen st word :
  Forall is_word seen -> is_word word ->
  wrap_inv getsize width seen st -> wrap_inv getsize width (seen ++ [word]) (wrap_step getsize width st word).
Proof.
  intros Hseen Hword [groups Hfin Hlast Hcat Hfit Hfl].
  destruct st as [[finished last] line_words]. simpl in *.
  assert (Hlw : Forall is_word line_words).
  { rewrite <- Hcat in Hseen. now apply Forall_app in Hseen as [_ ?]. }
  destruct (too_wide getsize width (join " " (line_words ++ [word]))) eqn:E.
  - rewrite strip_slice_join by assumption.
    exists (groups ++ [line_words]); simpl.
    + now rewrite map_app, Hfin.
    + reflexivity.
    + rewrite concat_app. simpl. rewrite app_nil_r, <- Hcat.
      now rewrite <- app_assoc.
    + apply Forall_app. split; [assumption | now constructor].
    + intros H; simpl in H; lia.
  - exists groups; simpl; try assumption; try reflexivity.
    + now rewrite <- Hcat, app_assoc.
    + intros _. exact E.
Qed.

Lemma wrap_inv_loop words seen st :
  Forall is_word seen -> Forall is_word words ->
  wrap_inv getsize width seen st -> wrap_inv getsize width (seen ++ words) (wrap_loop getsize width words st).
Proof.
  revert seen st. induction words as [|w words IH]; intros seen st Hseen Hwords Hinv.
  - now rewrite app_nil_r.
  - inversion Hwords as [|? ? Hw Hws]; subst. simpl.
    replace (seen ++ w :: words) with ((seen ++ [w]) ++ words)
      by now rewrite <- app_assoc.
    apply IH; [|assumption|now apply wrap_inv_step].
    apply Forall_app; split; [assumption | now constructor].
Qed.

Lemma truthy_join_words (ws : list string) :
  Forall is_word ws -> truthy (join " " ws) = nonempty_group ws.
Proof.
  intros H. destruct ws as [|w ws]; [reflexivity|].
  inversion H as [|? ? [Ht _] _]; subst.
  destruct w; [discriminate|]. destruct ws; reflexivity.
Qed.

Lemma filter_truthy_joined (groups : list (list string)) :
  Forall (Forall is_word) groups ->
  List.filter truthy (map (join " ") groups)
  = map (join " ") (List.filter nonempty_group groups).
Proof.
  induction 1 as [|ws groups Hws _ IH]; [reflexivity|].
  simpl. rewrite truthy_join_words by assumption.
  destruct (nonempty_group ws); simpl; now rewrite IH.
Qed.

Lemma concat_filter_nonempty (groups : list (list string)) :
  concat (List.filter nonempty_group groups) = concat groups.
Proof.
  induction groups as [|ws groups IH]; [reflexivity|].
  simpl. destruct ws; simpl; now rewrite IH.
Qed.

Lemma Forall_concat_words (groups : list (list string)) :
  Forall is_word (concat groups) -> Forall (Forall is_word) groups.
Proof.
  induction groups as [|ws groups IH]; simpl; intros H; [constructor|].
  apply Forall_app in H as [? ?]. constructor; auto.
Qed.

(** The lines WRAPPED mode returns are the space-joined groups of a
    partition of the title's words into consecutive non-empty groups,
    each group of two or more words fitting the width. *)
Lemma wrap_title_groups (title : string) :
  exists groups : list (list string),
    _wrap_title getsize width title = map (join " ") groups
    /\ concat groups = split title
    /\ Forall (fun ws => nonempty_group ws = true) groups
    /\ Forall (group_fits getsize width) groups.
Proof.
  pose proof (split_words title) as Hwords.
  pose proof (wrap_inv_loop (split title) [] _ (List.Forall_nil _) Hwords wrap_inv_init)
    as [groups Hfin Hlast Hcat Hfit Hfl].
  unfold _wrap_title.
  destruct (wrap_loop getsize width (split title) ([], EmptyString, []))
    as [[finished last] line_words].
  simpl in *.
  assert (Hall : Forall (Forall is_word) (groups ++ [line_words])).
  { apply Forall_concat_words. rewrite concat_app. simpl.
    now rewrite app_nil_r, Hcat. }
  exists (List.filter nonempty_group (groups ++ [line_words])).
  repeat split.
  - unfold lines_of. rewrite Hfin, Hlast.
    change [join " " line_words] with (map (join " ") [line_words]).
    rewrite <- map_app. now apply filter_truthy_joined.
  - rewrite concat_filter_nonempty, concat_app. simpl.
    now rewrite app_nil_r.
  - apply List.Forall_forall. intros ws Hin. now apply filter_In in Hin as [_ ?].
  - apply List.Forall_forall. intros ws Hin. apply filter_In in Hin as [Hin _].
    apply in_app_or in Hin as [Hin | [<- | []]]; [|assumption].
    now apply (proj1 (List.Forall_forall _ _) Hfit).
Qed.

End WrapFacts.

(** ** Facts about DELIMITED mode *)

Section SplitFacts.
Import PyStr Layout.

Lemma delimiter_not_blank (d : ascii) : is_delimiter d = true -> Ascii.eqb d " " = false.
Proof.
  intros H. destruct (Ascii.eqb_spec d " ") as [->|]; [discriminate H | reflexivity].
Qed.

Lemma first_delimiter_is_delimiter (s : string) (d : ascii) :
  first_delimiter s = Some d -> is_delimiter d = true.
Proof.
  induction s as [|c s IH]; simpl; [discriminate|].
  destruct (is_delimiter c) eqn:E; [|exact IH].
  intros [= <-]. exact E.
Qed.

Lemma cut_after_nonempty (d : ascii) (s : string) : cut_after d s <> [].
Proof.
  destruct s as [|c s]; simpl; [discriminate|].
  destruct (Ascii.eqb c d); [discriminate|].
  destruct (cut_after d s); discriminate.
Qed.

Lemma cut_after_cons (d c : ascii) (s : string) :
  cut_after d (String c s) =
  if Ascii.eqb c d then String c EmptyString :: cut_after d s
  else match cut_after d s with
       | piece :: pieces => String c piece :: pieces
       | [] => [String c EmptyString]
       end.
Proof. reflexivity. Qed.

Lemma continue_line_snoc (last : string) (c : ascii) (text : string) :
  (Ascii.eqb c " " && negb (truthy last) = false)%bool ->
  continue_line (snoc last c) text = continue_line last (String c text).
Proof.
  intros H. unfold continue_line. rewrite truthy_snoc, snoc_append.
  destruct (truthy last); [reflexivity|].
  rewrite andb_true_r in H. simpl. now rewrite H.
Qed.

Lemma continue_line_blank (text : string) :
  continue_line EmptyString (String " " text) = continue_line EmptyString text.
Proof. reflexivity. Qed.

Lemma continue_line_empty (text : string) :
  continue_line EmptyString text = drop_blanks text.
Proof. reflexivity. Qed.

(** Once the delimiter is fixed, the loop cuts the rest of the text
    after each of its occurrences. *)
Lemma split_loop_fixed (d : ascii) (s : string) :
  is_delimiter d = true ->
  forall finished last,
    let '(finished', last', delimiter) := split_loop s (finished, last, Some d) in
    lines_of finished' last' = finished ++ glue last (cut_after d s)
    /\ delimiter = Some d.
Proof.
  intros Hd. pose proof (delimiter_not_blank d Hd) as Hblank.
  induction s as [|c s IH]; intros finished last.
  - simpl. unfold continue_line. split; [|reflexivity].
    unfold lines_of. destruct (truthy last); simpl; now rewrite append_empty_r.
  - cbn [split_loop split_step].
    destruct (Ascii.eqb c " " && negb (truthy last))%bool eqn:Eskip.
    + apply andb_true_iff in Eskip as [Ec El].
      apply Ascii.eqb_eq in Ec as ->. apply negb_true_iff, truthy_false in El as ->.
      specialize (IH finished EmptyString).
      destruct (split_loop s (finished, EmptyString, Some d)) as [[f' l'] dl].
      destruct IH as [IH ->]. split; [|reflexivity].
      rewrite IH, cut_after_cons, Ascii.eqb_sym, Hblank.
      destruct (cut_after d s) as [|p ps] eqn:Ecut; [now apply cut_after_nonempty in Ecut|].
      reflexivity.
    + destruct (Ascii.eqb c d) eqn:Ecd.
      * specialize (IH (finished ++ [snoc last c]) EmptyString).
        destruct (split_loop s (finished ++ [snoc last c], EmptyString, Some d))
          as [[f' l'] dl].
        destruct IH as [IH ->]. split; [|reflexivity].
        rewrite IH, <- app_assoc. f_equal. rewrite cut_after_cons, Ecd.
        cbn [glue app map].
        rewrite <- (continue_line_snoc last c EmptyString Eskip).
        unfold continue_line at 1. rewrite truthy_snoc, append_empty_r.
        f_equal.
        destruct (cut_after d s) as [|p ps] eqn:Ecut; [now apply cut_after_nonempty in Ecut|].
        reflexivity.
      * specialize (IH finished (snoc last c)).
        destruct (split_loop s (finished, snoc last c, Some d)) as [[f' l'] dl].
        destruct IH as [IH ->]. split; [|reflexivity].
        rewrite IH. f_equal. rewrite cut_after_cons, Ecd.
        destruct (cut_after d s) as [|p ps] eqn:Ecut; [now apply cut_after_nonempty in Ecut|].
        cbn [glue]. now rewrite continue_line_snoc.
Qed.

(** Before any delimiter was met, the loop behaves as if the first
    delimiter of the rest of the text were already fixed. *)
Lemma split_loop_unfixed (d : ascii) (s : string) :
  first_delimiter s = Some d ->
  forall finished last,
    split_loop s (finished, last, None) = split_loop s (finished, last, Some d).
Proof.
  induction s as [|c s IH]; intros Hfirst finished last; [discriminate|].
  pose proof (first_delimiter_is_delimiter _ _ Hfirst) as Hd.
  simpl in Hfirst. cbn [split_loop split_step].
  destruct (Ascii.eqb c " " && negb (truthy last))%bool eqn:Eskip.
  - apply andb_true_iff in Eskip as [Ec _]. apply Ascii.eqb_eq in Ec as ->.
    simpl in Hfirst. now apply IH.
  - destruct (is_delimiter c) eqn:Edel.
    + injection Hfirst as ->. now rewrite Ascii.eqb_refl.
    + destruct (Ascii.eqb c d) eqn:Ecd.
      * apply Ascii.eqb_eq in Ecd as ->. congruence.
      * now apply IH.
Qed.

Lemma split_loop_no_delimiter (s : string) :
  first_delimiter s = None ->
  forall finished last,
    split_loop s (finished, last, None) = (finished, continue_line last s, None).
Proof.
  induction s as [|c s IH]; intros Hfirst finished last.
  - simpl. unfold continue_line. destruct (truthy last); now rewrite append_empty_r.
  - simpl in Hfirst. cbn [split_loop split_step].
    destruct (is_delimiter c) eqn:Edel; [discriminate|].
    destruct (Ascii.eqb c " " && negb (truthy last))%bool eqn:Eskip.
    + apply andb_true_iff in Eskip as [Ec El].
      apply Ascii.eqb_eq in Ec as ->. apply negb_true_iff, truthy_false in El as ->.
      now rewrite IH.
    + rewrite IH by assumption. now rewrite continue_line_snoc.
Qed.

Lemma split_scan_delimited_lines (title : string) :
  split_scan title = (delimited_lines title, first_delimiter title).
Proof.
  unfold split_scan, delimited_lines.
  destruct (first_delimiter title) as [d|] eqn:Efirst.
  - rewrite (split_loop_unfixed d) by assumption.
    pose proof (split_loop_fixed d title (first_delimiter_is_delimiter _ _ Efirst)
                  [] EmptyString) as H.
    destruct (split_loop title ([], EmptyString, Some d)) as [[f' l'] dl].
    destruct H as [-> ->]. f_equal. simpl.
    destruct (cut_after d title) as [|p ps] eqn:Ecut; [now apply cut_after_nonempty in Ecut|].
    reflexivity.
  - now rewrite split_loop_no_delimiter.
Qed.

Lemma occurrences_drop_blanks (d : ascii) (s : string) :
  Ascii.eqb d " " = false -> occurrences d (drop_blanks s) = occurrences d s.
Proof.
  intros Hd. induction s as [|c s IH]; [reflexivity|].
  cbn [drop_blanks]. destruct (Ascii.eqb_spec c " ") as [->|]; [|reflexivity].
  cbn [occurrences]. now rewrite Ascii.eqb_sym, Hd, IH.
Qed.

Lemma ends_with_cons (d c : ascii) (s : string) :
  ends_with d (String c s) =
  match s with EmptyString => Ascii.eqb c d | String _ _ => ends_with d s end.
Proof. reflexivity. Qed.

Lemma ends_with_drop_blanks (d : ascii) (s : string) :
  Ascii.eqb d " " = false -> ends_with d (drop_blanks s) = ends_with d s.
Proof.
  intros Hd. induction s as [|c s IH]; [reflexivity|].
  cbn [drop_blanks]. destruct (Ascii.eqb_spec c " ") as [->|]; [|reflexivity].
  rewrite IH, ends_with_cons. destruct s; [|reflexivity].
  now rewrite Ascii.eqb_sym, Hd.
Qed.

Lemma terminated_by_more (d : ascii) (line line' : string) (rest : list string) :
  terminated_by d (line :: line' :: rest)
  = (ends_with d line = true /\ occurrences d line = 1%nat
     /\ terminated_by d (line' :: rest)).
Proof. reflexivity. Qed.

Lemma terminated_by_drop_blanks (d : ascii) (lines : list string) :
  Ascii.eqb d " " = false ->
  terminated_by d lines -> terminated_by d (map drop_blanks lines).
Proof.
  intros Hd. induction lines as [|line rest IH]; [trivial|].
  destruct rest as [|line' rest].
  - simpl. now rewrite occurrences_drop_blanks.
  - rewrite terminated_by_more. intros (He & Ho & Hrest).
    change (terminated_by d (drop_blanks line :: drop_blanks line' :: map drop_blanks rest)).
    rewrite terminated_by_more.
    rewrite ends_with_drop_blanks, occurrences_drop_blanks by assumption.
    repeat split; [assumption | assumption | now apply IH].
Qed.

Lemma cut_after_terminated (d : ascii) (s : string) :
  terminated_by d (cut_after d s).
Proof.
  induction s as [|c s IH]; [reflexivity|].
  rewrite cut_after_cons.
  pose proof (cut_after_nonempty d s) as Hne.
  destruct (cut_after d s) as [|p ps]; [congruence|].
  destruct (Ascii.eqb c d) eqn:Ecd.
  - rewrite terminated_by_more. repeat split; [exact Ecd | | exact IH].
    cbn [occurrences]. now rewrite Ecd.
  - destruct ps as [|p' ps].
    + cbn [terminated_by occurrences] in *. now rewrite Ecd.
    + rewrite terminated_by_more in *. destruct IH as (He & Ho & Hrest).
      repeat split; [| |exact Hrest].
      * rewrite ends_with_cons. destruct p; [discriminate He | exact He].
      * cbn [occurrences]. now rewrite Ecd.
Qed.

Lemma length_cut_after (d : ascii) (s : string) :
  length (cut_after d s) = S (occurrences d s).
Proof.
  induction s as [|c s IH]; [reflexivity|].
  rewrite cut_after_cons. cbn [occurrences].
  destruct (Ascii.eqb c d); [simpl; now rewrite IH|].
  destruct (cut_after d s); simpl in *; lia.
Qed.

End SplitFacts.

(** ** The layout claims *)

Section LayoutClaims.
Import PyStr Layout.

Lemma is_delimiter_iff (c : ascii) :
  is_delimiter c = true <-> (c = "," \/ c = ";" \/ c = ".")%char.
Proof.
  unfold is_delimiter, all_delimiters. cbn [existsb].
  rewrite !orb_true_iff, !Ascii.eqb_eq. intuition discriminate.
Qed.

Lemma first_delimiter_position (title : string) :
  match first_delimiter title with
  | Some d =>
      exists before after : string,
        title = before +:+ String d after /\ has_delimiter before = false
  | None => has_delimiter title = false
  end.
Proof.
  induction title as [|c title IH]; [reflexivity|].
  cbn [first_delimiter has_delimiter].
  destruct (is_delimiter c) eqn:Ec.
  - exists EmptyString, title. now rewrite append_nil_l.
  - destruct (first_delimiter title) as [d|]; [|exact IH].
    destruct IH as (before & after & -> & Hbefore).
    exists (String c before), after. rewrite append_cons.
    split; [reflexivity|]. cbn [has_delimiter]. now rewrite Ec.
Qed.

Lemma terminated_by_ended (d : ascii) (lines : list string) :
  terminated_by d lines ->
  exists (ended : list string) (last : string),
    lines = ended ++ [last]
    /\ Forall (ends_line d) ended
    /\ occurrences d last = O.
Proof.
  induction lines as [|line rest IH]; [intros []|].
  destruct rest as [|line' rest].
  - intros Hlast. exists [], line. repeat split; [constructor | exact Hlast].
  - rewrite terminated_by_more. intros (Hends & Honce & Hrest).
    destruct (IH Hrest) as (ended & last & Hlines & Hended & Hlast).
    exists (line :: ended), last. rewrite Hlines.
    repeat split; [|exact Hlast].
    constructor; [now split | exact Hended].
Qed.

Lemma ended_lines_are_kept (d : ascii) (ended : list string) :
  Forall (ends_line d) ended -> List.filter truthy ended = ended.
Proof.
  induction 1 as [|line ended [Hends _] _ IH]; [reflexivity|].
  cbn [List.filter]. destruct line; [discriminate Hends|].
  cbn [truthy]. now rewrite IH.
Qed.

(** C4. DELIMITED mode knows three delimiters, [,], [;] and [.], and
    fixes as delimiter the first character of the text that is one of
    them. The lines of its scan end exactly at the occurrences of that
    character: every line but the last ends with its only occurrence of
    the delimiter, the last line has none, and there is one line more
    than there are occurrences, whatever other delimiter characters the
    lines contain. When no line is too wide, [_split_title] returns
    these lines, the text cut after each occurrence of the delimiter
    with leading blanks dropped: one line for each occurrence, each
    ended by it, followed by what is left after the last occurrence if
    anything is. *)
Theorem split_title_fixed_delimiter
        (getsize : string -> Z * Z) (width : Z) (title : string) :
  (forall c : ascii, is_delimiter c = true <-> (c = "," \/ c = ";" \/ c = ".")%char)
  /\ split_scan title = (delimited_lines title, first_delimiter title)
  /\ match snd (split_scan title) with
     | Some d =>
         is_delimiter d = true
         /\ (exists before after : string,
                title = before +:+ String d after /\ has_delimiter before = false)
         /\ terminated_by d (fst (split_scan title))
         /\ length (fst (split_scan title)) = S (occurrences d title)
     | None =>
         first_delimiter title = None
         /\ has_delimiter title = false
         /\ fst (split_scan title) = [drop_blanks title]
     end
  /\ (existsb (too_wide getsize width) (fst (split_scan title)) = false ->
      _split_title getsize width title = List.filter truthy (delimited_lines title)
      /\ match snd (split_scan title) with
         | Some d =>
             exists (ended : list string) (last : string),
               map drop_blanks (cut_after d title) = ended ++ [last]
               /\ _split_title getsize width title = ended ++ List.filter truthy [last]
               /\ Forall (ends_line d) ended
               /\ length ended = occurrences d title
               /\ occurrences d last = O
         | None =>
             _split_title getsize width title = List.filter truthy [drop_blanks title]
         end).
Proof.
  split; [exact is_delimiter_iff|].
  split; [apply split_scan_delimited_lines|].
  assert (Hlines : match first_delimiter title with
                   | Some d =>
                       is_delimiter d = true
                       /\ terminated_by d (map drop_blanks (cut_after d title))
                       /\ length (map drop_blanks (cut_after d title))
                          = S (occurrences d title)
                   | None => True
                   end).
  { destruct (first_delimiter title) as [d|] eqn:Efirst; [|trivial].
    pose proof (first_delimiter_is_delimiter _ _ Efirst) as Hd.
    repeat split; [assumption | |].
    - apply terminated_by_drop_blanks; [now apply delimiter_not_blank|].
      apply cut_after_terminated.
    - rewrite length_map. apply length_cut_after. }
  pose proof (first_delimiter_position title) as Hfirst.
  unfold _split_title.
  rewrite split_scan_delimited_lines. cbn [fst snd]. unfold delimited_lines.
  destruct (first_delimiter title) as [d|].
  - destruct Hlines as (Hd & Hterminated & Hlength).
    split; [now repeat split|].
    intros Hfit. rewrite Hfit. split; [reflexivity|].
    destruct (terminated_by_ended _ _ Hterminated) as (ended & last & Hcut & Hended & Hlast).
    exists ended, last. rewrite Hcut in Hlength |- *.
    split; [reflexivity|]. split.
    { now rewrite List.filter_app, (ended_lines_are_kept d). }
    split; [assumption|]. split; [|assumption].
    rewrite length_app in Hlength. cbn in Hlength. lia.
  - split; [now repeat split|].
    intros Hfit. rewrite Hfit. now split.
Qed.

Lemma split_title_fixed_delimiter_witness :
  exists (ended : list string) (last : string),
    map drop_blanks (cut_after ","%char "roses are red, violets; are blue, so.")
    = ended ++ [last]
    /\ _split_title (monospace 10) 300 "roses are red, violets; are blue, so."
       = ended ++ List.filter truthy [last]
    /\ Forall (ends_line ","%char) ended
    /\ length ended = occurrences ","%char "roses are red, violets; are blue, so."
    /\ occurrences ","%char last = O.
Proof.
  apply (proj2 (proj2 (proj2 (split_title_fixed_delimiter (monospace 10) 300
                                "roses are red, violets; are blue, so.")))).
  reflexivity.
Defined.

Example split_scan_keeps_other_delimiters :
  split_scan "one, two; three. four, five"
  = (["one,"; "two; three. four,"; "five"], Some ","%char).
Proof. reflexivity. Qed.

Example split_title_walk_in_the_park :
  _split_title (monospace 10) 300 "A great day, for a walk; in the park."
  = ["A great day,"; "for a walk; in the park."].
Proof. reflexivity. Qed.

Example split_title_on_full_stops :
  _split_title (monospace 10) 300 "Roses are red. Violets, too. So."
  = ["Roses are red."; "Violets, too."; "So."].
Proof. reflexivity. Qed.

Example split_title_on_semicolons :
  _split_title (monospace 10) 300 "Roses are red; violets, too."
  = ["Roses are red;"; "violets, too."].
Proof. reflexivity. Qed.

(** C5. Fallback law: when some line of the DELIMITED segmentation is
    wider than the width budget once the margin is added, [_split_title]
    returns exactly what [_wrap_title] returns on the same text. *)
Theorem split_title_falls_back_to_wrap
        (getsize : string -> Z * Z) (width : Z) (title : string) :
  existsb (too_wide getsize width) (fst (split_scan title)) = true ->
  _split_title getsize width title = _wrap_title getsize width title.
Proof. intros H. unfold _split_title. now rewrite H. Qed.

Lemma split_title_falls_back_to_wrap_witness :
  _split_title (monospace 10) 100 "A great day, for a walk; in the park."
  = _wrap_title (monospace 10) 100 "A great day, for a walk; in the park.".
Proof.
  apply (split_title_falls_back_to_wrap (monospace 10) 100
           "A great day, for a walk; in the park.").
  vm_compute. reflexivity.
Defined.

(** C6. Every line WRAPPED mode returns has rendered width plus margin
    at most the width budget, unless the line is a single word of the
    title. *)
Theorem wrap_title_lines_fit
        (getsize : string -> Z * Z) (width : Z) (title : string) :
  Forall (fun line =>
            fst (getsize line) + margin <= width
            \/ (split line = [line] /\ In line (split title)))
         (_wrap_title getsize width title).
Proof.
  destruct (wrap_title_groups getsize width title)
    as (groups & -> & Hcat & Hne & Hfit).
  pose proof (split_words title) as Hwords. rewrite <- Hcat in Hwords.
  apply List.Forall_forall. intros line Hin.
  apply in_map_iff in Hin as (ws & <- & Hin).
  destruct ws as [|w [|w' ws]].
  - apply (proj1 (List.Forall_forall _ _) Hne) in Hin. discriminate.
  - right.
    assert (Hw : In w (concat groups)).
    { apply in_concat. exists [w]. split; [assumption | now left]. }
    split; [|rewrite <- Hcat; exact Hw].
    apply split_word. exact (proj1 (List.Forall_forall _ _) Hwords w Hw).
  - left. apply (proj1 (List.Forall_forall _ _) Hfit) in Hin.
    unfold group_fits, too_wide in Hin.
    apply Z.ltb_ge. apply Hin. simpl. lia.
Qed.

(** A word wider than the budget stays whole on a line of its own. *)
Example wrap_title_keeps_long_word_whole :
  _wrap_title (monospace 10) 100 "an extraordinarily long word"
  = ["an"; "extraordinarily"; "long word"]
  /\ too_wide (monospace 10) 100 "extraordinarily" = true.
Proof. split; reflexivity. Qed.

(** C10. Word preservation: the words of the lines WRAPPED mode
    returns, taken line by line in order, are exactly the words of the
    title, whether a line is split on whitespace or on blanks. *)
Theorem wrap_title_preserves_words
        (getsize : string -> Z * Z) (width : Z) (title : string) :
  concat (map split (_wrap_title getsize width title)) = split title
  /\ concat (map (split_on " ") (_wrap_title getsize width title)) = split title.
Proof.
  destruct (wrap_title_groups getsize width title)
    as (groups & -> & Hcat & Hne & Hfit).
  pose proof (split_words title) as Hwords. rewrite <- Hcat in Hwords |- *.
  apply Forall_concat_words in Hwords.
  clear Hcat Hfit. split.
  - induction Hwords as [|ws groups Hws _ IH]; [reflexivity|].
    inversion Hne as [|? ? _ Hne']; subst. simpl.
    rewrite split_join by assumption.
    now rewrite IH.
  - induction Hwords as [|ws groups Hws _ IH]; [reflexivity|].
    inversion Hne as [|? ? Hws_ne Hne']; subst. simpl.
    rewrite split_on_join; [|assumption|now destruct ws].
    now rewrite IH.
Qed.

End LayoutClaims.

(** ** Runs of the publisher *)

Section UploadFacts.
Import Py PyStr World Bot.

Lemma paths_differ : path_jpg <> path_png.
Proof. discriminate. Qed.

Lemma cleanup_run (d : Database.t) (F : gset string) :
  (remove path_png ;;; remove path_jpg)
    {| db := d; files := {[path_jpg]} ∪ ({[path_png]} ∪ F) |}
  = (Ok tt,
     {| db := d;
        files := ({[path_jpg]} ∪ ({[path_png]} ∪ F)) ∖ {[path_png]} ∖ {[path_jpg]} |},
     [Remove path_png; Remove path_jpg]).
Proof.
  pose proof paths_differ as Hdiff.
  unfold bind, remove. cbn [files db].
  rewrite decide_True by set_solver. cbn [files db].
  rewrite decide_True by set_solver. reflexivity.
Qed.

(** [upload] once both files are written, by cases on what imgur
    answers. *)
Lemma upload_run (e : env) (self : RedditImage.t) (config : imgur_config) (st : state) :
  image_save e (RedditImage._image self) path_png = Written ->
  image_save e (RedditImage._image self) path_jpg = Written ->
  upload e self config st =
  match upload_from_path e path_png config with
  | Ok link =>
      (Ok (Some link), after_upload st,
       [Save path_png; Save path_jpg; Upload path_png;
        Remove path_png; Remove path_jpg])
  | Raise err =>
      if is_ImgurClientError err then
        match upload_from_path e path_jpg config with
        | Ok link =>
            (Ok (Some link), after_upload st,
             [Save path_png; Save path_jpg; Upload path_png; Upload path_jpg;
              Remove path_png; Remove path_jpg])
        | Raise err' =>
            (if is_ImgurClientError err' then Ok None else Raise err',
             after_upload st,
             [Save path_png; Save path_jpg; Upload path_png; Upload path_jpg;
              Remove path_png; Remove path_jpg])
        end
      else
        (Raise err, after_upload st,
         [Save path_png; Save path_jpg; Upload path_png;
          Remove path_png; Remove path_jpg])
  end.
Proof.
  intros Hpng Hjpg. unfold upload, after_upload.
  set (cleanup := (remove path_png ;;; remove path_jpg)).
  unfold bind at 1 2. unfold save. rewrite Hpng. cbn [db files]. rewrite Hjpg.
  cbn [db files].
  unfold try_finally, try_except, bind, imgur_upload, ret.
  destruct (upload_from_path e path_png config) as [link|err].
  - subst cleanup. rewrite cleanup_run. reflexivity.
  - destruct (is_ImgurClientError err).
    + destruct (upload_from_path e path_jpg config) as [link|err'].
      * subst cleanup. rewrite cleanup_run. reflexivity.
      * destruct (is_ImgurClientError err');
          subst cleanup; rewrite cleanup_run; reflexivity.
    + subst cleanup. rewrite cleanup_run. reflexivity.
Qed.

(** [upload] when the first save fails: the exception leaves [upload]
    before the [try], and nothing is removed. *)
Lemma upload_png_unsaved (e : env) (self : RedditImage.t) (config : imgur_config)
      (st : state) (err : exn) (left_behind : bool) :
  image_save e (RedditImage._image self) path_png = NotWritten err left_behind ->
  upload e self config st
  = (Raise err,
     {| db := db st;
        files := if left_behind then {[path_png]} ∪ files st else files st |},
     [Save path_png]).
Proof. intros Hpng. unfold upload, bind at 1, save. now rewrite Hpng. Qed.

(** [upload] when the second save fails: [temp.png] is written and
    stays. *)
Lemma upload_jpg_unsaved (e : env) (self : RedditImage.t) (config : imgur_config)
      (st : state) (err : exn) (left_behind : bool) :
  image_save e (RedditImage._image self) path_png = Written ->
  image_save e (RedditImage._image self) path_jpg = NotWritten err left_behind ->
  upload e self config st
  = (Raise err,
     {| db := db st;
        files := if left_behind then {[path_jpg]} ∪ ({[path_png]} ∪ files st)
                 else {[path_png]} ∪ files st |},
     [Save path_png; Save path_jpg]).
Proof.
  intros Hpng Hjpg. unfold upload, bind at 1 2, save. rewrite Hpng. cbn [db files].
  now rewrite Hjpg.
Qed.


End UploadFacts.

(** ** The compositor, the publisher and the ledger *)

Section ServiceClaims.
Import Py PyStr World Bot.

(** C1. At the failing input: an image 600 wide and 100 high has a
    height below 500, yet [__init__] leaves it as it is and records
    [upscaled = False], because [image.size < (min_size, min_size)]
    compares the pairs lexicographically and 600 is not below 500. *)
Theorem init_keeps_wide_low_image :
  RedditImage.__init__ {| RedditImage.size := (600, 100); RedditImage.drawn := [] |}
  = Ok {| RedditImage._image :=
            {| RedditImage.size := (600, 100); RedditImage.drawn := [] |};
          RedditImage.upscaled := false;
          RedditImage._width := 600;
          RedditImage._height := 100;
          RedditImage._font_size := 37 |}.
Proof. vm_compute. reflexivity. Qed.

(** The images the guard does send to the resize: the smaller side
    comes out at 500, or at 501 when the binary64 product rounds up. *)
Example init_upscales_thumbnail :
  option_map (fun r => (RedditImage.size (RedditImage._image r), RedditImage.upscaled r))
    (match RedditImage.__init__ Demo.thumbnail with Ok r => Some r | Raise _ => None end)
  = Some ((750, 500), true).
Proof. vm_compute. reflexivity. Qed.

Example init_rounds_up :
  option_map (fun r => RedditImage.size (RedditImage._image r))
    (match RedditImage.__init__
             {| RedditImage.size := (15, 15); RedditImage.drawn := [] |}
     with Ok r => Some r | Raise _ => None end)
  = Some (501, 501).
Proof. vm_compute. reflexivity. Qed.

(** What the guard lets through, whatever the height: any image wider
    than 500. *)
Lemma init_keeps_any_wide_image (img : RedditImage.image) :
  500 < fst (RedditImage.size img) ->
  option_map RedditImage.upscaled
    (match RedditImage.__init__ img with Ok r => Some r | Raise _ => None end)
  = Some false.
Proof.
  intros Hwide. unfold RedditImage.__init__.
  destruct (RedditImage.size img) as [width height] eqn:Esize. cbn [fst] in Hwide.
  unfold RedditImage.tuple_lt, RedditImage.min_size. cbn [fst snd].
  replace (width <? 500) with false by (symmetry; apply Z.ltb_ge; lia).
  replace (width =? 500) with false by (symmetry; apply Z.eqb_neq; lia).
  reflexivity.
Qed.

Example regex_resolution_sub_example :
  RedditImage.regex_resolution_sub "Sunset over the lake [1920 x 1080]"
  = "Sunset over the lake".
Proof. reflexivity. Qed.

Example init_strip : RedditImage.__init__ Demo.strip = Ok Demo.tall.
Proof. reflexivity. Qed.




(** C9. [submission_set_retry] with [delete_message] true: without a
    message it raises [TypeError], which nothing in it catches, and
    commits nothing; with a message it returns, the row of the
    submission, if the table holds one, has its retry column at 1 and
    its other columns as they were, the message is gone from the
    messages table, so that [message_exists] answers false for it and a
    later [message_insert] of the same id succeeds as for a new
    message, and all of it is committed. *)
Theorem set_retry_and_forget_trigger (d : Database.t) (submission_id : string) :
  (fst (Database.submission_set_retry d submission_id true None)
   = Raise (TypeError "If delete_message is True, message must be set")
   /\ Database.committed
        (snd (Database.submission_set_retry d submission_id true None))
      = Database.committed d)
  /\ forall message_id : string,
      let after := Database.submission_set_retry d submission_id true (Some message_id) in
      fst after = Ok tt
      /\ Database.submission_select (snd after) submission_id
         = Database.set_retry 1 <$> Database.submission_select d submission_id
      /\ (forall row : Database.submission_row,
             Database.submission_select d submission_id = Some row ->
             exists flagged : Database.submission_row,
               Database.submission_select (snd after) submission_id = Some flagged
               /\ Database.row_retry flagged = 1
               /\ Database.row_imgur_url flagged = Database.row_imgur_url row
               /\ Database.row_author flagged = Database.row_author row
               /\ Database.row_title flagged = Database.row_title row
               /\ Database.row_url flagged = Database.row_url row)
      /\ Database.message_exists (snd after) message_id = false
      /\ (forall author subject body : string,
             fst (Database.message_insert (snd after) message_id author subject body)
             = Ok tt)
      /\ Database.committed (snd after) = Database.connection (snd after).
Proof.
  split; [split; reflexivity|].
  intros message_id. cbn.
  unfold Database.submission_select, Database.message_exists, Database.message_insert.
  cbn.
  split; [reflexivity|]. split; [apply lookup_alter_eq|]. split.
  { intros row Hrow. exists (Database.set_retry 1 row).
    rewrite lookup_alter_eq, Hrow. now repeat split. }
  rewrite lookup_delete_eq. now repeat split.
Qed.

Lemma set_retry_and_forget_trigger_witness :
  exists flagged : Database.submission_row,
    Database.submission_select
      (snd (Database.submission_set_retry (db Demo.seen) "t3_abc" true (Some "t1_xyz")))
      "t3_abc" = Some flagged
    /\ Database.row_retry flagged = 1
    /\ Database.row_imgur_url flagged = Database.row_imgur_url Demo.seen_row
    /\ Database.row_author flagged = Database.row_author Demo.seen_row
    /\ Database.row_title flagged = Database.row_title Demo.seen_row
    /\ Database.row_url flagged = Database.row_url Demo.seen_row.
Proof.
  apply (proj1 (proj2 (proj2 (proj2 (set_retry_and_forget_trigger (db Demo.seen) "t3_abc")
                                "t1_xyz")))
           Demo.seen_row).
  reflexivity.
Defined.

End ServiceClaims.

(** ** The submission processor *)

Section ProcessorClaims.
Import Py PyStr World Bot.

Lemma reply_text_rendered (url submission_id : string) (upscaled : bool) :
  reply_text url submission_id upscaled
  = Ok (rendered (upscaled_note upscaled) url submission_id).
Proof. reflexivity. Qed.

Lemma set_retry_for_run (submission : Submission) (source_comment : option Comment)
      (st : state) :
  set_retry_for submission source_comment st
  = (Ok tt, {| db := flagged (db st) submission source_comment; files := files st |}, []).
Proof. destruct source_comment; reflexivity. Qed.

Lemma flagged_select (d : Database.t) (submission : Submission)
      (source_comment : option Comment) :
  Database.submission_select (flagged d submission source_comment) (id submission)
  = Database.set_retry 1 <$> Database.submission_select d (id submission).
Proof.
  unfold flagged, Database.submission_select.
  destruct source_comment; cbn; apply lookup_alter_eq.
Qed.


(** [_reply_imgur_url] run by cases on what reddit answers. *)
Lemma reply_run (e : env) (link : string) (submission : Submission)
      (source_comment : option Comment) (upscaled : bool) (st : state) :
  let ev := reply_event submission source_comment
              (rendered (upscaled_note upscaled) link (id submission)) in
  _reply_imgur_url e link submission source_comment upscaled st =
  match reddit_reply e ev with
  | Ok _ =>
      (Ok true,
       {| db := Database.submission_clear_retry (db st) (id submission);
          files := files st |},
       [ev])
  | Raise err =>
      if is_Exception err then
        if is_APIException err
        then (Ok false,
              {| db := flagged (db st) submission source_comment; files := files st |},
              [ev])
        else (Ok false, st, [ev])
      else (Raise err, st, [ev])
  end.
Proof.
  intros ev. unfold _reply_imgur_url.
  rewrite reply_text_rendered. unfold bind at 1. unfold lift.
  fold ev. unfold bind at 1. unfold try_except, bind at 1, send_reply.
  destruct (reddit_reply e ev) as [[]|err]; [reflexivity|].
  destruct (is_Exception err); [|reflexivity].
  destruct (is_APIException err); [|reflexivity].
  unfold bind. rewrite set_retry_for_run. reflexivity.
Qed.

(** C3. A submission found in the ledger with a zero retry flag and
    processed without a source comment is skipped: the run returns
    right away, leaves the state as it found it (no second insert, no
    write at all) and makes no call (no download, layout, composition,
    upload or reply); unless the author or score check returned even
    earlier, the return is the skip branch after the ledger query. *)
Theorem seen_submission_is_skipped
        (e : env) (submission : Submission) (custom_title : option string)
        (st : state) (row : Database.submission_row) :
  Database.submission_select (db st) (id submission) = Some row ->
  Database.row_retry row = 0 ->
  _process_submission e submission None custom_title st
  = (Ok match author submission with
        | None => AuthorDeleted
        | Some _ =>
            if String.eqb (subreddit submission) "fakehistoryporn"
               && (score submission <? score_threshold)
            then ScoreBelowThreshold
            else AlreadyInDatabase
        end,
     st, []).
Proof.
  intros Hrow Hretry. unfold _process_submission.
  destruct (author submission) as [name|]; [|reflexivity].
  cbn [is_set negb]. rewrite andb_true_r.
  destruct (String.eqb (subreddit submission) "fakehistoryporn"
            && (score submission <? score_threshold)); [reflexivity|].
  unfold bind, read_db. rewrite Hrow.
  unfold Database.row_retry_is_zero. rewrite Hretry. reflexivity.
Qed.

Lemma seen_submission_is_skipped_witness :
  _process_submission (Demo.world Demo.picture Demo.accepts) Demo.post None None Demo.seen
  = (Ok AlreadyInDatabase, Demo.seen, []).
Proof.
  apply (seen_submission_is_skipped (Demo.world Demo.picture Demo.accepts)
           Demo.post None Demo.seen Demo.seen_row).
  - vm_compute. reflexivity.
  - reflexivity.
Defined.

(** Counterexample to C7 as worded: for an upscaled image the reply the
    template renders differs from the reply whose note is
    [(image was upscaled)] without a leading blank. *)
Lemma reply_note_has_leading_blank :
  reply_text Demo.link "t3_abc" true
  <> Ok (rendered (specified_note true) Demo.link "t3_abc").
Proof. vm_compute. discriminate. Qed.

(** *** Running a sequence *)

Lemma after_no_calls {A : Type} (run : result A * state * list event) :
  after_calls [] run = run.
Proof. now destruct run as [[r st] evs]. Qed.

Lemma after_calls_twice {A : Type} (evs1 evs2 : list event)
      (run : result A * state * list event) :
  after_calls evs1 (after_calls evs2 run) = after_calls (evs1 ++ evs2) run.
Proof. unfold after_calls. cbn. now rewrite app_assoc. Qed.

Lemma run_bind_ok {A B : Type} (m : M A) (k : A -> M B) (st st1 : state)
      (a : A) (evs1 : list event) :
  m st = (Ok a, st1, evs1) -> bind m k st = after_calls evs1 (k a st1).
Proof.
  intros H. unfold bind, after_calls. rewrite H.
  now destruct (k a st1) as [[r st2] evs2].
Qed.

Lemma run_bind_raise {A B : Type} (m : M A) (k : A -> M B) (st st1 : state)
      (err : exn) (evs1 : list event) :
  m st = (Raise err, st1, evs1) -> bind m k st = (Raise err, st1, evs1).
Proof. intros H. unfold bind. now rewrite H. Qed.

(** The two attempts at downloading the image. *)
Lemma download_run (e : env) (url : string) (st : state) :
  try_except (img <- fetch e url ;; ret (Some img)) is_OSError
    (fun _ =>
       try_except (img <- fetch e (url +:+ ".jpg") ;; ret (Some img)) is_OSError
         (fun _ => ret None)) st
  = match fetch_image e url with
    | Ok img => (Ok (Some img), st, [Get url])
    | Raise err =>
        if is_OSError err then
          match fetch_image e (url +:+ ".jpg") with
          | Ok img => (Ok (Some img), st, [Get url; Get (url +:+ ".jpg")])
          | Raise err' =>
              (if is_OSError err' then Ok None else Raise err', st,
               [Get url; Get (url +:+ ".jpg")])
          end
        else (Raise err, st, [Get url])
    end.
Proof.
  unfold try_except, bind, fetch, ret.
  destruct (fetch_image e url) as [img|err]; [reflexivity|].
  destruct (is_OSError err); [|reflexivity].
  destruct (fetch_image e (url +:+ ".jpg")) as [img|err']; [reflexivity|].
  now destruct (is_OSError err').
Qed.

Ltac early_exit := left; cbn; split; [reflexivity | discriminate].

(** The run from the rhyme check on, the ledger holding the submission. *)
Lemma accepted_submission_cases
      (e : env) (submission : Submission) (source_comment : option Comment)
      (custom_title : option string) (name : string) (st0 st : state)
      (run : result outcome * state * list event) :
  is_Some (Database.submission_select (db st) (id submission)) ->
  files st = files st0 ->
  run = (if is_boot submission && negb (is_set source_comment)
            && negb (existsb (fun t => contains t (lower (title submission))) triggers)
         then ret NotARhyme
         else
           if endswith (url submission) ".gif" || endswith (url submission) ".gifv"
           then ret AnimatedGif
           else
             fetched <- try_except
                          (img <- fetch e (url submission) ;; ret (Some img))
                          is_OSError
                          (fun _ =>
                             try_except
                               (img <- fetch e (url submission +:+ ".jpg") ;;
                                ret (Some img))
                               is_OSError
                               (fun _ => ret None)) ;;
             match fetched with
             | None => ret DownloadFailed
             | Some img =>
                 compose_and_publish e submission source_comment custom_title name img
             end) st ->
  (forallb is_get (events_of run) = true /\ result_of run <> Ok Processed)
  \/ exists (name : string) (img : RedditImage.image) (st1 : state) (gets : list event),
      forallb is_get gets = true
      /\ is_Some (Database.submission_select (db st1) (id submission))
      /\ files st1 = files st0
      /\ run = after_calls gets
                 (compose_and_publish e submission source_comment custom_title
                    name img st1).
Proof.
  intros Hrow Hfiles ->.
  destruct (is_boot submission && negb (is_set source_comment)
            && negb (existsb (fun t => contains t (lower (title submission))) triggers));
    [early_exit|].
  destruct (endswith (url submission) ".gif" || endswith (url submission) ".gifv");
    [early_exit|].
  pose proof (download_run e (url submission) st) as Hdl.
  destruct (fetch_image e (url submission)) as [img|err].
  - rewrite (run_bind_ok _ _ _ _ _ _ Hdl).
    right. exists name, img, st, [Get (url submission)]. auto.
  - destruct (is_OSError err).
    + destruct (fetch_image e (url submission +:+ ".jpg")) as [img|err'].
      * rewrite (run_bind_ok _ _ _ _ _ _ Hdl).
        right. exists name, img, st, [Get (url submission); Get (url submission +:+ ".jpg")].
        auto.
      * destruct (is_OSError err').
        -- rewrite (run_bind_ok _ _ _ _ _ _ Hdl). early_exit.
        -- rewrite (run_bind_raise _ _ _ _ _ _ Hdl). early_exit.
    + rewrite (run_bind_raise _ _ _ _ _ _ Hdl). early_exit.
Qed.

(** A run of [_process_submission] either ends before the image is
    composed, having made downloads only, or continues with
    [compose_and_publish] on a state whose ledger holds the submission. *)
Lemma process_submission_cases
      (e : env) (submission : Submission) (source_comment : option Comment)
      (custom_title : option string) (st : state) :
  (forallb is_get
     (events_of (_process_submission e submission source_comment custom_title st)) = true
   /\ result_of (_process_submission e submission source_comment custom_title st)
      <> Ok Processed)
  \/ exists (name : string) (img : RedditImage.image) (st1 : state) (gets : list event),
      forallb is_get gets = true
      /\ is_Some (Database.submission_select (db st1) (id submission))
      /\ files st1 = files st
      /\ _process_submission e submission source_comment custom_title st
         = after_calls gets
             (compose_and_publish e submission source_comment custom_title name img st1).
Proof.
  remember (_process_submission e submission source_comment custom_title st)
    as run eqn:Erun.
  unfold _process_submission in Erun.
  destruct (author submission) as [name|]; [|subst run; early_exit].
  destruct (String.eqb (subreddit submission) "fakehistoryporn"
            && negb (is_set source_comment)
            && (score submission <? score_threshold)); [subst run; early_exit|].
  rewrite (run_bind_ok _ _ st st
             (Database.submission_select (db st) (id submission)) [] eq_refl),
    after_no_calls in Erun.
  destruct (Database.submission_select (db st) (id submission)) as [row|] eqn:Esel.
  - destruct (negb (negb (Database.row_retry_is_zero row) || is_set source_comment));
      [subst run; early_exit|].
    rewrite (run_bind_ok _ _ st st tt [] eq_refl), after_no_calls in Erun.
    apply (accepted_submission_cases e submission source_comment custom_title
             name st st run); [now rewrite Esel | reflexivity | exact Erun].
  - cbn [negb] in Erun.
    unfold Database.submission_select in Esel.
    set (st1 := {| db := snd (Database.submission_insert (db st) (id submission) name
                                (title submission) (url submission));
                   files := files st |}).
    assert (Hins : with_db (fun d => Database.submission_insert d (id submission) name
                                       (title submission) (url submission)) st
                   = (Ok tt, st1, [])).
    { unfold with_db, st1, Database.submission_insert. now rewrite Esel. }
    rewrite (run_bind_ok _ _ _ _ _ _ Hins), after_no_calls in Erun.
    apply (accepted_submission_cases e submission source_comment custom_title
             name st st1 run); [|reflexivity|exact Erun].
    unfold st1, Database.submission_insert, Database.submission_select.
    rewrite Esel. cbn. now rewrite lookup_insert_eq.
Qed.

(** *** Runs of [compose_and_publish] *)

Lemma imgur_title_run (title name : string) :
  format imgur_title_template [title; name] []
  = Ok (dquote +:+ title +:+ dquote +:+ " by /u/" +:+ name).
Proof.
  transitivity (Ok (dquote +:+ title +:+ dquote +:+ " by /u/" +:+ name +:+ EmptyString));
    [reflexivity | now rewrite append_empty_r].
Qed.

(** The upload as [_process_submission] guards it. *)
Lemma guarded_upload_run (e : env) (submission : Submission)
      (source_comment : option Comment) (image : RedditImage.t)
      (config : imgur_config) (st : state) :
  try_except (imgur_url <- upload e image config ;; ret (Some imgur_url))
    is_ImgurClientRateLimitError
    (fun _ => set_retry_for submission source_comment ;;; ret None) st
  = match upload e image config st with
    | (Ok imgur_url, st1, evs) => (Ok (Some imgur_url), st1, evs)
    | (Raise err, st1, evs) =>
        if is_ImgurClientRateLimitError err
        then (Ok None,
              {| db := flagged (db st1) submission source_comment; files := files st1 |},
              evs)
        else (Raise err, st1, evs)
    end.
Proof.
  unfold try_except, bind at 1.
  destruct (upload e image config st) as [[[imgur_url|err] st1] evs].
  - cbn. now rewrite app_nil_r.
  - destruct (is_ImgurClientRateLimitError err); [|reflexivity].
    unfold bind. rewrite set_retry_for_run. cbn. now rewrite app_nil_r.
Qed.

(** What the guarded upload gives when a save fails: the handler of the
    rate-limit error takes whatever exception of that class leaves
    [upload], and no upload was attempted. *)
Lemma guarded_unsaved_run (e : env) (submission : Submission)
      (source_comment : option Comment) (image : RedditImage.t)
      (config : imgur_config) (st : state) :
  image_save e (RedditImage._image image) path_png <> Written
  \/ image_save e (RedditImage._image image) path_jpg <> Written ->
  exists (r : result (option (option string))) (st1 : state) (evs : list event),
    try_except (imgur_url <- upload e image config ;; ret (Some imgur_url))
      is_ImgurClientRateLimitError
      (fun _ => set_retry_for submission source_comment ;;; ret None) st
    = (r, st1, evs)
    /\ (r = Ok None \/ exists err, r = Raise err)
    /\ forallb (fun ev => match ev with Save _ => true | _ => false end) evs = true.
Proof.
  intros Hunsaved. rewrite guarded_upload_run.
  destruct (image_save e (RedditImage._image image) path_png) as [|err left_behind]
    eqn:Hpng.
  - destruct (image_save e (RedditImage._image image) path_jpg) as [|err left_behind]
      eqn:Hjpg; [destruct Hunsaved as [H|H]; now contradiction H|].
    rewrite (upload_jpg_unsaved _ _ _ _ _ _ Hpng Hjpg).
    destruct (is_ImgurClientRateLimitError err); eauto 10.
  - rewrite (upload_png_unsaved _ _ _ _ _ _ Hpng).
    destruct (is_ImgurClientRateLimitError err); eauto 10.
Qed.



(** A run of [compose_and_publish] that ends at the last line replied
    last, with the template rendered for the link imgur gave and the
    note of the image it was given. *)
Lemma publish_processed
      (e : env) (submission : Submission) (source_comment : option Comment)
      (custom_title : option string) (name : string) (img : RedditImage.image)
      (st : state) :
  result_of (compose_and_publish e submission source_comment custom_title name img st)
  = Ok Processed ->
  exists (image : RedditImage.t) (link : string) (before : list event),
    RedditImage.__init__ img = Ok image
    /\ uploaded_to e (imgur_config_of submission name) link
    /\ forallb (fun ev => negb (is_reply ev)) before = true
    /\ events_of (compose_and_publish e submission source_comment custom_title
                    name img st)
       = before ++ [reply_event submission source_comment
                      (rendered (upscaled_note (RedditImage.upscaled image))
                         link (id submission))].
Proof.
  unfold compose_and_publish.
  destruct (RedditImage.__init__ img) as [image|err]; [|discriminate].
  rewrite (run_bind_ok _ _ st st image [] eq_refl), after_no_calls.
  rewrite (run_bind_ok _ _ st st tt _ eq_refl).
  rewrite imgur_title_run.
  rewrite (run_bind_ok _ _ st st _ [] eq_refl), after_no_calls.
  change {| config_album := None; config_name := id submission;
            config_title := dquote +:+ title submission +:+ dquote +:+ " by /u/" +:+ name;
            config_description := shortlink submission |}
    with (imgur_config_of submission name).
  set (config := imgur_config_of submission name).
  set (titled := RedditImage.add_title _ image _ _).
  set (composed := AddTitle (title_to_add submission custom_title) (is_boot submission)).
  pose proof (guarded_upload_run e submission source_comment titled config st) as Hup.
  match goal with
  | |- context [bind (try_except ?m ?c ?h) ?k st] => set (rest := k)
  end.
  assert (Hlinked : forall link evs,
    forallb (fun ev => negb (is_reply ev)) evs = true ->
    uploaded_to e config link ->
    result_of (after_calls evs (rest (Some (Some link)) (after_upload st)))
    = Ok Processed ->
    exists (image0 : RedditImage.t) (link0 : string) (before : list event),
      Ok image = Ok image0
      /\ uploaded_to e config link0
      /\ forallb (fun ev => negb (is_reply ev)) before = true
      /\ events_of (after_calls evs (rest (Some (Some link)) (after_upload st)))
         = before ++ [reply_event submission source_comment
                        (rendered (upscaled_note (RedditImage.upscaled image0))
                           link0 (id submission))]).
  { intros link evs Hevs Hlink. subst rest. cbv beta iota.
    destruct (truthy link) eqn:Etruthy; cbn [negb]; [|discriminate].
    rewrite (run_bind_ok _ _ (after_upload st) _ tt [] eq_refl), after_no_calls.
    pose proof (reply_run e link submission source_comment
                  (RedditImage.upscaled titled)
                  {| db := Database.submission_set_imgur_url (db (after_upload st))
                             (id submission) link;
                     files := files (after_upload st) |}) as Hreply.
    cbv zeta in Hreply.
    destruct (reddit_reply e _) as [[]|err].
    - rewrite (run_bind_ok _ _ _ _ _ _ Hreply). intros _.
      exists image, link, evs.
      split; [reflexivity|]. split; [exact Hlink|]. split; [exact Hevs|].
      reflexivity.
    - destruct (is_Exception err).
      + destruct (is_APIException err);
          rewrite (run_bind_ok _ _ _ _ _ _ Hreply); discriminate.
      + rewrite (run_bind_raise _ _ _ _ _ _ Hreply). discriminate. }
  destruct (image_save e (RedditImage._image titled) path_png) as [|serr left_behind]
    eqn:Hpng;
    [destruct (image_save e (RedditImage._image titled) path_jpg) as [|serr left_behind]
       eqn:Hjpg|].
  2,3: destruct (guarded_unsaved_run e submission source_comment titled config st)
         as (r & st1 & evs & Hrun & [-> | [err' ->]] & _);
         [first [right; congruence | left; congruence]
         | rewrite (run_bind_ok _ _ _ _ _ _ Hrun); discriminate
         | rewrite (run_bind_raise _ _ _ _ _ _ Hrun); discriminate].
  rewrite (upload_run _ _ _ _ Hpng Hjpg) in Hup.
  destruct (upload_from_path e path_png config) as [link|err] eqn:Eup_png.
  - rewrite (run_bind_ok _ _ _ _ _ _ Hup), after_calls_twice.
    apply Hlinked; [reflexivity | now left].
  - destruct (is_ImgurClientError err) eqn:Eerr.
    + destruct (upload_from_path e path_jpg config) as [link|err'] eqn:Eup_jpg.
      * rewrite (run_bind_ok _ _ _ _ _ _ Hup), after_calls_twice.
        apply Hlinked; [reflexivity | right; now exists err].
      * destruct (is_ImgurClientError err').
        -- rewrite (run_bind_ok _ _ _ _ _ _ Hup). discriminate.
        -- destruct (is_ImgurClientRateLimitError err').
           ++ rewrite (run_bind_ok _ _ _ _ _ _ Hup). discriminate.
           ++ rewrite (run_bind_raise _ _ _ _ _ _ Hup). discriminate.
    + destruct (is_ImgurClientRateLimitError err).
      * rewrite (run_bind_ok _ _ _ _ _ _ Hup). discriminate.
      * rewrite (run_bind_raise _ _ _ _ _ _ Hup). discriminate.
Qed.

Lemma get_is_no_reply (evs : list event) :
  forallb is_get evs = true -> forallb (fun ev => negb (is_reply ev)) evs = true.
Proof.
  intros H. apply forallb_forall. intros ev Hin.
  apply (proj1 (forallb_forall _ _) H) in Hin. now destruct ev.
Qed.




(** The run from the rhyme check on, when it ends at the last line:
    the image composed is the one the download gave. *)
Lemma accepted_processed_trace
      (e : env) (submission : Submission) (source_comment : option Comment)
      (custom_title : option string) (name : string) (st : state)
      (run : result outcome * state * list event) :
  run = (if is_boot submission && negb (is_set source_comment)
            && negb (existsb (fun t => contains t (lower (title submission))) triggers)
         then ret NotARhyme
         else
           if endswith (url submission) ".gif" || endswith (url submission) ".gifv"
           then ret AnimatedGif
           else
             fetched <- try_except
                          (img <- fetch e (url submission) ;; ret (Some img))
                          is_OSError
                          (fun _ =>
                             try_except
                               (img <- fetch e (url submission +:+ ".jpg") ;;
                                ret (Some img))
                               is_OSError
                               (fun _ => ret None)) ;;
             match fetched with
             | None => ret DownloadFailed
             | Some img =>
                 compose_and_publish e submission source_comment custom_title name img
             end) st ->
  result_of run = Ok Processed ->
  exists (img : RedditImage.image) (gets : list event),
    downloaded e submission img
    /\ forallb is_get gets = true
    /\ run = after_calls gets
               (compose_and_publish e submission source_comment custom_title
                  name img st).
Proof.
  intros ->.
  destruct (is_boot submission && negb (is_set source_comment)
            && negb (existsb (fun t => contains t (lower (title submission))) triggers));
    [discriminate|].
  destruct (endswith (url submission) ".gif" || endswith (url submission) ".gifv");
    [discriminate|].
  pose proof (download_run e (url submission) st) as Hdl.
  destruct (fetch_image e (url submission)) as [img|err] eqn:Efirst.
  - rewrite (run_bind_ok _ _ _ _ _ _ Hdl). intros _.
    exists img, [Get (url submission)]. split; [now left|]. now split.
  - destruct (is_OSError err) eqn:Eerr.
    + destruct (fetch_image e (url submission +:+ ".jpg")) as [img|err'] eqn:Esecond.
      * rewrite (run_bind_ok _ _ _ _ _ _ Hdl). intros _.
        exists img, [Get (url submission); Get (url submission +:+ ".jpg")].
        split; [right; now exists err|]. now split.
      * destruct (is_OSError err').
        -- rewrite (run_bind_ok _ _ _ _ _ _ Hdl). discriminate.
        -- rewrite (run_bind_raise _ _ _ _ _ _ Hdl). discriminate.
    + rewrite (run_bind_raise _ _ _ _ _ _ Hdl). discriminate.
Qed.

(** A run of [_process_submission] that ends at the last line composed
    the image the download gave, for the author of the submission. *)
Lemma processed_trace
      (e : env) (submission : Submission) (source_comment : option Comment)
      (custom_title : option string) (st : state) :
  result_of (_process_submission e submission source_comment custom_title st)
  = Ok Processed ->
  exists (name : string) (img : RedditImage.image) (st1 : state) (gets : list event),
    author submission = Some name
    /\ downloaded e submission img
    /\ forallb is_get gets = true
    /\ _process_submission e submission source_comment custom_title st
       = after_calls gets
           (compose_and_publish e submission source_comment custom_title name img st1).
Proof.
  remember (_process_submission e submission source_comment custom_title st)
    as run eqn:Erun.
  unfold _process_submission in Erun.
  destruct (author submission) as [name|]; [|subst run; discriminate].
  destruct (String.eqb (subreddit submission) "fakehistoryporn"
            && negb (is_set source_comment)
            && (score submission <? score_threshold)); [subst run; discriminate|].
  rewrite (run_bind_ok _ _ st st
             (Database.submission_select (db st) (id submission)) [] eq_refl),
    after_no_calls in Erun.
  destruct (Database.submission_select (db st) (id submission)) as [row|] eqn:Esel.
  - destruct (negb (negb (Database.row_retry_is_zero row) || is_set source_comment));
      [subst run; discriminate|].
    rewrite (run_bind_ok _ _ st st tt [] eq_refl), after_no_calls in Erun.
    intros Hdone.
    destruct (accepted_processed_trace e submission source_comment custom_title
                name st run Erun Hdone) as (img & gets & Himg & Hgets & Hrun).
    now exists name, img, st, gets.
  - cbn [negb] in Erun.
    unfold Database.submission_select in Esel.
    set (st1 := {| db := snd (Database.submission_insert (db st) (id submission) name
                                (title submission) (url submission));
                   files := files st |}).
    assert (Hins : with_db (fun d => Database.submission_insert d (id submission) name
                                       (title submission) (url submission)) st
                   = (Ok tt, st1, [])).
    { unfold with_db, st1, Database.submission_insert. now rewrite Esel. }
    rewrite (run_bind_ok _ _ _ _ _ _ Hins), after_no_calls in Erun.
    intros Hdone.
    destruct (accepted_processed_trace e submission source_comment custom_title
                name st1 run Erun Hdone) as (img & gets & Himg & Hgets & Hrun).
    now exists name, img, st1, gets.
Qed.

(** C7, amended. The reply is the template rendered with the url of
    the image, the id of the submission and, for [{upscaled}], the
    note [ (image was upscaled)] with its leading blank followed by two
    newlines when the image was upscaled, nothing otherwise. A run that
    ends at the last line of [_process_submission] posted that text as
    its last call and posted no other reply: the url is the link imgur
    answered to the upload of this run (to the PNG, or after an
    [ImgurClientError] to the JPG) under the [imgur_config] of the
    submission, and the note is that of the image this run downloaded,
    as [RedditImage] upscaled it or not. *)
Theorem reply_renders_template
        (e : env) (submission : Submission) (source_comment : option Comment)
        (custom_title : option string) (st : state) :
  (forall (url : string) (upscaled : bool),
      reply_text url (id submission) upscaled
      = Ok (rendered
              (if upscaled then " (image was upscaled)" +:+ nl +:+ nl else EmptyString)
              url (id submission)))
  /\ (result_of (_process_submission e submission source_comment custom_title st)
      = Ok Processed ->
      exists (name : string) (img : RedditImage.image) (image : RedditImage.t)
             (link : string) (before : list event),
        author submission = Some name
        /\ downloaded e submission img
        /\ RedditImage.__init__ img = Ok image
        /\ uploaded_to e (imgur_config_of submission name) link
        /\ forallb (fun ev => negb (is_reply ev)) before = true
        /\ events_of (_process_submission e submission source_comment custom_title st)
           = before ++
             [reply_event submission source_comment
                (rendered
                   (if RedditImage.upscaled image
                    then " (image was upscaled)" +:+ nl +:+ nl else EmptyString)
                   link (id submission))]).
Proof.
  split; [intros url upscaled; apply reply_text_rendered|].
  intros Hdone.
  destruct (processed_trace e submission source_comment custom_title st Hdone)
    as (name & img & st1 & gets & Hname & Himg & Hgets & Erun).
  rewrite Erun in Hdone |- *. clear Erun.
  cbn [after_calls result_of fst] in Hdone.
  apply publish_processed
    in Hdone as (image & link & before & Hinit & Hlink & Hbefore & Hevs).
  exists name, img, image, link, (gets ++ before).
  repeat (split; [assumption|]). split.
  - now rewrite forallb_app, (get_is_no_reply _ Hgets).
  - unfold after_calls, events_of at 1. cbn [snd].
    rewrite Hevs. now rewrite app_assoc.
Qed.

Lemma reply_renders_template_witness :
  exists (name : string) (img : RedditImage.image) (image : RedditImage.t)
         (link : string) (before : list event),
    author Demo.post = Some name
    /\ downloaded (Demo.world Demo.thumbnail Demo.accepts) Demo.post img
    /\ RedditImage.__init__ img = Ok image
    /\ uploaded_to (Demo.world Demo.thumbnail Demo.accepts)
         (imgur_config_of Demo.post name) link
    /\ forallb (fun ev => negb (is_reply ev)) before = true
    /\ events_of (_process_submission (Demo.world Demo.thumbnail Demo.accepts)
                    Demo.post None None Demo.fresh)
       = before ++
         [reply_event Demo.post None
            (rendered
               (if RedditImage.upscaled image
                then " (image was upscaled)" +:+ nl +:+ nl else EmptyString)
               link (id Demo.post))].
Proof.
  apply (reply_renders_template (Demo.world Demo.thumbnail Demo.accepts)
           Demo.post None None Demo.fresh).
  vm_compute. reflexivity.
Defined.

(** The reply of the run on the thumbnail, written out: the note of an
    upscaled image and the link imgur gave. *)
Example reply_to_thumbnail :
  last (events_of (_process_submission (Demo.world Demo.thumbnail Demo.accepts)
                     Demo.post None None Demo.fresh))
  = Some (ReplyToSubmission "t3_abc"
            (rendered (" (image was upscaled)" +:+ nl +:+ nl) Demo.link "t3_abc")).
Proof. vm_compute. reflexivity. Qed.

End ProcessorClaims.

(** ** More about the compositor *)

Section CompositorFacts.
Import Py PyStr Layout RedditImage Measures.

(** An image at least 500 wide and 500 high is taken as it is: the
    same image, its own size, [upscaled] false, the font sized to a
    sixteenth of the width. *)
Theorem init_keeps_large_image (img : image) :
  500 <= fst (size img) -> 500 <= snd (size img) ->
  __init__ img
  = Ok {| _image := img;
          upscaled := false;
          _width := fst (size img);
          _height := snd (size img);
          _font_size := fst (size img) / 16 |}.
Proof.
  intros Hw Hh. unfold __init__.
  destruct (size img) as [width height]. cbn [fst snd] in *.
  unfold tuple_lt, min_size. cbn [fst snd].
  replace (width <? 500) with false by (symmetry; apply Z.ltb_ge; lia).
  replace (height <? 500) with false by (symmetry; apply Z.ltb_ge; lia).
  now rewrite andb_false_r.
Qed.

Lemma init_keeps_large_image_witness :
  __init__ Demo.picture
  = Ok {| _image := Demo.picture;
          upscaled := false;
          _width := 800;
          _height := 600;
          _font_size := 50 |}.
Proof.
  apply (init_keeps_large_image Demo.picture); cbn; lia.
Defined.

Lemma scaled_side_table :
  forallb scaled_side_hits (upto 499) = true.
Proof. vm_compute. reflexivity. Qed.

Lemma scaled_side_small (side : Z) :
  1 <= side <= 499 -> scaled_side side = Ok 500 \/ scaled_side side = Ok 501.
Proof.
  intros Hside.
  assert (Hin : In side (upto 499)).
  { unfold upto. apply in_map_iff. exists (Z.to_nat side - 1)%nat. split; [lia|].
    apply in_seq. lia. }
  pose proof (proj1 (forallb_forall _ _) scaled_side_table side Hin) as Hhit.
  unfold scaled_side_hits in Hhit.
  destruct (scaled_side side) as [n|]; [|discriminate].
  apply orb_true_iff in Hhit as [H|H]; apply Z.eqb_eq in H; subst; auto.
Qed.

(** When [__init__] resizes an image whose sides are positive, the side
    it divides by, the smaller one, comes out at 500 or, where the
    binary64 product rounds up, at 501; the result is marked upscaled
    and its recorded width and height are those of the resized image. *)
Theorem init_scales_smaller_side (img : image) (r : t) :
  1 <= fst (size img) -> 1 <= snd (size img) ->
  fst (size img) < 500 \/ (fst (size img) = 500 /\ snd (size img) < 500) ->
  __init__ img = Ok r ->
  upscaled r = true
  /\ size (_image r) = (_width r, _height r)
  /\ let smaller := if fst (size img) <? snd (size img) then _width r else _height r in
     smaller = 500 \/ smaller = 501.
Proof.
  intros Hw Hh Hsmall. unfold __init__.
  destruct (size img) as [width height]. cbn [fst snd] in *.
  assert (Hguard : tuple_lt (width, height) (min_size, min_size) = true).
  { unfold tuple_lt, min_size. cbn [fst snd].
    destruct Hsmall as [H|[-> H]].
    - apply orb_true_iff. left. now apply Z.ltb_lt.
    - apply orb_true_iff. right. rewrite Z.eqb_refl. now apply Z.ltb_lt. }
  rewrite Hguard.
  destruct (width <? height) eqn:Elt.
  - apply Z.ltb_lt in Elt.
    assert (Hside : 1 <= width <= 499) by (destruct Hsmall; lia).
    pose proof (scaled_side_small width Hside) as Hscaled. unfold scaled_side in Hscaled.
    destruct (Float64.true_div min_size width) as [factor|]; cbn [rbind] in *;
      [|destruct Hscaled; discriminate].
    destruct (Float64.ceil (Float64.mul_int width factor)) as [new_width|];
      cbn [rbind]; [|discriminate].
    destruct (Float64.ceil (Float64.mul_int height factor)) as [new_height|];
      cbn [rbind]; [|discriminate].
    intros [= <-]. cbn.
    repeat split. destruct Hscaled as [[= ->]|[= ->]]; auto.
  - apply Z.ltb_ge in Elt.
    assert (Hside : 1 <= height <= 499) by (destruct Hsmall; lia).
    pose proof (scaled_side_small height Hside) as Hscaled. unfold scaled_side in Hscaled.
    destruct (Float64.true_div min_size height) as [factor|]; cbn [rbind] in *;
      [|destruct Hscaled; discriminate].
    destruct (Float64.ceil (Float64.mul_int width factor)) as [new_width|];
      cbn [rbind]; [|discriminate].
    destruct (Float64.ceil (Float64.mul_int height factor)) as [new_height|];
      cbn [rbind] in *; [|destruct Hscaled; discriminate].
    intros [= <-]. cbn.
    repeat split. destruct Hscaled as [[= ->]|[= ->]]; auto.
Qed.

Lemma init_scales_smaller_side_witness :
  let r := {| _image := {| size := (750, 500); drawn := [] |};
              upscaled := true; _width := 750; _height := 500; _font_size := 46 |} in
  __init__ Demo.thumbnail = Ok r
  /\ upscaled r = true
  /\ size (_image r) = (_width r, _height r)
  /\ (_height r = 500 \/ _height r = 501).
Proof.
  intros r.
  assert (Hrun : __init__ Demo.thumbnail = Ok r) by (vm_compute; reflexivity).
  split; [exact Hrun|].
  apply (init_scales_smaller_side Demo.thumbnail r); cbn; try lia.
  exact Hrun.
Defined.

(** *** [regex_resolution.sub] *)

Lemma bracketed_needs_bracket (s : string) :
  match s with String c _ => Ascii.eqb "[" c | EmptyString => false end = false ->
  bracketed s = None.
Proof.
  intros H. unfold bracketed, expect.
  destruct s as [|c rest]; [reflexivity|]. now rewrite H.
Qed.

Lemma sub_from_all (s : string) (n : nat) :
  (len s <= n)%nat -> sub_from n s = EmptyString.
Proof.
  revert n. induction s as [|c s IH]; intros n Hn; [reflexivity|].
  cbn [len String.length] in Hn. destruct n as [|k]; [lia|].
  cbn [sub_from]. apply IH. unfold len. lia.
Qed.

Lemma sub_from_match (c : ascii) (rest remaining : string) :
  match_resolution (String c rest) = Some remaining ->
  sub_from O (String c rest) = sub_from (len rest - len remaining) rest.
Proof. intros H. cbn [sub_from]. now rewrite H. Qed.

(** Nothing matches inside a text without an opening bracket, also
    when a blank follows it. *)
Lemma sub_from_plain (title tail : string) :
  has_char "[" title = false ->
  match tail with String c _ => Ascii.eqb "[" c | EmptyString => false end = false ->
  sub_from O (title +:+ tail) = title +:+ sub_from O tail.
Proof.
  intros Htitle Htail. induction title as [|c title IH]; [reflexivity|].
  cbn [has_char] in Htitle. apply orb_false_iff in Htitle as [Hc Htitle].
  rewrite !append_cons. cbn [sub_from].
  assert (Hnone : match_resolution (String c (title +:+ tail)) = None).
  { unfold match_resolution.
    assert (Hhere : bracketed (String c (title +:+ tail)) = None).
    { apply bracketed_needs_bracket. now rewrite Ascii.eqb_sym. }
    destruct (isspace c); [|exact Hhere].
    apply bracketed_needs_bracket.
    destruct title as [|c' title'].
    - exact Htail.
    - rewrite append_cons. cbn [has_char] in Htitle.
      apply orb_false_iff in Htitle as [Hc' _]. now rewrite Ascii.eqb_sym. }
  rewrite Hnone. now rewrite IH.
Qed.

Lemma times_is_no_digit (c : ascii) : is_times c = true -> is_digit c = false.
Proof.
  unfold is_times. intros H.
  repeat (apply orb_true_iff in H as [H|H]);
    try (apply Ascii.eqb_eq in H; subst; reflexivity).
  apply N.eqb_eq in H. unfold is_digit. rewrite H. reflexivity.
Qed.

Lemma times_is_no_space (c : ascii) : is_times c = true -> isspace c = false.
Proof.
  unfold is_times. intros H.
  repeat (apply orb_true_iff in H as [H|H]);
    try (apply Ascii.eqb_eq in H; subst; reflexivity).
  apply N.eqb_eq in H. unfold isspace. rewrite H. reflexivity.
Qed.

Lemma digit_is_no_space (c : ascii) : is_digit c = true -> isspace c = false.
Proof.
  unfold is_digit, isspace. intros H. apply andb_true_iff in H as [Hlo Hhi].
  apply N.leb_le in Hlo, Hhi.
  repeat match goal with
         | |- context [(?a <=? ?b)%N] => destruct (N.leb_spec a b)
         | |- context [(?a =? ?b)%N] => destruct (N.eqb_spec a b)
         end; try reflexivity; lia.
Qed.

Lemma skip_digits_run (w rest : string) :
  all_digits w = true -> starts_without_digit rest = true ->
  skip_digits (w +:+ rest) = rest.
Proof.
  intros Hw Hrest. induction w as [|c w IH].
  - rewrite append_nil_l. destruct rest as [|c rest]; [reflexivity|].
    cbn [starts_without_digit] in Hrest. apply negb_true_iff in Hrest.
    cbn [skip_digits]. now rewrite Hrest.
  - cbn [all_digits] in Hw. apply andb_true_iff in Hw as [Hc Hw].
    rewrite append_cons. cbn [skip_digits]. rewrite Hc. now apply IH.
Qed.

Lemma digits_run (w rest : string) :
  all_digits w = true -> truthy w = true -> starts_without_digit rest = true ->
  digits (w +:+ rest) = Some rest.
Proof.
  intros Hw Hne Hrest. destruct w as [|c w]; [discriminate|].
  cbn [all_digits] in Hw. apply andb_true_iff in Hw as [Hc Hw].
  rewrite append_cons. cbn [digits]. rewrite Hc. f_equal.
  now apply skip_digits_run.
Qed.

Lemma pad_false (s : string) : pad false +:+ s = s.
Proof. reflexivity. Qed.

Lemma bracketed_resolution (w h : string) (sep : ascii) (before after : bool) :
  all_digits w = true -> truthy w = true ->
  all_digits h = true -> truthy h = true ->
  is_times sep = true ->
  bracketed (String "[" (w +:+ pad before +:+ String sep (pad after +:+ h +:+ "]")))
  = Some EmptyString.
Proof.
  intros Hw Hwne Hh Hhne Hsep.
  pose proof (times_is_no_digit sep Hsep) as Hsep_digit.
  pose proof (times_is_no_space sep Hsep) as Hsep_space.
  unfold bracketed. cbn [expect]. rewrite Ascii.eqb_refl. cbn [mbind option_bind].
  rewrite digits_run; [|assumption|assumption|].
  2:{ destruct before; [reflexivity|].
      rewrite pad_false. cbn [starts_without_digit]. now rewrite Hsep_digit. }
  cbn [mbind option_bind].
  assert (Hsp1 : optional_space (pad before +:+ String sep (pad after +:+ h +:+ "]"))
                 = String sep (pad after +:+ h +:+ "]")).
  { destruct before; [reflexivity|].
    rewrite pad_false. cbn [optional_space]. now rewrite Hsep_space. }
  rewrite Hsp1. cbn [expect]. rewrite Hsep. cbn [mbind option_bind].
  assert (Hsp2 : optional_space (pad after +:+ h +:+ "]") = h +:+ "]").
  { destruct after; [reflexivity|]. rewrite pad_false.
    destruct h as [|c h]; [discriminate|].
    cbn [all_digits] in Hh. apply andb_true_iff in Hh as [Hc _].
    rewrite append_cons. cbn [optional_space]. now rewrite (digit_is_no_space c Hc). }
  rewrite Hsp2. rewrite digits_run by (assumption || reflexivity).
  reflexivity.
Qed.

(** A title that holds no opening bracket is left as it is. *)
Theorem resolution_sub_keeps_plain_title (title : string) :
  has_char "[" title = false -> regex_resolution_sub title = title.
Proof.
  intros H. unfold regex_resolution_sub.
  rewrite <- (append_empty_r title) at 1.
  rewrite sub_from_plain by (assumption || reflexivity).
  cbn [sub_from]. apply append_empty_r.
Qed.

Lemma resolution_sub_keeps_plain_title_witness :
  regex_resolution_sub "A quiet lake, at dawn" = "A quiet lake, at dawn".
Proof.
  apply (resolution_sub_keeps_plain_title "A quiet lake, at dawn"). reflexivity.
Defined.

(** A resolution appended to a title without brackets, a blank and then
    [[w x h]] with digits for [w] and [h], one of [x], [X], [*] and the
    multiplication sign between them and a blank or none on either side
    of it, is removed, blank included. *)
Theorem resolution_sub_removes_appended_resolution
        (title w h : string) (sep : ascii) (before after : bool) :
  has_char "[" title = false ->
  all_digits w = true -> truthy w = true ->
  all_digits h = true -> truthy h = true ->
  is_times sep = true ->
  regex_resolution_sub
    (title +:+ " [" +:+ w +:+ pad before +:+ String sep (pad after +:+ h +:+ "]"))
  = title.
Proof.
  intros Htitle Hw Hwne Hh Hhne Hsep. unfold regex_resolution_sub.
  rewrite sub_from_plain by (assumption || reflexivity).
  rewrite <- (append_empty_r title) at 2. f_equal.
  rewrite !append_cons, append_nil_l.
  rewrite (sub_from_match " " _ EmptyString).
  - apply sub_from_all. cbn [len String.length]. lia.
  - change (match_resolution (String " " ?x)) with (bracketed x).
    now apply bracketed_resolution.
Qed.

Lemma resolution_sub_removes_appended_resolution_witness :
  regex_resolution_sub ("A quiet lake" +:+ " [" +:+ "1920" +:+ pad true +:+
                        String "x" (pad true +:+ "1080" +:+ "]"))
  = "A quiet lake".
Proof.
  apply (resolution_sub_removes_appended_resolution
           "A quiet lake" "1920" "1080" "x" true true); reflexivity.
Defined.

End CompositorFacts.

(** ** More about the layout *)

Section LayoutFacts.
Import Py PyStr Layout RedditImage Measures.
Variable getsize : string -> Z * Z.
Variable width : Z.

Lemma length_nonempty_groups (groups : list (list string)) :
  Forall (fun ws => nonempty_group ws = true) groups ->
  (length groups <= length (concat groups))%nat.
Proof.
  induction 1 as [|ws groups Hws _ IH]; [reflexivity|].
  cbn [concat length]. rewrite length_app.
  destruct ws; [discriminate|]. cbn [length]. lia.
Qed.

(** The shape of the lines WRAPPED mode returns. *)
Lemma wrap_title_line_shape (title : string) :
  Forall (fun line =>
            truthy line = true
            /\ strip line = line
            /\ (fst (getsize line) + margin <= width
                \/ (split line = [line] /\ In line (split title))))
         (_wrap_title getsize width title).
Proof.
  destruct (wrap_title_groups getsize width title)
    as (groups & -> & Hcat & Hne & Hfit).
  pose proof (split_words title) as Hwords. rewrite <- Hcat in Hwords.
  pose proof (Forall_concat_words _ Hwords) as Hgroups.
  apply List.Forall_forall. intros line Hin.
  apply in_map_iff in Hin as (ws & <- & Hin).
  pose proof (proj1 (List.Forall_forall _ _) Hgroups ws Hin) as Hws.
  pose proof (proj1 (List.Forall_forall _ _) Hne ws Hin) as Hwsne.
  split; [now rewrite truthy_join_words|].
  split; [now apply strip_join_words|].
  destruct ws as [|w [|w' ws]]; [discriminate| |].
  - right.
    assert (Hw : In w (concat groups)).
    { apply in_concat. exists [w]. split; [assumption | now left]. }
    split; [|rewrite <- Hcat; exact Hw].
    apply split_word. now inversion Hws.
  - left. apply (proj1 (List.Forall_forall _ _) Hfit) in Hin.
    unfold group_fits, too_wide in Hin.
    apply Z.ltb_ge. apply Hin. simpl. lia.
Qed.

(** WRAPPED mode returns at most as many lines as the title has words,
    none of them empty or with whitespace at either end; a title without
    a word gives no line at all. *)
Theorem wrap_title_line_count (title : string) :
  (length (_wrap_title getsize width title) <= length (split title))%nat
  /\ Forall (fun line => truthy line = true /\ strip line = line)
            (_wrap_title getsize width title).
Proof.
  split.
  - destruct (wrap_title_groups getsize width title)
      as (groups & -> & <- & Hne & _).
    rewrite length_map. now apply length_nonempty_groups.
  - eapply List.Forall_impl; [|apply wrap_title_line_shape].
    intros line (? & ? & _). now split.
Qed.

(** DELIMITED mode, its fallback included, returns only lines that are
    not empty and that fit the width budget with the margin, unless the
    line is a single word of the title. *)
Theorem split_title_lines_fit (title : string) :
  Forall (fun line =>
            truthy line = true
            /\ (fst (getsize line) + margin <= width
                \/ (split line = [line] /\ In line (split title))))
         (_split_title getsize width title).
Proof.
  unfold _split_title.
  destruct (existsb (too_wide getsize width) (fst (split_scan title))) eqn:Ewide.
  - eapply List.Forall_impl; [|apply wrap_title_line_shape].
    intros line (? & _ & ?). now split.
  - apply List.Forall_forall. intros line Hin.
    apply filter_In in Hin as [Hin Htruthy]. split; [assumption|]. left.
    assert (Hfit : too_wide getsize width line = false).
    { destruct (too_wide getsize width line) eqn:E; [|reflexivity].
      assert (existsb (too_wide getsize width) (fst (split_scan title)) = true)
        by (apply existsb_exists; eauto).
      congruence. }
    unfold too_wide in Hfit. now apply Z.ltb_ge.
Qed.

(** *** Characters kept *)

Lemma join_empty_cons (w : string) (ws : list string) :
  join EmptyString (w :: ws) = w +:+ join EmptyString ws.
Proof.
  destruct ws as [|x ws]; [symmetry; apply append_empty_r | reflexivity].
Qed.

Lemma join_empty_app (xs ys : list string) :
  join EmptyString (xs ++ ys) = join EmptyString xs +:+ join EmptyString ys.
Proof.
  induction xs as [|x xs IH]; [reflexivity|].
  change ((x :: xs) ++ ys) with (x :: (xs ++ ys)).
  now rewrite !join_empty_cons, IH, append_assoc.
Qed.

Lemma join_empty_concat (groups : list (list string)) :
  join EmptyString (map (join EmptyString) groups) = join EmptyString (concat groups).
Proof.
  induction groups as [|ws groups IH]; [reflexivity|].
  cbn [map concat]. now rewrite join_empty_cons, join_empty_app, IH.
Qed.

Lemma join_empty_filter (ls : list string) :
  join EmptyString (List.filter truthy ls) = join EmptyString ls.
Proof.
  induction ls as [|l ls IH]; [reflexivity|].
  cbn [List.filter]. rewrite join_empty_cons.
  destruct l as [|c l]; cbn [truthy].
  - now rewrite append_nil_l.
  - now rewrite join_empty_cons, IH.
Qed.

Lemma remove_whitespace_append (a b : string) :
  remove_whitespace (a +:+ b) = remove_whitespace a +:+ remove_whitespace b.
Proof.
  induction a as [|c a IH]; [reflexivity|].
  rewrite append_cons. cbn [remove_whitespace].
  destruct (isspace c); [exact IH | now rewrite append_cons, IH].
Qed.

Lemma remove_whitespace_word (w : string) :
  nospace w = true -> remove_whitespace w = w.
Proof.
  induction w as [|c w IH]; [reflexivity|].
  cbn [nospace remove_whitespace]. intros H.
  apply andb_true_iff in H as [Hc Hw]. apply negb_true_iff in Hc.
  now rewrite Hc, IH.
Qed.

Lemma remove_whitespace_join_empty (ls : list string) :
  remove_whitespace (join EmptyString ls) = join EmptyString (map remove_whitespace ls).
Proof.
  induction ls as [|l ls IH]; [reflexivity|].
  cbn [map]. now rewrite !join_empty_cons, remove_whitespace_append, IH.
Qed.

Lemma remove_whitespace_join_words (ws : list string) :
  Forall is_word ws -> remove_whitespace (join " " ws) = join EmptyString ws.
Proof.
  induction 1 as [|w ws [_ Hw] _ IH]; [reflexivity|].
  destruct ws as [|x ws].
  - cbn [join String.concat]. now apply remove_whitespace_word.
  - rewrite join_cons by discriminate. rewrite join_empty_cons.
    rewrite !remove_whitespace_append, IH. rewrite remove_whitespace_word by assumption.
    reflexivity.
Qed.

Lemma remove_whitespace_split_from (s word : string) :
  join EmptyString (split_from word s) = word +:+ remove_whitespace s.
Proof.
  revert word. induction s as [|c s IH]; intros word.
  - cbn [split_from remove_whitespace]. rewrite append_empty_r.
    now destruct word.
  - cbn [split_from remove_whitespace]. destruct (isspace c).
    + destruct word as [|x word]; cbn [truthy].
      * now rewrite IH.
      * now rewrite join_empty_cons, IH.
    + now rewrite IH, snoc_append.
Qed.

Lemma remove_whitespace_split (s : string) :
  join EmptyString (split s) = remove_whitespace s.
Proof. unfold split. now rewrite remove_whitespace_split_from. Qed.

Lemma remove_whitespace_drop_blanks (s : string) :
  remove_whitespace (drop_blanks s) = remove_whitespace s.
Proof.
  induction s as [|c s IH]; [reflexivity|].
  cbn [drop_blanks]. destruct (Ascii.eqb_spec c " ") as [->|]; [|reflexivity].
  exact IH.
Qed.

Lemma join_empty_cut_after (d : ascii) (s : string) :
  join EmptyString (cut_after d s) = s.
Proof.
  induction s as [|c s IH]; [reflexivity|].
  rewrite cut_after_cons. destruct (Ascii.eqb c d).
  - now rewrite join_empty_cons, IH.
  - pose proof (cut_after_nonempty d s) as Hne.
    destruct (cut_after d s) as [|p ps]; [congruence|].
    rewrite join_empty_cons in IH. now rewrite join_empty_cons, append_cons, IH.
Qed.

Lemma wrap_title_characters (title : string) :
  remove_whitespace (join EmptyString (_wrap_title getsize width title))
  = remove_whitespace title.
Proof.
  destruct (wrap_title_groups getsize width title)
    as (groups & -> & Hcat & _ & _).
  pose proof (split_words title) as Hwords. rewrite <- Hcat in Hwords.
  apply Forall_concat_words in Hwords.
  rewrite remove_whitespace_join_empty, map_map.
  rewrite <- remove_whitespace_split, <- Hcat, <- join_empty_concat.
  f_equal. clear Hcat.
  induction Hwords as [|ws groups Hws _ IH]; [reflexivity|].
  cbn [map]. now rewrite remove_whitespace_join_words, IH.
Qed.

(** Neither mode drops, doubles or moves a character that is not
    whitespace: the returned lines put end to end are the title, up to
    whitespace. *)
Theorem layout_keeps_characters (title : string) :
  remove_whitespace (join EmptyString (_wrap_title getsize width title))
  = remove_whitespace title
  /\ remove_whitespace (join EmptyString (_split_title getsize width title))
     = remove_whitespace title.
Proof.
  split; [apply wrap_title_characters|].
  unfold _split_title.
  destruct (existsb (too_wide getsize width) (fst (split_scan title)));
    [apply wrap_title_characters|].
  rewrite join_empty_filter, split_scan_delimited_lines. cbn [fst].
  unfold delimited_lines.
  destruct (first_delimiter title) as [d|].
  - rewrite remove_whitespace_join_empty, map_map.
    rewrite <- (join_empty_cut_after d title) at 2.
    rewrite remove_whitespace_join_empty. f_equal.
    apply map_ext. intros piece. apply remove_whitespace_drop_blanks.
  - cbn [join String.concat]. apply remove_whitespace_drop_blanks.
Qed.

End LayoutFacts.

(** ** More about composition, upload and the ledger *)

Section ServiceFacts.
Import Py PyStr Layout World Bot Measures.

(** *** [add_title] *)

Lemma draw_lines_texts (i line_height : Z) (lines : list string) :
  map snd (RedditImage.draw_lines i line_height lines) = lines.
Proof.
  revert i. induction lines as [|line lines IH]; intros i; [reflexivity|].
  cbn [RedditImage.draw_lines map snd]. now rewrite IH.
Qed.

Lemma draw_lines_positions (i line_height : Z) (lines : list string) :
  0 <= i -> 0 <= line_height ->
  Forall (fun text =>
            fst (fst text) = margin
            /\ margin <= snd (fst text)
            /\ snd (fst text) + line_height
               <= line_height * (i + Z.of_nat (length lines)) + margin)
         (RedditImage.draw_lines i line_height lines).
Proof.
  intros Hi Hh. revert i Hi.
  induction lines as [|line lines IH]; intros i Hi; [constructor|].
  cbn [RedditImage.draw_lines]. constructor.
  - cbn [fst snd length]. repeat split; nia.
  - eapply List.Forall_impl; [|apply (IH (i + 1)); lia].
    intros text (Hx & Hy & Hbottom). repeat split; [assumption | assumption|].
    cbn [length]. lia.
Qed.

(** [add_title] keeps the width, the font and the [upscaled] mark and
    adds to the height a band of [line_height * len(lines) + margin];
    it draws the lines of the layout in order, each at the left margin
    and, where the font reports a height that is not negative, each
    line's slot of [line_height] inside the band. *)
Theorem add_title_band
        (getsize : Z -> string -> Z * Z) (self : RedditImage.t)
        (title : string) (boot : bool) :
  0 <= snd (getsize (RedditImage._font_size self)
              (RedditImage.regex_resolution_sub title)) ->
  let after := RedditImage.add_title getsize self title boot in
  let lines := RedditImage.title_lines getsize self title boot in
  let line_height :=
    snd (getsize (RedditImage._font_size self)
           (RedditImage.regex_resolution_sub title)) + margin in
  RedditImage._width after = RedditImage._width self
  /\ RedditImage._height after
     = RedditImage._height self + (line_height * Z.of_nat (length lines) + margin)
  /\ RedditImage.upscaled after = RedditImage.upscaled self
  /\ RedditImage._font_size after = RedditImage._font_size self
  /\ RedditImage.size (RedditImage._image after)
     = (RedditImage._width after, RedditImage._height after)
  /\ map snd (RedditImage.drawn (RedditImage._image after)) = lines
  /\ Forall (fun text =>
               fst (fst text) = margin
               /\ margin <= snd (fst text)
               /\ snd (fst text) + line_height
                  <= RedditImage._height after - RedditImage._height self)
            (RedditImage.drawn (RedditImage._image after)).
Proof.
  intros Hfont after lines line_height.
  repeat split.
  - apply draw_lines_texts.
  - unfold after, RedditImage.add_title.
    cbn [RedditImage._image RedditImage.drawn RedditImage._height
         RedditImage.size snd].
    fold lines. fold line_height.
    eapply List.Forall_impl;
      [|apply (draw_lines_positions 0 line_height lines); unfold line_height, margin; lia].
    intros text (Hx & Hy & Hbottom). repeat split; [assumption | assumption | lia].
Qed.

Lemma add_title_band_witness :
  RedditImage._height
    (RedditImage.add_title (fun font_size => monospace (font_size / 2))
       {| RedditImage._image := Demo.picture; RedditImage.upscaled := false;
          RedditImage._width := 800; RedditImage._height := 600;
          RedditImage._font_size := 50 |}
       "A quiet lake [1920x1080]" false)
  = 600 + ((snd (monospace (50 / 2) "A quiet lake") + margin)
           * Z.of_nat (length (RedditImage.title_lines
                                 (fun font_size => monospace (font_size / 2))
                                 {| RedditImage._image := Demo.picture;
                                    RedditImage.upscaled := false;
                                    RedditImage._width := 800;
                                    RedditImage._height := 600;
                                    RedditImage._font_size := 50 |}
                                 "A quiet lake [1920x1080]" false))
           + margin).
Proof.
  apply (add_title_band (fun font_size => monospace (font_size / 2))
           {| RedditImage._image := Demo.picture; RedditImage.upscaled := false;
              RedditImage._width := 800; RedditImage._height := 600;
              RedditImage._font_size := 50 |}
           "A quiet lake [1920x1080]" false).
  vm_compute. discriminate.
Defined.

(** *** [upload] *)

(** [upload] writes nothing to the database and, whatever imgur
    answers and whether or not the two saves succeed, leaves every file
    other than its two temporary ones where it was. *)
Theorem upload_touches_only_temp_files
        (e : env) (self : RedditImage.t) (config : imgur_config) (st : state) :
  db (state_of (upload e self config st)) = db st
  /\ forall path : string,
      path <> path_png -> path <> path_jpg ->
      (path ∈ files (state_of (upload e self config st)) <-> path ∈ files st).
Proof.
  destruct (image_save e (RedditImage._image self) path_png) as [|err left_behind]
    eqn:Hsaved_png.
  2:{ rewrite (upload_png_unsaved _ _ _ _ _ _ Hsaved_png). split; [reflexivity|].
      intros path Hpng Hjpg. cbn [state_of fst snd files].
      destruct left_behind; [|reflexivity].
      rewrite elem_of_union, elem_of_singleton. tauto. }
  destruct (image_save e (RedditImage._image self) path_jpg) as [|err left_behind]
    eqn:Hsaved_jpg.
  2:{ rewrite (upload_jpg_unsaved _ _ _ _ _ _ Hsaved_png Hsaved_jpg).
      split; [reflexivity|].
      intros path Hpng Hjpg. cbn [state_of fst snd files].
      destruct left_behind; rewrite !elem_of_union, !elem_of_singleton; tauto. }
  assert (Hstate : state_of (upload e self config st) = after_upload st).
  { rewrite (upload_run _ _ _ _ Hsaved_png Hsaved_jpg).
    destruct (upload_from_path e path_png config) as [link|err]; [reflexivity|].
    destruct (is_ImgurClientError err); [|reflexivity].
    now destruct (upload_from_path e path_jpg config). }
  rewrite Hstate. split; [reflexivity|].
  intros path Hpng Hjpg. cbn [after_upload files].
  rewrite !elem_of_difference, !elem_of_union, !elem_of_singleton. tauto.
Qed.

(** *** The ledger *)

(** Inserting a submission that the table does not hold succeeds and
    commits; the row then selected has the four given columns, no imgur
    url and a retry flag of zero, and no other row and no message is
    touched. Inserting an id the table holds raises [IntegrityError]
    and changes nothing. *)
Theorem submission_insert_then_select
        (d : Database.t) (submission_id author title url : string) :
  (Database.submission_select d submission_id = None ->
   let after := Database.submission_insert d submission_id author title url in
   fst after = Ok tt
   /\ Database.submission_select (snd after) submission_id
      = Some {| Database.row_id := submission_id;
                Database.row_author := author;
                Database.row_title := title;
                Database.row_url := url;
                Database.row_imgur_url := None;
                Database.row_retry := 0 |}
   /\ (forall other, other <> submission_id ->
         Database.submission_select (snd after) other
         = Database.submission_select d other)
   /\ (forall message_id,
         Database.message_exists (snd after) message_id
         = Database.message_exists d message_id)
   /\ Database.committed (snd after) = Database.connection (snd after))
  /\ (is_Some (Database.submission_select d submission_id) ->
      Database.submission_insert d submission_id author title url
      = (Raise IntegrityError, d)).
Proof.
  unfold Database.submission_select, Database.submission_insert. split.
  - intros Hnew. rewrite Hnew. cbn.
    repeat split.
    + apply lookup_insert_eq.
    + intros other Hother. now apply lookup_insert_ne.
  - intros [row Hrow]. now rewrite Hrow.
Qed.

Lemma submission_insert_then_select_witness :
  fst (Database.submission_insert (db Demo.fresh) "t3_abc" "alice" "A quiet lake"
         "https://example.org/lake.png") = Ok tt
  /\ Database.submission_insert (db Demo.seen) "t3_abc" "alice" "A quiet lake"
       "https://example.org/lake.png"
     = (Raise IntegrityError, db Demo.seen).
Proof.
  split.
  - apply (submission_insert_then_select (db Demo.fresh) "t3_abc" "alice"
             "A quiet lake" "https://example.org/lake.png").
    reflexivity.
  - apply (submission_insert_then_select (db Demo.seen) "t3_abc" "alice"
             "A quiet lake" "https://example.org/lake.png").
    vm_compute. eauto.
Defined.

(** The three updates of a submission change one column of one row:
    [submission_set_retry] puts the retry column of the row at 1 and
    [submission_clear_retry] at 0, both keeping the imgur url;
    [submission_set_imgur_url] writes the url and keeps the flag; every
    other row is as it was, and clearing after setting leaves the flag
    at zero. *)
Theorem submission_updates_one_column
        (d : Database.t) (submission_id imgur_url : string)
        (delete_message : bool) (message : string) :
  let flagged := snd (Database.submission_set_retry d submission_id delete_message
                        (Some message)) in
  let cleared := Database.submission_clear_retry flagged submission_id in
  let linked := Database.submission_set_imgur_url d submission_id imgur_url in
  Database.submission_select flagged submission_id
  = Database.set_retry 1 <$> Database.submission_select d submission_id
  /\ Database.submission_select cleared submission_id
     = Database.set_retry 0 <$> Database.submission_select d submission_id
  /\ Database.row_imgur_url <$> Database.submission_select cleared submission_id
     = Database.row_imgur_url <$> Database.submission_select d submission_id
  /\ Database.submission_select linked submission_id
     = Database.set_imgur_url imgur_url <$> Database.submission_select d submission_id
  /\ Database.row_retry <$> Database.submission_select linked submission_id
     = Database.row_retry <$> Database.submission_select d submission_id
  /\ (forall other, other <> submission_id ->
       Database.submission_select flagged other = Database.submission_select d other
       /\ Database.submission_select cleared other = Database.submission_select d other
       /\ Database.submission_select linked other = Database.submission_select d other)
  /\ forall row : Database.submission_row,
       Database.submission_select d submission_id = Some row ->
       (exists set : Database.submission_row,
           Database.submission_select flagged submission_id = Some set
           /\ Database.row_retry set = 1
           /\ Database.row_imgur_url set = Database.row_imgur_url row)
       /\ (exists clear : Database.submission_row,
              Database.submission_select cleared submission_id = Some clear
              /\ Database.row_retry clear = 0
              /\ Database.row_imgur_url clear = Database.row_imgur_url row)
       /\ (exists link : Database.submission_row,
              Database.submission_select linked submission_id = Some link
              /\ Database.row_imgur_url link = Some imgur_url
              /\ Database.row_retry link = Database.row_retry row).
Proof.
  intros flagged cleared linked.
  assert (Hflagged : Database.submission_select flagged submission_id
                     = Database.set_retry 1 <$> Database.submission_select d submission_id).
  { unfold flagged, Database.submission_select, Database.submission_set_retry.
    destruct delete_message; cbn; apply lookup_alter_eq. }
  assert (Hcleared : Database.submission_select cleared submission_id
                     = Database.set_retry 0 <$> Database.submission_select d submission_id).
  { unfold cleared, Database.submission_clear_retry, Database.submission_select in *.
    cbn. rewrite lookup_alter_eq. rewrite Hflagged.
    now destruct (Database.submissions (Database.connection d) !! submission_id). }
  assert (Hlinked : Database.submission_select linked submission_id
                    = Database.set_imgur_url imgur_url
                        <$> Database.submission_select d submission_id).
  { unfold linked, Database.submission_set_imgur_url, Database.submission_select.
    cbn. apply lookup_alter_eq. }
  split; [exact Hflagged|]. split; [exact Hcleared|].
  split; [rewrite Hcleared; now destruct (Database.submission_select d submission_id)|].
  split; [exact Hlinked|].
  split; [rewrite Hlinked; now destruct (Database.submission_select d submission_id)|].
  split.
  { intros other Hother.
    assert (Hf : Database.submission_select flagged other
                 = Database.submission_select d other).
    { unfold flagged, Database.submission_select, Database.submission_set_retry.
      destruct delete_message; cbn; now apply lookup_alter_ne. }
    repeat split; [exact Hf | |].
    - unfold cleared, Database.submission_clear_retry, Database.submission_select in *.
      cbn. rewrite lookup_alter_ne by congruence. exact Hf.
    - unfold linked, Database.submission_set_imgur_url, Database.submission_select.
      cbn. now apply lookup_alter_ne. }
  intros row Hrow. rewrite Hflagged, Hcleared, Hlinked, Hrow.
  split; [|split].
  - exists (Database.set_retry 1 row). now repeat split.
  - exists (Database.set_retry 0 row). now repeat split.
  - exists (Database.set_imgur_url imgur_url row). now repeat split.
Qed.

Lemma submission_updates_one_column_witness :
  (exists set : Database.submission_row,
      Database.submission_select
        (snd (Database.submission_set_retry (db Demo.seen) "t3_abc" true (Some "t1_xyz")))
        "t3_abc" = Some set
      /\ Database.row_retry set = 1
      /\ Database.row_imgur_url set = Database.row_imgur_url Demo.seen_row)
  /\ (exists clear : Database.submission_row,
         Database.submission_select
           (Database.submission_clear_retry
              (snd (Database.submission_set_retry (db Demo.seen) "t3_abc" true
                      (Some "t1_xyz")))
              "t3_abc")
           "t3_abc" = Some clear
         /\ Database.row_retry clear = 0
         /\ Database.row_imgur_url clear = Database.row_imgur_url Demo.seen_row)
  /\ (exists link : Database.submission_row,
         Database.submission_select
           (Database.submission_set_imgur_url (db Demo.seen) "t3_abc"
              "https://i.imgur.com/new.png")
           "t3_abc" = Some link
         /\ Database.row_imgur_url link = Some "https://i.imgur.com/new.png"
         /\ Database.row_retry link = Database.row_retry Demo.seen_row).
Proof.
  apply (proj2 (proj2 (proj2 (proj2 (proj2 (proj2
           (submission_updates_one_column (db Demo.seen) "t3_abc"
              "https://i.imgur.com/new.png" true "t1_xyz"))))))
           Demo.seen_row).
  reflexivity.
Defined.

(** An update addressed to an id the table does not hold changes no
    row of either table. *)
Theorem submission_update_of_unknown_id
        (d : Database.t) (submission_id imgur_url : string) :
  Database.submission_select d submission_id = None ->
  Database.connection (Database.submission_clear_retry d submission_id)
  = Database.connection d
  /\ Database.connection (Database.submission_set_imgur_url d submission_id imgur_url)
     = Database.connection d
  /\ Database.connection (snd (Database.submission_set_retry d submission_id false None))
     = Database.connection d.
Proof.
  unfold Database.submission_select. intros Hnone.
  assert (Hsame : forall f,
             Database.update_submission f submission_id (Database.connection d)
             = Database.connection d).
  { intros f. unfold Database.update_submission.
    destruct (Database.connection d) as [subs msgs]. cbn in *. f_equal.
    apply map_eq. intros k. destruct (decide (submission_id = k)) as [<-|Hk].
    - now rewrite lookup_alter_eq, Hnone.
    - now rewrite lookup_alter_ne. }
  repeat split; cbn; apply Hsame.
Qed.

Lemma submission_update_of_unknown_id_witness :
  Database.connection (Database.submission_clear_retry (db Demo.fresh) "t3_abc")
  = Database.connection (db Demo.fresh).
Proof.
  apply (submission_update_of_unknown_id (db Demo.fresh) "t3_abc" Demo.link).
  reflexivity.
Defined.

(** Recording a message the table does not hold succeeds, commits and
    makes [message_exists] answer true for it and as before for every
    other id, without touching a submission; recording it twice raises
    [IntegrityError]; and once [submission_set_retry] has forgotten a
    message, recording it again succeeds. *)
Theorem message_insert_then_exists
        (d : Database.t) (message_id author subject body submission_id : string) :
  (Database.message_exists d message_id = false ->
   let after := Database.message_insert d message_id author subject body in
   fst after = Ok tt
   /\ Database.message_exists (snd after) message_id = true
   /\ (forall other, other <> message_id ->
         Database.message_exists (snd after) other = Database.message_exists d other)
   /\ (forall other,
         Database.submission_select (snd after) other
         = Database.submission_select d other)
   /\ Database.committed (snd after) = Database.connection (snd after))
  /\ (Database.message_exists d message_id = true ->
      Database.message_insert d message_id author subject body
      = (Raise IntegrityError, d))
  /\ fst (Database.message_insert
            (snd (Database.submission_set_retry d submission_id true (Some message_id)))
            message_id author subject body)
     = Ok tt.
Proof.
  unfold Database.message_exists, Database.message_insert. split; [|split].
  - intros Hnew.
    destruct (Database.messages (Database.connection d) !! message_id); [discriminate|].
    cbn. repeat split.
    + now rewrite lookup_insert_eq.
    + intros other Hother. now rewrite lookup_insert_ne.
  - intros Hold.
    now destruct (Database.messages (Database.connection d) !! message_id).
  - cbn. now rewrite lookup_delete_eq.
Qed.

Lemma message_insert_then_exists_witness :
  fst (Database.message_insert (db Demo.fresh) "t1_xyz" "bob" "username mention"
         "u/titletoimagebot") = Ok tt
  /\ Database.message_insert (db Demo.seen) "t1_xyz" "bob" "username mention"
       "u/titletoimagebot"
     = (Raise IntegrityError, db Demo.seen).
Proof.
  split.
  - apply (proj1 (message_insert_then_exists (db Demo.fresh) "t1_xyz" "bob"
                    "username mention" "u/titletoimagebot" "t3_abc")).
    reflexivity.
  - apply (proj1 (proj2 (message_insert_then_exists (db Demo.seen) "t1_xyz" "bob"
                           "username mention" "u/titletoimagebot" "t3_abc"))).
    reflexivity.
Defined.

End ServiceFacts.

(** ** More about the submission processor *)

Section ProcessorFacts.
Import Py PyStr World Bot Invariants.

(** What [_reply_imgur_url] does with reddit's answer: it makes one
    call, the reply to the comment if there is one and to the submission
    otherwise, and touches no file; an accepted reply leaves the retry
    column of the submission's row at 0 and gives [True];
    [APIException] leaves it at 1, forgets the source comment's message
    and gives [False]; any other [Exception] gives [False] and changes
    nothing; what is no [Exception] goes through. *)
Theorem reply_outcomes
        (e : env) (link : string) (submission : Submission)
        (source_comment : option Comment) (upscaled : bool) (st : state) :
  let ev := reply_event submission source_comment
              (rendered (upscaled_note upscaled) link (id submission)) in
  let run := _reply_imgur_url e link submission source_comment upscaled st in
  events_of run = [ev]
  /\ files (state_of run) = files st
  /\ match reddit_reply e ev with
     | Ok _ =>
         result_of run = Ok true
         /\ Database.submission_select (db (state_of run)) (id submission)
            = Database.set_retry 0 <$> Database.submission_select (db st) (id submission)
         /\ (forall row : Database.submission_row,
                Database.submission_select (db st) (id submission) = Some row ->
                exists cleared : Database.submission_row,
                  Database.submission_select (db (state_of run)) (id submission)
                  = Some cleared
                  /\ Database.row_retry cleared = 0
                  /\ Database.row_imgur_url cleared = Database.row_imgur_url row)
     | Raise err =>
         if is_APIException err then
           result_of run = Ok false
           /\ Database.submission_select (db (state_of run)) (id submission)
              = Database.set_retry 1
                  <$> Database.submission_select (db st) (id submission)
           /\ (forall row : Database.submission_row,
                  Database.submission_select (db st) (id submission) = Some row ->
                  exists flagged : Database.submission_row,
                    Database.submission_select (db (state_of run)) (id submission)
                    = Some flagged
                    /\ Database.row_retry flagged = 1
                    /\ Database.row_imgur_url flagged = Database.row_imgur_url row)
           /\ match source_comment with
              | Some comment =>
                  Database.message_exists (db (state_of run)) (comment_id comment) = false
              | None =>
                  forall message_id,
                    Database.message_exists (db (state_of run)) message_id
                    = Database.message_exists (db st) message_id
              end
         else if is_Exception err then
           result_of run = Ok false /\ state_of run = st
         else
           result_of run = Raise err /\ state_of run = st
     end.
Proof.
  intros ev run. subst run. rewrite reply_run. fold ev.
  destruct (reddit_reply e ev) as [[]|err].
  - cbn [result_of state_of events_of fst snd db files].
    assert (Hcleared : Database.submission_select
                         (Database.submission_clear_retry (db st) (id submission))
                         (id submission)
                       = Database.set_retry 0
                           <$> Database.submission_select (db st) (id submission)).
    { unfold Database.submission_select, Database.submission_clear_retry. cbn.
      apply lookup_alter_eq. }
    split; [reflexivity|]. split; [reflexivity|]. split; [reflexivity|].
    split; [exact Hcleared|].
    intros row Hrow. exists (Database.set_retry 0 row).
    rewrite Hcleared, Hrow. now repeat split.
  - destruct (is_APIException err) eqn:Eapi.
    + assert (Hexc : is_Exception err = true) by now destruct err.
      rewrite Hexc. cbn [result_of state_of events_of fst snd db files].
      split; [reflexivity|]. split; [reflexivity|]. split; [reflexivity|].
      split; [apply flagged_select|]. split.
      * intros row Hrow. exists (Database.set_retry 1 row).
        rewrite flagged_select, Hrow. now repeat split.
      * destruct source_comment as [comment|]; cbn.
        -- unfold Database.message_exists. cbn. now rewrite lookup_delete_eq.
        -- reflexivity.
    + destruct (is_Exception err); now repeat split.
Qed.

Lemma reply_outcomes_witness :
  (exists cleared : Database.submission_row,
      Database.submission_select
        (db (state_of (_reply_imgur_url (Demo.world Demo.picture Demo.accepts)
                         Demo.link Demo.post (Some Demo.mention) false
                         {| db := flagged (db Demo.seen) Demo.post None;
                            files := ∅ |})))
        "t3_abc" = Some cleared
      /\ Database.row_retry cleared = 0
      /\ Database.row_imgur_url cleared = Some Demo.link)
  /\ (exists flagged : Database.submission_row,
         Database.submission_select
           (db (state_of (_reply_imgur_url (Demo.refusing Demo.picture Demo.accepts)
                            Demo.link Demo.post (Some Demo.mention) false Demo.seen)))
           "t3_abc" = Some flagged
         /\ Database.row_retry flagged = 1
         /\ Database.row_imgur_url flagged = Some Demo.link).
Proof.
  split.
  - apply (proj2 (proj2 (proj2 (proj2
             (reply_outcomes (Demo.world Demo.picture Demo.accepts)
                Demo.link Demo.post (Some Demo.mention) false
                {| db := flagged (db Demo.seen) Demo.post None; files := ∅ |}))))
             (Database.set_retry 1 Demo.seen_row)).
    reflexivity.
  - apply (proj1 (proj2 (proj2 (proj2 (proj2
             (reply_outcomes (Demo.refusing Demo.picture Demo.accepts)
                Demo.link Demo.post (Some Demo.mention) false Demo.seen)))))
             Demo.seen_row).
    reflexivity.
Defined.

(** *** Submissions that are filtered out *)

(** A submission whose url ends in [.gif] or [.gifv], and in
    [boottoobig] a submission from the feed whose title holds neither a
    comma, a semicolon nor [roses], is never downloaded: the run makes
    no call at all, touches no file and ends at one of the first five
    returns. *)
Theorem filtered_submission_is_not_downloaded
        (e : env) (submission : Submission) (source_comment : option Comment)
        (custom_title : option string) (st : state) :
  endswith (url submission) ".gif" || endswith (url submission) ".gifv" = true
  \/ (is_boot submission = true /\ source_comment = None
      /\ existsb (fun t => contains t (lower (title submission))) triggers = false) ->
  let run := _process_submission e submission source_comment custom_title st in
  events_of run = []
  /\ files (state_of run) = files st
  /\ In (result_of run)
        [Ok AuthorDeleted; Ok ScoreBelowThreshold; Ok AlreadyInDatabase;
         Ok NotARhyme; Ok AnimatedGif].
Proof.
  intros Hfilter run. subst run. unfold _process_submission.
  destruct (author submission) as [name|]; [|cbn; tauto].
  destruct (String.eqb (subreddit submission) "fakehistoryporn"
            && negb (is_set source_comment)
            && (score submission <? score_threshold)); [cbn; tauto|].
  rewrite (run_bind_ok _ _ st st
             (Database.submission_select (db st) (id submission)) [] eq_refl),
    after_no_calls.
  assert (Hrest : forall st1 : state,
    files st1 = files st ->
    let run := (if is_boot submission && negb (is_set source_comment)
                   && negb (existsb (fun t => contains t (lower (title submission)))
                              triggers)
                then ret NotARhyme
                else
                  if endswith (url submission) ".gif" || endswith (url submission) ".gifv"
                  then ret AnimatedGif
                  else
                    fetched <- try_except
                                 (img <- fetch e (url submission) ;; ret (Some img))
                                 is_OSError
                                 (fun _ =>
                                    try_except
                                      (img <- fetch e (url submission +:+ ".jpg") ;;
                                       ret (Some img))
                                      is_OSError
                                      (fun _ => ret None)) ;;
                    match fetched with
                    | None => ret DownloadFailed
                    | Some img =>
                        compose_and_publish e submission source_comment custom_title
                          name img
                    end) st1 in
    events_of run = [] /\ files (state_of run) = files st
    /\ In (result_of run)
          [Ok AuthorDeleted; Ok ScoreBelowThreshold; Ok AlreadyInDatabase;
           Ok NotARhyme; Ok AnimatedGif]).
  { intros st1 Hfiles.
    destruct Hfilter as [Hgif | (Hboot & -> & Hrhyme)].
    - destruct (is_boot submission && negb (is_set source_comment)
                && negb (existsb (fun t => contains t (lower (title submission)))
                           triggers)); [cbn; tauto|].
      rewrite Hgif. cbn. tauto.
    - rewrite Hboot, Hrhyme. cbn. tauto. }
  destruct (Database.submission_select (db st) (id submission)) as [row|] eqn:Esel.
  - destruct (negb (negb (Database.row_retry_is_zero row) || is_set source_comment));
      [cbn; tauto|].
    rewrite (run_bind_ok _ _ st st tt [] eq_refl), after_no_calls.
    now apply Hrest.
  - cbn [negb].
    unfold Database.submission_select in Esel.
    set (st1 := {| db := snd (Database.submission_insert (db st) (id submission) name
                                (title submission) (url submission));
                   files := files st |}).
    assert (Hins : with_db (fun d => Database.submission_insert d (id submission) name
                                       (title submission) (url submission)) st
                   = (Ok tt, st1, [])).
    { unfold with_db, st1, Database.submission_insert. now rewrite Esel. }
    rewrite (run_bind_ok _ _ _ _ _ _ Hins), after_no_calls.
    now apply Hrest.
Qed.

Lemma filtered_submission_is_not_downloaded_witness :
  events_of (_process_submission (Demo.world Demo.picture Demo.accepts)
               Demo.animation None None Demo.fresh) = [].
Proof.
  apply (filtered_submission_is_not_downloaded (Demo.world Demo.picture Demo.accepts)
           Demo.animation None None Demo.fresh).
  left. reflexivity.
Defined.

(** *** Runs that end at the last line *)

(** The state a run of [compose_and_publish] that replied leaves. *)
Lemma publish_processed_state
      (e : env) (submission : Submission) (source_comment : option Comment)
      (custom_title : option string) (name : string) (img : RedditImage.image)
      (st : state) :
  result_of (compose_and_publish e submission source_comment custom_title name img st)
  = Ok Processed ->
  exists link : string,
    truthy link = true
    /\ state_of (compose_and_publish e submission source_comment custom_title name img st)
       = {| db := Database.submission_clear_retry
                    (Database.submission_set_imgur_url (db st) (id submission) link)
                    (id submission);
            files := files (after_upload st) |}.
Proof.
  unfold compose_and_publish.
  destruct (RedditImage.__init__ img) as [image|err]; [|discriminate].
  rewrite (run_bind_ok _ _ st st image [] eq_refl), after_no_calls.
  rewrite (run_bind_ok _ _ st st tt _ eq_refl).
  rewrite imgur_title_run.
  rewrite (run_bind_ok _ _ st st _ [] eq_refl), after_no_calls.
  set (config := {| config_album := None; config_name := id submission;
                    config_title := _; config_description := _ |}).
  set (titled := RedditImage.add_title _ image _ _).
  pose proof (guarded_upload_run e submission source_comment titled config st) as Hup.
  match goal with
  | |- context [bind (try_except ?m ?c ?h) ?k st] => set (rest := k)
  end.
  assert (Hlinked : forall link evs,
    result_of (after_calls evs (rest (Some (Some link)) (after_upload st))) = Ok Processed ->
    exists link0 : string,
      truthy link0 = true
      /\ state_of (after_calls evs (rest (Some (Some link)) (after_upload st)))
         = {| db := Database.submission_clear_retry
                      (Database.submission_set_imgur_url (db st) (id submission) link0)
                      (id submission);
              files := files (after_upload st) |}).
  { intros link evs. subst rest. cbv beta iota.
    destruct (truthy link) eqn:Etruthy; cbn [negb]; [|discriminate].
    rewrite (run_bind_ok _ _ (after_upload st) _ tt [] eq_refl), after_no_calls.
    pose proof (reply_run e link submission source_comment
                  (RedditImage.upscaled titled)
                  {| db := Database.submission_set_imgur_url (db (after_upload st))
                             (id submission) link;
                     files := files (after_upload st) |}) as Hreply.
    cbv zeta in Hreply.
    destruct (reddit_reply e _) as [[]|err].
    - rewrite (run_bind_ok _ _ _ _ _ _ Hreply). intros _.
      exists link. split; [assumption | reflexivity].
    - destruct (is_Exception err).
      + destruct (is_APIException err);
          rewrite (run_bind_ok _ _ _ _ _ _ Hreply); discriminate.
      + rewrite (run_bind_raise _ _ _ _ _ _ Hreply). discriminate. }
  destruct (image_save e (RedditImage._image titled) path_png) as [|serr left_behind]
    eqn:Hpng;
    [destruct (image_save e (RedditImage._image titled) path_jpg) as [|serr left_behind]
       eqn:Hjpg|].
  2,3: destruct (guarded_unsaved_run e submission source_comment titled config st)
         as (r & st1 & evs & Hrun & [-> | [err' ->]] & _);
         [first [right; congruence | left; congruence]
         | rewrite (run_bind_ok _ _ _ _ _ _ Hrun); discriminate
         | rewrite (run_bind_raise _ _ _ _ _ _ Hrun); discriminate].
  rewrite (upload_run _ _ _ _ Hpng Hjpg) in Hup.
  destruct (upload_from_path e path_png config) as [link|err].
  - rewrite (run_bind_ok _ _ _ _ _ _ Hup), after_calls_twice. apply Hlinked.
  - destruct (is_ImgurClientError err).
    + destruct (upload_from_path e path_jpg config) as [link|err'].
      * rewrite (run_bind_ok _ _ _ _ _ _ Hup), after_calls_twice. apply Hlinked.
      * destruct (is_ImgurClientError err').
        -- rewrite (run_bind_ok _ _ _ _ _ _ Hup). discriminate.
        -- destruct (is_ImgurClientRateLimitError err').
           ++ rewrite (run_bind_ok _ _ _ _ _ _ Hup). discriminate.
           ++ rewrite (run_bind_raise _ _ _ _ _ _ Hup). discriminate.
    + destruct (is_ImgurClientRateLimitError err).
      * rewrite (run_bind_ok _ _ _ _ _ _ Hup). discriminate.
      * rewrite (run_bind_raise _ _ _ _ _ _ Hup). discriminate.
Qed.

(** The ledger after a run that replied. *)
Lemma processed_row
      (e : env) (submission : Submission) (source_comment : option Comment)
      (custom_title : option string) (st : state) :
  result_of (_process_submission e submission source_comment custom_title st)
  = Ok Processed ->
  exists (link : string) (row : Database.submission_row),
    truthy link = true
    /\ Database.submission_select
         (db (state_of (_process_submission e submission source_comment custom_title st)))
         (id submission) = Some row
    /\ Database.row_retry row = 0
    /\ Database.row_imgur_url row = Some link
    /\ Database.committed
         (db (state_of (_process_submission e submission source_comment custom_title st)))
       = Database.connection
           (db (state_of (_process_submission e submission source_comment custom_title st)))
    /\ files (state_of (_process_submission e submission source_comment custom_title st))
       = files (after_upload st).
Proof.
  intros Hdone.
  destruct (process_submission_cases e submission source_comment custom_title st)
    as [[_ Hne] | (name & img & st1 & gets & _ & [row Hrow] & Hfiles & Erun)];
    [contradiction|].
  rewrite Erun in Hdone |- *. cbn [after_calls result_of state_of fst snd] in *.
  apply publish_processed_state in Hdone as (link & Htruthy & Hstate).
  rewrite Hstate. cbn [db files].
  exists link, (Database.set_retry 0 (Database.set_imgur_url link row)).
  repeat split; [assumption| |].
  - unfold Database.submission_select, Database.submission_clear_retry,
      Database.submission_set_imgur_url in *. cbn.
    rewrite !lookup_alter_eq, Hrow. reflexivity.
  - unfold after_upload. cbn [files]. now rewrite Hfiles.
Qed.

(** A run that ends at the last line of [_process_submission] leaves
    the submission in the ledger with the link it replied with as imgur
    url and a retry flag of zero, all of it committed, and neither
    temporary file on disk. *)
Theorem processed_submission_is_recorded
        (e : env) (submission : Submission) (source_comment : option Comment)
        (custom_title : option string) (st : state) :
  result_of (_process_submission e submission source_comment custom_title st)
  = Ok Processed ->
  let after := state_of (_process_submission e submission source_comment custom_title st) in
  (exists (link : string) (row : Database.submission_row),
      truthy link = true
      /\ Database.submission_select (db after) (id submission) = Some row
      /\ Database.row_retry row = 0
      /\ Database.row_imgur_url row = Some link)
  /\ Database.committed (db after) = Database.connection (db after)
  /\ (path_png ∉ files after) /\ (path_jpg ∉ files after).
Proof.
  intros Hdone after. subst after.
  destruct (processed_row e submission source_comment custom_title st Hdone)
    as (link & row & Htruthy & Hrow & Hretry & Hurl & Hcommitted & Hfiles).
  split; [exists link, row; auto|]. split; [assumption|].
  rewrite Hfiles. cbn [after_upload files].
  split.
  - rewrite !elem_of_difference, elem_of_singleton. tauto.
  - rewrite elem_of_difference, elem_of_singleton. tauto.
Qed.

Lemma processed_submission_is_recorded_witness :
  Database.committed
    (db (state_of (_process_submission (Demo.world Demo.picture Demo.accepts)
                     Demo.post None None Demo.fresh)))
  = Database.connection
      (db (state_of (_process_submission (Demo.world Demo.picture Demo.accepts)
                       Demo.post None None Demo.fresh))).
Proof.
  apply (processed_submission_is_recorded (Demo.world Demo.picture Demo.accepts)
           Demo.post None None Demo.fresh).
  vm_compute. reflexivity.
Defined.

(** A submission recorded with a zero retry flag and met without a
    source comment is passed over. *)
Lemma recorded_submission_run
      (e : env) (submission : Submission) (custom_title : option string)
      (st : state) (row : Database.submission_row) (name : string) :
  author submission = Some name ->
  String.eqb (subreddit submission) "fakehistoryporn"
  && (score submission <? score_threshold) = false ->
  Database.submission_select (db st) (id submission) = Some row ->
  Database.row_retry row = 0 ->
  _process_submission e submission None custom_title st = (Ok AlreadyInDatabase, st, []).
Proof.
  intros Hauthor Hscore Hrow Hretry. unfold _process_submission.
  rewrite Hauthor. cbn [is_set negb]. rewrite andb_true_r, Hscore.
  unfold bind, read_db. rewrite Hrow.
  unfold Database.row_retry_is_zero. rewrite Hretry. reflexivity.
Qed.

(** Processing is idempotent: after a run from the feed that ended at
    the last line, a second run on the same submission from the state
    the first one left, whatever the outside then answers, returns at
    the skip branch, makes no call and leaves the state as it is. *)
Theorem processed_submission_is_skipped_next
        (e e' : env) (submission : Submission)
        (custom_title custom_title' : option string) (st : state) :
  result_of (_process_submission e submission None custom_title st) = Ok Processed ->
  let after := state_of (_process_submission e submission None custom_title st) in
  _process_submission e' submission None custom_title' after
  = (Ok AlreadyInDatabase, after, []).
Proof.
  intros Hdone after. subst after.
  destruct (processed_row e submission None custom_title st Hdone)
    as (link & row & _ & Hrow & Hretry & _).
  assert (Hpassed : exists name,
             author submission = Some name
             /\ String.eqb (subreddit submission) "fakehistoryporn"
                && (score submission <? score_threshold) = false).
  { unfold _process_submission in Hdone.
    destruct (author submission) as [name|]; [|discriminate].
    exists name. split; [reflexivity|].
    cbn [is_set negb] in Hdone. rewrite andb_true_r in Hdone.
    destruct (String.eqb (subreddit submission) "fakehistoryporn"
              && (score submission <? score_threshold)); [discriminate | reflexivity]. }
  destruct Hpassed as (name & Hauthor & Hscore).
  now apply (recorded_submission_run e' submission custom_title' _ row name).
Qed.

Lemma processed_submission_is_skipped_next_witness :
  let after := state_of (_process_submission (Demo.world Demo.picture Demo.accepts)
                           Demo.post None None Demo.fresh) in
  _process_submission (Demo.world Demo.thumbnail Demo.rate_limited)
    Demo.post None (Some "again") after
  = (Ok AlreadyInDatabase, after, []).
Proof.
  apply (processed_submission_is_skipped_next
           (Demo.world Demo.picture Demo.accepts)
           (Demo.world Demo.thumbnail Demo.rate_limited)
           Demo.post None (Some "again") Demo.fresh).
  vm_compute. reflexivity.
Defined.

(** *** Rows of the ledger are never deleted *)

Lemma rows_kept_refl (d : Database.t) : rows_kept d d.
Proof. intros k H. exact H. Qed.

Lemma rows_kept_trans (d1 d2 d3 : Database.t) :
  rows_kept d1 d2 -> rows_kept d2 d3 -> rows_kept d1 d3.
Proof. intros H12 H23 k H. apply H23, H12, H. Qed.

Lemma rows_kept_update (f : Database.submission_row -> Database.submission_row)
      (submission_id : string) (d : Database.t) :
  rows_kept d (Database.commit (Database.execute
                 (Database.update_submission f submission_id) d)).
Proof.
  intros k. unfold Database.submission_select. cbn.
  destruct (decide (submission_id = k)) as [<-|Hk].
  - rewrite lookup_alter_eq. intros [row ->]. now eexists.
  - now rewrite lookup_alter_ne.
Qed.

Lemma rows_kept_set_retry (d : Database.t) (submission_id : string)
      (delete_message : bool) (message : option string) :
  rows_kept d (snd (Database.submission_set_retry d submission_id delete_message message)).
Proof.
  intros k. unfold Database.submission_select, Database.submission_set_retry.
  assert (Halter : is_Some (Database.submissions (Database.connection d) !! k) ->
                   is_Some (alter (Database.set_retry 1) submission_id
                              (Database.submissions (Database.connection d)) !! k)).
  { destruct (decide (submission_id = k)) as [<-|Hk].
    - rewrite lookup_alter_eq. intros [row ->]. now eexists.
    - now rewrite lookup_alter_ne. }
  destruct delete_message; [destruct message|]; cbn; exact Halter.
Qed.

Lemma rows_kept_insert (d : Database.t) (submission_id author title url : string) :
  rows_kept d (snd (Database.submission_insert d submission_id author title url)).
Proof.
  intros k. unfold Database.submission_select, Database.submission_insert.
  destruct (Database.submissions (Database.connection d) !! submission_id) eqn:E;
    [trivial|].
  cbn. destruct (decide (submission_id = k)) as [<-|Hk].
  - rewrite lookup_insert_eq. now eexists.
  - now rewrite lookup_insert_ne.
Qed.

Lemma keeps_rows_same_db {A : Type} (m : M A) :
  (forall st, db (state_of (m st)) = db st) -> keeps_rows m.
Proof. intros H st. rewrite H. apply rows_kept_refl. Qed.

Lemma keeps_rows_bind {A B : Type} (m : M A) (k : A -> M B) :
  keeps_rows m -> (forall a, keeps_rows (k a)) -> keeps_rows (bind m k).
Proof.
  intros Hm Hk st. specialize (Hm st). unfold bind, state_of in *.
  destruct (m st) as [[[a|err] st1] evs1]; cbn [fst snd] in *; [|exact Hm].
  specialize (Hk a st1). unfold state_of in Hk.
  destruct (k a st1) as [[r st2] evs2]. cbn [fst snd] in *.
  eapply rows_kept_trans; eassumption.
Qed.

Lemma keeps_rows_try_except {A : Type} (m : M A) (catches : exn -> bool)
      (handler : exn -> M A) :
  keeps_rows m -> (forall err, keeps_rows (handler err)) ->
  keeps_rows (try_except m catches handler).
Proof.
  intros Hm Hh st. specialize (Hm st). unfold try_except, state_of in *.
  destruct (m st) as [[[a|err] st1] evs1]; cbn [fst snd] in *; [exact Hm|].
  destruct (catches err); [|exact Hm].
  specialize (Hh err st1). unfold state_of in Hh.
  destruct (handler err st1) as [[r st2] evs2]. cbn [fst snd] in *.
  eapply rows_kept_trans; eassumption.
Qed.

Lemma keeps_rows_try_finally {A : Type} (m : M A) (cleanup : M unit) :
  keeps_rows m -> keeps_rows cleanup -> keeps_rows (try_finally m cleanup).
Proof.
  intros Hm Hc st. specialize (Hm st). unfold try_finally, state_of in *.
  destruct (m st) as [[r st1] evs1]. cbn [fst snd] in *.
  specialize (Hc st1). unfold state_of in Hc.
  destruct (cleanup st1) as [[[[]|err] st2] evs2]; cbn [fst snd] in *;
    eapply rows_kept_trans; eassumption.
Qed.

Lemma keeps_rows_with_db {A : Type} (f : Database.t -> result A * Database.t) :
  (forall d, rows_kept d (snd (f d))) -> keeps_rows (with_db f).
Proof.
  intros H st. specialize (H (db st)). unfold with_db, state_of.
  destruct (f (db st)) as [r d']. exact H.
Qed.

Lemma keeps_rows_remove (path : string) : keeps_rows (remove path).
Proof.
  apply keeps_rows_same_db. intros st. unfold remove.
  now destruct (decide (path ∈ files st)).
Qed.

Lemma save_keeps_db (e : env) (image : RedditImage.image) (path : string) (st : state) :
  db (state_of (save e image path st)) = db st.
Proof. unfold save. now destruct (image_save e image path). Qed.

Ltac keeps_rows_step :=
  first
    [ apply keeps_rows_bind
    | apply keeps_rows_try_except
    | apply keeps_rows_try_finally
    | apply keeps_rows_remove
    | apply keeps_rows_with_db; intros ?;
      first [ apply rows_kept_set_retry | apply rows_kept_insert
            | apply rows_kept_update ]
    | apply keeps_rows_same_db; intros ?; reflexivity
    | match goal with
      | |- keeps_rows (match ?x with _ => _ end) => destruct x
      | |- forall _, _ => intros ?
      end ].

Lemma keeps_rows_upload (e : env) (self : RedditImage.t) (config : imgur_config) :
  keeps_rows (upload e self config).
Proof.
  unfold upload.
  repeat first [ apply keeps_rows_same_db; apply save_keeps_db | keeps_rows_step ].
Qed.

Lemma keeps_rows_reply (e : env) (link : string) (submission : Submission)
      (source_comment : option Comment) (upscaled : bool) :
  keeps_rows (_reply_imgur_url e link submission source_comment upscaled).
Proof.
  unfold _reply_imgur_url, set_retry_for, send_reply, Database.submission_clear_retry.
  repeat keeps_rows_step.
Qed.

Lemma keeps_rows_compose_and_publish
      (e : env) (submission : Submission) (source_comment : option Comment)
      (custom_title : option string) (name : string) (img : RedditImage.image) :
  keeps_rows (compose_and_publish e submission source_comment custom_title name img).
Proof.
  unfold compose_and_publish, set_retry_for, Database.submission_set_imgur_url.
  repeat first [ apply keeps_rows_upload | apply keeps_rows_reply | keeps_rows_step ].
Qed.

Lemma keeps_rows_process_submission
      (e : env) (submission : Submission) (source_comment : option Comment)
      (custom_title : option string) :
  keeps_rows (_process_submission e submission source_comment custom_title).
Proof.
  unfold _process_submission, fetch, read_db.
  repeat first [ apply keeps_rows_compose_and_publish | keeps_rows_step ].
Qed.

(** No run of [_process_submission] deletes a row of the submissions
    table: a submission the ledger held before the run, it holds after
    it, however the run ends. *)
Theorem ledger_rows_are_never_deleted
        (e : env) (submission : Submission) (source_comment : option Comment)
        (custom_title : option string) (st : state) (submission_id : string) :
  is_Some (Database.submission_select (db st) submission_id) ->
  is_Some (Database.submission_select
             (db (state_of (_process_submission e submission source_comment
                              custom_title st)))
             submission_id).
Proof. apply keeps_rows_process_submission. Qed.

Lemma ledger_rows_are_never_deleted_witness :
  is_Some (Database.submission_select
             (db (state_of (_process_submission
                              (Demo.world Demo.picture Demo.rate_limited)
                              Demo.animation (Some Demo.mention) None Demo.seen)))
             "t3_abc").
Proof.
  apply (ledger_rows_are_never_deleted (Demo.world Demo.picture Demo.rate_limited)
           Demo.animation (Some Demo.mention) None Demo.seen "t3_abc").
  vm_compute. eauto.
Defined.

(** A submission whose author is set and that passes the score check of
    [fakehistoryporn] is in the ledger after the run, however the run
    ends: also when it is skipped as a gif or for want of a rhyme, when
    the download or the upload fails, or when an exception ends the
    run. *)
Theorem passed_submission_is_recorded
        (e : env) (submission : Submission) (source_comment : option Comment)
        (custom_title : option string) (st : state) :
  is_Some (author submission) ->
  String.eqb (subreddit submission) "fakehistoryporn" && negb (is_set source_comment)
  && (score submission <? score_threshold) = false ->
  is_Some (Database.submission_select
             (db (state_of (_process_submission e submission source_comment
                              custom_title st)))
             (id submission)).
Proof.
  intros [name Hauthor] Hscore.
  destruct (Database.submission_select (db st) (id submission)) as [row|] eqn:Esel.
  { apply keeps_rows_process_submission. now rewrite Esel. }
  unfold _process_submission. rewrite Hauthor, Hscore.
  rewrite (run_bind_ok _ _ st st
             (Database.submission_select (db st) (id submission)) [] eq_refl),
    after_no_calls.
  rewrite Esel.
  set (st1 := {| db := snd (Database.submission_insert (db st) (id submission) name
                              (title submission) (url submission));
                 files := files st |}).
  assert (Hins : with_db (fun d => Database.submission_insert d (id submission) name
                                     (title submission) (url submission)) st
                 = (Ok tt, st1, [])).
  { unfold with_db, st1, Database.submission_insert.
    unfold Database.submission_select in Esel. now rewrite Esel. }
  rewrite (run_bind_ok _ _ _ _ _ _ Hins), after_no_calls.
  assert (Hrow : is_Some (Database.submission_select (db st1) (id submission))).
  { unfold st1, Database.submission_insert, Database.submission_select in *.
    rewrite Esel. cbn. rewrite lookup_insert_eq. now eexists. }
  match goal with
  | |- is_Some (Database.submission_select (db (state_of (?m st1))) _) =>
      assert (Hkeeps : keeps_rows m)
  end.
  { unfold fetch.
    repeat first [ apply keeps_rows_compose_and_publish | keeps_rows_step ]. }
  now apply (Hkeeps st1).
Qed.

Lemma passed_submission_is_recorded_witness :
  is_Some (Database.submission_select
             (db (state_of (_process_submission
                              (Demo.world Demo.picture Demo.accepts)
                              Demo.animation None None Demo.fresh)))
             "t3_gif").
Proof.
  apply (passed_submission_is_recorded (Demo.world Demo.picture Demo.accepts)
           Demo.animation None None Demo.fresh).
  - vm_compute. eauto.
  - reflexivity.
Defined.

(** *** The messages table during [_process_submission] *)

Section Preservation.
Variable R : Database.t -> Database.t -> Prop.
Hypothesis R_refl : forall d, R d d.
Hypothesis R_trans : forall d1 d2 d3, R d1 d2 -> R d2 d3 -> R d1 d3.

Lemma preserves_same_db {A : Type} (m : M A) :
  (forall st, db (state_of (m st)) = db st) -> preserves R m.
Proof. intros H st. rewrite H. apply R_refl. Qed.

Lemma preserves_bind {A B : Type} (m : M A) (k : A -> M B) :
  preserves R m -> (forall a, preserves R (k a)) -> preserves R (bind m k).
Proof.
  intros Hm Hk st. specialize (Hm st). unfold bind, state_of in *.
  destruct (m st) as [[[a|err] st1] evs1]; cbn [fst snd] in *; [|exact Hm].
  specialize (Hk a st1). unfold state_of in Hk.
  destruct (k a st1) as [[r st2] evs2]. cbn [fst snd] in *.
  eapply R_trans; eassumption.
Qed.

Lemma preserves_try_except {A : Type} (m : M A) (catches : exn -> bool)
      (handler : exn -> M A) :
  preserves R m -> (forall err, preserves R (handler err)) ->
  preserves R (try_except m catches handler).
Proof.
  intros Hm Hh st. specialize (Hm st). unfold try_except, state_of in *.
  destruct (m st) as [[[a|err] st1] evs1]; cbn [fst snd] in *; [exact Hm|].
  destruct (catches err); [|exact Hm].
  specialize (Hh err st1). unfold state_of in Hh.
  destruct (handler err st1) as [[r st2] evs2]. cbn [fst snd] in *.
  eapply R_trans; eassumption.
Qed.

Lemma preserves_try_finally {A : Type} (m : M A) (cleanup : M unit) :
  preserves R m -> preserves R cleanup -> preserves R (try_finally m cleanup).
Proof.
  intros Hm Hc st. specialize (Hm st). unfold try_finally, state_of in *.
  destruct (m st) as [[r st1] evs1]. cbn [fst snd] in *.
  specialize (Hc st1). unfold state_of in Hc.
  destruct (cleanup st1) as [[[[]|err] st2] evs2]; cbn [fst snd] in *;
    eapply R_trans; eassumption.
Qed.

Lemma preserves_with_db {A : Type} (f : Database.t -> result A * Database.t) :
  (forall d, R d (snd (f d))) -> preserves R (with_db f).
Proof.
  intros H st. specialize (H (db st)). unfold with_db, state_of.
  destruct (f (db st)) as [r d']. exact H.
Qed.

Lemma preserves_remove (path : string) : preserves R (remove path).
Proof.
  apply preserves_same_db. intros st. unfold remove.
  now destruct (decide (path ∈ files st)).
Qed.

End Preservation.

Lemma other_messages_kept_refl (skip : option string) (d : Database.t) :
  other_messages_kept skip d d.
Proof. intros k _. reflexivity. Qed.

Lemma other_messages_kept_trans (skip : option string) (d1 d2 d3 : Database.t) :
  other_messages_kept skip d1 d2 -> other_messages_kept skip d2 d3 ->
  other_messages_kept skip d1 d3.
Proof. intros H12 H23 k Hk. now rewrite (H23 k Hk), (H12 k Hk). Qed.

Lemma other_messages_kept_update (skip : option string)
      (f : Database.submission_row -> Database.submission_row)
      (submission_id : string) (d : Database.t) :
  other_messages_kept skip d
    (Database.commit (Database.execute (Database.update_submission f submission_id) d)).
Proof. intros k _. reflexivity. Qed.

Lemma other_messages_kept_insert (skip : option string) (d : Database.t)
      (submission_id author title url : string) :
  other_messages_kept skip d
    (snd (Database.submission_insert d submission_id author title url)).
Proof.
  intros k _. unfold Database.submission_insert.
  now destruct (Database.submissions (Database.connection d) !! submission_id).
Qed.

Lemma other_messages_kept_set_retry (d : Database.t) (submission : Submission)
      (source_comment : option Comment) :
  other_messages_kept (option_map comment_id source_comment) d
    (snd (Database.submission_set_retry d (id submission) (is_set source_comment)
            (option_map comment_id source_comment))).
Proof.
  intros k Hk. unfold Database.submission_set_retry.
  destruct source_comment as [comment|]; cbn in *; [|reflexivity].
  apply lookup_delete_ne. congruence.
Qed.

Ltac preserves_step :=
  first
    [ apply preserves_bind; [apply other_messages_kept_trans | |]
    | apply preserves_try_except; [apply other_messages_kept_trans | |]
    | apply preserves_try_finally; [apply other_messages_kept_trans | |]
    | apply preserves_remove; apply other_messages_kept_refl
    | apply preserves_with_db; intros ?;
      first [ apply other_messages_kept_set_retry | apply other_messages_kept_insert
            | apply other_messages_kept_update ]
    | apply preserves_same_db; [apply other_messages_kept_refl | intros ?; reflexivity]
    | match goal with
      | |- preserves _ (match ?x with _ => _ end) => destruct x
      | |- forall _, _ => intros ?
      end ].

Lemma upload_keeps_messages (skip : option string) (e : env) (self : RedditImage.t)
      (config : imgur_config) :
  preserves (other_messages_kept skip) (upload e self config).
Proof.
  unfold upload.
  repeat first [ apply preserves_same_db;
                 [apply other_messages_kept_refl | apply save_keeps_db]
               | preserves_step ].
Qed.

Lemma reply_keeps_other_messages (e : env) (link : string) (submission : Submission)
      (source_comment : option Comment) (upscaled : bool) :
  preserves (other_messages_kept (option_map comment_id source_comment))
    (_reply_imgur_url e link submission source_comment upscaled).
Proof.
  unfold _reply_imgur_url, set_retry_for, send_reply, Database.submission_clear_retry.
  repeat preserves_step.
Qed.

Lemma publish_keeps_other_messages
      (e : env) (submission : Submission) (source_comment : option Comment)
      (custom_title : option string) (name : string) (img : RedditImage.image) :
  preserves (other_messages_kept (option_map comment_id source_comment))
    (compose_and_publish e submission source_comment custom_title name img).
Proof.
  unfold compose_and_publish, set_retry_for, Database.submission_set_imgur_url.
  repeat first [ apply upload_keeps_messages | apply reply_keeps_other_messages
               | preserves_step ].
Qed.

Lemma process_submission_keeps_other_messages
      (e : env) (submission : Submission) (source_comment : option Comment)
      (custom_title : option string) :
  preserves (other_messages_kept (option_map comment_id source_comment))
    (_process_submission e submission source_comment custom_title).
Proof.
  unfold _process_submission, fetch, read_db.
  repeat first [ apply publish_keeps_other_messages | preserves_step ].
Qed.

(** The only row of the messages table a run of [_process_submission]
    can touch is that of the comment it was called for: every other
    message is after the run as it was before, however the run ends;
    called without a source comment, as for the hot submissions, the
    run leaves the whole table as it found it. *)
Theorem process_submission_spares_other_messages
        (e : env) (submission : Submission) (source_comment : option Comment)
        (custom_title : option string) (st : state) (message_id : string) :
  option_map comment_id source_comment <> Some message_id ->
  Database.messages
    (Database.connection
       (db (state_of (_process_submission e submission source_comment custom_title st))))
    !! message_id
  = Database.messages (Database.connection (db st)) !! message_id.
Proof. apply process_submission_keeps_other_messages. Qed.

Lemma process_submission_spares_other_messages_witness :
  Database.messages
    (Database.connection
       (db (state_of (_process_submission (Demo.world Demo.picture Demo.rate_limited)
                        Demo.post (Some {| comment_id := "t1_other" |}) None Demo.seen))))
    !! "t1_xyz"
  = Database.messages (Database.connection (db Demo.seen)) !! "t1_xyz".
Proof.
  apply (process_submission_spares_other_messages
           (Demo.world Demo.picture Demo.rate_limited)
           Demo.post (Some {| comment_id := "t1_other" |}) None Demo.seen "t1_xyz").
  discriminate.
Defined.

End ProcessorFacts.

(** ** The inbox *)

Section InboxFacts.
Import Py PyStr World Bot Inbox.

(** *** The custom title *)

Lemma quote_is_dquote (c : ascii) : is_quote c = true -> String c EmptyString = dquote.
Proof.
  unfold is_quote. intros H. apply N.eqb_eq in H.
  rewrite <- (ascii_N_embedding c), H. reflexivity.
Qed.

Lemma before_last_quote_sound (s group : string) :
  before_last_quote s = Some group ->
  one_line group = true
  /\ exists after, s = group +:+ dquote +:+ after.
Proof.
  revert group. induction s as [|c s IH]; intros group; [discriminate|].
  cbn [before_last_quote]. destruct (is_newline c) eqn:Enl; [discriminate|].
  destruct (before_last_quote s) as [g|] eqn:Erest.
  - intros [= <-]. destruct (IH g eq_refl) as (Hline & after & ->).
    split; [cbn [one_line]; now rewrite Enl|].
    exists after. now rewrite append_cons.
  - destruct (is_quote c) eqn:Eq; [|discriminate]. intros [= <-].
    split; [reflexivity|]. exists s.
    rewrite append_nil_l, <- (quote_is_dquote c Eq). reflexivity.
Qed.

Lemma skip_literal_sound (literal s rest : string) :
  skip_literal literal s = Some rest ->
  exists mention, s = mention +:+ rest /\ lower mention = literal.
Proof.
  revert s. induction literal as [|l literal IH]; intros s.
  - cbn [skip_literal]. intros [= <-]. now exists EmptyString.
  - destruct s as [|c s]; cbn [skip_literal]; [discriminate|].
    destruct (Ascii.eqb_spec (lower_char c) l) as [<-|]; [|discriminate].
    intros H. destruct (IH s H) as (mention & -> & <-).
    now exists (String c mention).
Qed.

Lemma skip_spaces_sound (s : string) :
  exists spaces, s = spaces +:+ skip_spaces s /\ all_space spaces = true.
Proof.
  induction s as [|c s (spaces & Hs & Hsp)]; [now exists EmptyString|].
  cbn [skip_spaces]. destruct (isspace c) eqn:Ec.
  - exists (String c spaces). rewrite append_cons, <- Hs.
    split; [reflexivity|]. cbn [all_space]. now rewrite Ec.
  - now exists EmptyString.
Qed.

Lemma match_mention_sound (s group : string) :
  match_mention s = Some group ->
  truthy group = true /\ one_line group = true
  /\ exists mention spaces after,
      s = mention +:+ spaces +:+ dquote +:+ group +:+ dquote +:+ after
      /\ lower mention = "u/titletoimagebot"
      /\ all_space spaces = true.
Proof.
  unfold match_mention.
  destruct (skip_literal "u/titletoimagebot" s) as [rest|] eqn:Eskip; [|discriminate].
  cbn [mbind option_bind].
  destruct (skip_literal_sound _ _ _ Eskip) as (mention & -> & Hmention).
  destruct (skip_spaces_sound rest) as (spaces & Hrest & Hspaces).
  destruct (skip_spaces rest) as [|c quoted]; [discriminate|].
  destruct (is_quote c) eqn:Eq; [|discriminate].
  destruct (before_last_quote quoted) as [g|] eqn:Egroup; [|discriminate].
  cbn [mbind option_bind].
  destruct (truthy g) eqn:Etruthy; [|discriminate]. intros [= <-].
  destruct (before_last_quote_sound _ _ Egroup) as (Hline & after & ->).
  split; [assumption|]. split; [assumption|].
  exists mention, spaces, after. split; [|now split].
  rewrite Hrest. f_equal. f_equal.
  change (String c (g +:+ dquote +:+ after))
    with (String c EmptyString +:+ g +:+ dquote +:+ after).
  now rewrite (quote_is_dquote c Eq).
Qed.

Lemma match_custom_title_sound (body group : string) :
  match_custom_title body = Some group ->
  exists before rest,
    body = before +:+ rest /\ one_line before = true
    /\ match_mention rest = Some group.
Proof.
  induction body as [|c body IH]; [discriminate|].
  cbn [match_custom_title]. destruct (is_newline c) eqn:Enl; [discriminate|].
  destruct (match_custom_title body) as [g|] eqn:Erest.
  - intros [= <-]. destruct (IH eq_refl) as (before & rest & -> & Hline & Hm).
    exists (String c before), rest. rewrite append_cons.
    split; [reflexivity|]. split; [|assumption].
    cbn [one_line]. now rewrite Enl.
  - intros Hm. exists EmptyString, (String c body). now split.
Qed.

(** A custom title is never empty, never longer than 512 characters
    and never holds a newline; it stands in the body between two double
    quotes, the first of which follows, after whitespace at most, a
    mention of [u/titletoimagebot] in any case on the first line. *)
Theorem custom_title_is_quoted_after_mention (body title : string) :
  custom_title_of body = Some title ->
  truthy title = true
  /\ (len title <= 512)%nat
  /\ one_line title = true
  /\ exists before mention spaces after,
      body = before +:+ mention +:+ spaces +:+ dquote +:+ title +:+ dquote +:+ after
      /\ one_line before = true
      /\ lower mention = "u/titletoimagebot"
      /\ all_space spaces = true.
Proof.
  unfold custom_title_of.
  destruct (match_custom_title body) as [group|] eqn:Ematch; [|discriminate].
  destruct (512 <? len group)%nat eqn:Elen; [discriminate|]. intros [= <-].
  apply Nat.ltb_ge in Elen.
  destruct (match_custom_title_sound _ _ Ematch) as (before & rest & -> & Hbefore & Hm).
  destruct (match_mention_sound _ _ Hm)
    as (Htruthy & Hline & mention & spaces & after & -> & Hmention & Hspaces).
  repeat split; try assumption.
  exists before, mention, spaces, after. now repeat split.
Qed.

Lemma custom_title_is_quoted_after_mention_witness :
  custom_title_of (message_body summon) = Some "Still waters"
  /\ truthy "Still waters" = true
  /\ (len "Still waters" <= 512)%nat.
Proof.
  assert (Hrun : custom_title_of (message_body summon) = Some "Still waters")
    by (vm_compute; reflexivity).
  split; [exact Hrun|].
  destruct (custom_title_is_quoted_after_mention (message_body summon) "Still waters" Hrun)
    as (Htruthy & Hlen & _).
  split; assumption.
Defined.

(** *** Running a cycle *)

Lemma ahead_nothing {A : Type} (run : result A * state * list call) :
  ahead [] run = run.
Proof. now destruct run as [[r st] calls]. Qed.

Lemma nrun_bind_ok {A B : Type} (m : N A) (k : A -> N B) (st st1 : state)
      (a : A) (calls1 : list call) :
  m st = (Ok a, st1, calls1) -> nbind m k st = ahead calls1 (k a st1).
Proof.
  intros H. unfold nbind, ahead. rewrite H.
  now destruct (k a st1) as [[r st2] calls2].
Qed.

Lemma nrun_bind_raise {A B : Type} (m : N A) (k : A -> N B) (st st1 : state)
      (err : exn) (calls1 : list call) :
  m st = (Raise err, st1, calls1) -> nbind m k st = (Raise err, st1, calls1).
Proof. intros H. unfold nbind. now rewrite H. Qed.

(** The start of [_process_message] on a message with an author that
    the table does not hold: the message is recorded, then [me()] is
    asked. *)
Lemma new_message_run (ce : cycle_env) (message : Message) (author : string)
      (st : state) :
  message_author message = Some author ->
  Database.message_exists (db st) (message_id message) = false ->
  _process_message ce message st
  = (me_name <-- answer (me ce) ;;
     if String.eqb author me_name then nret OwnMessage
     else
       match mentioned message (lower (message_subject message))
               (lower (message_body message)) with
       | Some submission =>
           if String.eqb (lower author) "automoderator"
           then reddit ce (MarkRead (message_id message)) ;;;; nret AutoModerator
           else
             processed <-- processing
                             (_process_submission (base ce) submission
                                (Some {| comment_id := message_id message |})
                                (custom_title_of (message_body message))) ;;
             reddit ce (MarkRead (message_id message)) ;;;;
             nret (Mention processed)
       | None =>
           if startswith (lower (message_subject message)) "feedback"
           then _process_feedback_message ce message ;;;; nret Feedback
           else if contains "good bot" (lower (message_body message))
                   && (len (lower (message_body message)) <? 12)%nat
           then reddit ce (MarkRead (message_id message)) ;;;; nret GoodBot
           else if contains "bad bot" (lower (message_body message))
                   && (len (lower (message_body message)) <? 12)%nat
           then reddit ce (MarkRead (message_id message)) ;;;; nret BadBot
           else nret Ignored
       end) (recorded message author st).
Proof.
  intros Hauthor Hnew. unfold _process_message. rewrite Hauthor.
  rewrite (nrun_bind_ok _ _ st st
             (Database.message_exists (db st) (message_id message)) [] eq_refl),
    ahead_nothing.
  rewrite Hnew.
  assert (Hins : processing (with_db (fun d =>
                   Database.message_insert d (message_id message) author
                     (lower (message_subject message)) (lower (message_body message)))) st
                 = (Ok tt, recorded message author st, [])).
  { unfold processing, with_db, recorded, Database.message_insert.
    unfold Database.message_exists in Hnew.
    now destruct (Database.messages (Database.connection (db st)) !! message_id message). }
  now rewrite (nrun_bind_ok _ _ _ _ _ _ Hins), ahead_nothing.
Qed.

Lemma recorded_exists (message : Message) (author : string) (st : state) :
  Database.message_exists (db st) (message_id message) = false ->
  Database.message_exists (db (recorded message author st)) (message_id message) = true.
Proof.
  unfold recorded, Database.message_exists, Database.message_insert. cbn [db].
  destruct (Database.messages (Database.connection (db st)) !! message_id message);
    [discriminate|].
  intros _. cbn. now rewrite lookup_insert_eq.
Qed.

Lemma known_message_run (ce : cycle_env) (message : Message) (author : string)
      (st : state) :
  message_author message = Some author ->
  Database.message_exists (db st) (message_id message) = true ->
  _process_message ce message st = (Ok Duplicate, st, []).
Proof.
  intros Hauthor Hknown. unfold _process_message. rewrite Hauthor.
  rewrite (nrun_bind_ok _ _ st st
             (Database.message_exists (db st) (message_id message)) [] eq_refl),
    ahead_nothing.
  now rewrite Hknown.
Qed.

(** A message without an author, and a message the messages table
    already holds, is passed over: no call, no write. *)
Theorem seen_message_is_passed_over
        (ce : cycle_env) (message : Message) (st : state) :
  message_author message = None
  \/ Database.message_exists (db st) (message_id message) = true ->
  _process_message ce message st
  = (Ok match message_author message with
        | None => NoAuthor
        | Some _ => Duplicate
        end, st, []).
Proof.
  intros H. unfold _process_message.
  destruct (message_author message) as [author|]; [|reflexivity].
  destruct H as [H|H]; [discriminate|].
  rewrite (nrun_bind_ok _ _ st st
             (Database.message_exists (db st) (message_id message)) [] eq_refl),
    ahead_nothing.
  now rewrite H.
Qed.

Lemma seen_message_is_passed_over_witness :
  _process_message (cycle (Demo.world Demo.picture Demo.accepts) [] [] [])
    summon Demo.seen
  = (Ok Duplicate, Demo.seen, []).
Proof.
  apply (seen_message_is_passed_over
           (cycle (Demo.world Demo.picture Demo.accepts) [] [] []) summon Demo.seen).
  right. reflexivity.
Defined.

(** A message with an author that is no mention of the bot, or that
    [AutoModerator] wrote, is in the messages table after the run,
    whatever reddit answers: it is recorded before anything else is
    done and nothing takes it out again. *)
Theorem plain_message_stays_recorded
        (ce : cycle_env) (message : Message) (author : string) (st : state) :
  message_author message = Some author ->
  mentioned message (lower (message_subject message)) (lower (message_body message))
  = None
  \/ String.eqb (lower author) "automoderator" = true ->
  Database.message_exists (db (final (_process_message ce message st)))
    (message_id message) = true.
Proof.
  intros Hauthor Hplain.
  destruct (Database.message_exists (db st) (message_id message)) eqn:Eknown.
  { rewrite (known_message_run ce message author st Hauthor Eknown). exact Eknown. }
  rewrite (new_message_run ce message author st Hauthor Eknown).
  pose proof (recorded_exists message author st Eknown) as Hrec.
  set (st1 := recorded message author st) in *.
  unfold nbind, answer, reddit, nret, _process_feedback_message, final.
  destruct (me ce) as [me_name|]; [|exact Hrec].
  destruct (String.eqb author me_name); [exact Hrec|].
  destruct (mentioned message (lower (message_subject message))
              (lower (message_body message))) as [submission|].
  - destruct Hplain as [Hplain|Hplain]; [discriminate|]. rewrite Hplain.
    now destruct (reddit_answer ce (MarkRead (message_id message))) as [[]|].
  - rewrite Hauthor.
    destruct (startswith (lower (message_subject message)) "feedback").
    { unfold answer. cbn.
      now destruct (reddit_answer ce _) as [[]|]. }
    destruct (contains "good bot" (lower (message_body message))
              && (len (lower (message_body message)) <? 12)%nat).
    { now destruct (reddit_answer ce (MarkRead (message_id message))) as [[]|]. }
    destruct (contains "bad bot" (lower (message_body message))
              && (len (lower (message_body message)) <? 12)%nat).
    { now destruct (reddit_answer ce (MarkRead (message_id message))) as [[]|]. }
    exact Hrec.
Qed.

Lemma plain_message_stays_recorded_witness :
  Database.message_exists
    (db (final (_process_message (cycle (Demo.world Demo.picture Demo.accepts) [] [] [])
                  complaint Demo.fresh)))
    "t4_fb" = true.
Proof.
  apply (plain_message_stays_recorded
           (cycle (Demo.world Demo.picture Demo.accepts) [] [] [])
           complaint "erin" Demo.fresh).
  - reflexivity.
  - left. reflexivity.
Defined.

(** A message the bot wrote itself is recorded and nothing else: no
    call is made, whatever its subject and body. *)
Theorem own_message_is_only_recorded
        (ce : cycle_env) (message : Message) (author : string) (st : state) :
  message_author message = Some author ->
  me ce = Ok author ->
  Database.message_exists (db st) (message_id message) = false ->
  _process_message ce message st = (Ok OwnMessage, recorded message author st, [])
  /\ Database.message_exists (db (recorded message author st)) (message_id message)
     = true.
Proof.
  intros Hauthor Hme Hnew. split; [|now apply recorded_exists].
  rewrite (new_message_run ce message author st Hauthor Hnew).
  unfold nbind, answer. rewrite Hme. now rewrite String.eqb_refl.
Qed.

Lemma own_message_is_only_recorded_witness :
  _process_message
    {| base := Demo.world Demo.picture Demo.accepts; me := Ok "bob";
       reddit_answer := quiet; hot := fun _ => []; inbox_all := fun _ => [];
       comments_new := fun _ => [] |}
    summon Demo.fresh
  = (Ok OwnMessage, recorded summon "bob" Demo.fresh, []).
Proof.
  apply (own_message_is_only_recorded
           {| base := Demo.world Demo.picture Demo.accepts; me := Ok "bob";
              reddit_answer := quiet; hot := fun _ => []; inbox_all := fun _ => [];
              comments_new := fun _ => [] |}
           summon "bob" Demo.fresh); reflexivity.
Defined.

Lemma feedback_subject_run (author : string) :
  format "TitleToImageBot feedback from {}" [author] []
  = Ok ("TitleToImageBot feedback from " +:+ author).
Proof.
  transitivity (Ok ("TitleToImageBot feedback from " +:+ author +:+ EmptyString));
    [reflexivity | now rewrite append_empty_r].
Qed.

Lemma feedback_body_run (subject body : string) :
  format feedback_body_template [subject; body] []
  = Ok ("Subject: " +:+ subject +:+ nl +:+ nl +:+ "Body: " +:+ body).
Proof.
  transitivity (Ok ("Subject: " +:+ subject +:+ nl +:+ nl +:+ "Body: " +:+ body
                    +:+ EmptyString));
    [reflexivity | now rewrite append_empty_r].
Qed.

(** Feedback is forwarded: a new message from someone else that is no
    mention and whose subject starts with [feedback] in any case makes
    one call, a message to [gerenook] whose subject names the sender and
    whose body gives the subject and the body as they were written; the
    message is recorded and not marked read. *)
Theorem feedback_is_forwarded
        (ce : cycle_env) (message : Message) (author me_name : string) (st : state) :
  message_author message = Some author ->
  Database.message_exists (db st) (message_id message) = false ->
  me ce = Ok me_name -> String.eqb author me_name = false ->
  mentioned message (lower (message_subject message)) (lower (message_body message))
  = None ->
  startswith (lower (message_subject message)) "feedback" = true ->
  let forwarded :=
    SendMessage "gerenook" ("TitleToImageBot feedback from " +:+ author)
      ("Subject: " +:+ message_subject message +:+ nl +:+ nl +:+
       "Body: " +:+ message_body message) in
  _process_message ce message st
  = (match reddit_answer ce forwarded with
     | Ok _ => Ok Feedback
     | Raise err => Raise err
     end,
     recorded message author st, [forwarded]).
Proof.
  intros Hauthor Hnew Hme Hother Hplain Hfeedback forwarded.
  rewrite (new_message_run ce message author st Hauthor Hnew).
  unfold nbind at 1. unfold answer at 1. rewrite Hme, Hother, Hplain, Hfeedback.
  unfold _process_feedback_message. rewrite Hauthor.
  rewrite feedback_subject_run, feedback_body_run.
  unfold nbind, answer, reddit, nret, __author__. fold forwarded.
  now destruct (reddit_answer ce forwarded) as [[]|].
Qed.

Lemma feedback_is_forwarded_witness :
  _process_message (cycle (Demo.world Demo.picture Demo.accepts) [] [] [])
    complaint Demo.fresh
  = (Ok Feedback, recorded complaint "erin" Demo.fresh,
     [SendMessage "gerenook" ("TitleToImageBot feedback from " +:+ "erin")
        ("Subject: " +:+ "Feedback t3_abc" +:+ nl +:+ nl +:+
         "Body: " +:+ "The text is too small.")]).
Proof.
  apply (feedback_is_forwarded (cycle (Demo.world Demo.picture Demo.accepts) [] [] [])
           complaint "erin" "titletoimagebot" Demo.fresh); reflexivity.
Defined.

(** *** Mentions *)


(** A new message that is [addressed] to the bot goes through
    [_process_submission], with the message as source comment, and is
    marked read after it. *)
Lemma mention_run (ce : cycle_env) (message : Message) (author : string)
      (submission : Submission) (st : state) :
  message_author message = Some author ->
  Database.message_exists (db st) (message_id message) = false ->
  addressed ce message author = Some submission ->
  _process_message ce message st
  = finish ce message
      (_process_submission (base ce) submission (Some (as_comment message))
         (custom_title_of (message_body message)) (recorded message author st)).
Proof.
  intros Hauthor Eknown Haddr.
  rewrite (new_message_run ce message author st Hauthor Eknown).
  unfold addressed in Haddr. unfold nbind at 1. unfold answer at 1.
  destruct (me ce) as [me_name|]; [|discriminate].
  destruct (String.eqb author me_name); [discriminate|].
  destruct (mentioned message _ _) as [s|]; [|discriminate].
  destruct (String.eqb (lower author) "automoderator"); [discriminate|].
  injection Haddr as ->.
  unfold finish, nbind, processing, reddit, nret, as_comment,
    result_of, state_of, events_of.
  destruct (_process_submission (base ce) submission
              (Some {| comment_id := message_id message |})
              (custom_title_of (message_body message))
              (recorded message author st))
    as [[[o|err] st2] evs]; cbn [fst snd]; [|reflexivity].
  destruct (reddit_answer ce (MarkRead (message_id message))) as [[]|];
    cbn; now rewrite ?app_nil_r.
Qed.

(** A run of [_process_message] either stays away from
    [_process_submission] and the services behind it, or is that of a
    new message [addressed] to the bot. *)
Lemma message_cases (ce : cycle_env) (message : Message) (st : state) :
  (forallb (fun c => negb (is_processing c)) (calls_of (_process_message ce message st))
   = true
   /\ forall o, outcome_of (_process_message ce message st) <> Ok (Mention o))
  \/ exists (author : string) (submission : Submission),
      message_author message = Some author
      /\ Database.message_exists (db st) (message_id message) = false
      /\ addressed ce message author = Some submission
      /\ _process_message ce message st
         = finish ce message
             (_process_submission (base ce) submission (Some (as_comment message))
                (custom_title_of (message_body message))
                (recorded message author st)).
Proof.
  remember (_process_message ce message st) as run eqn:Erun.
  destruct (message_author message) as [author|] eqn:Hauthor.
  2:{ left. unfold _process_message in Erun. rewrite Hauthor in Erun. subst run. cbn.
      split; [reflexivity|]. intros o. discriminate. }
  destruct (Database.message_exists (db st) (message_id message)) eqn:Eknown.
  { left. rewrite (known_message_run ce message author st Hauthor Eknown) in Erun.
    subst run. cbn. split; [reflexivity|]. intros o. discriminate. }
  destruct (addressed ce message author) as [submission|] eqn:Haddr.
  { right. exists author, submission. subst run.
    repeat split; [assumption|]. now apply mention_run. }
  left.
  rewrite (new_message_run ce message author st Hauthor Eknown) in Erun.
  unfold addressed in Haddr.
  unfold nbind at 1 in Erun. unfold answer at 1 in Erun.
  destruct (me ce) as [me_name|];
    [|subst run; cbn; split; [reflexivity|]; intros o; discriminate].
  destruct (String.eqb author me_name);
    [subst run; cbn; split; [reflexivity|]; intros o; discriminate|].
  destruct (mentioned message _ _) as [s|].
  - destruct (String.eqb (lower author) "automoderator"); [|discriminate].
    unfold nbind, reddit, nret in Erun.
    destruct (reddit_answer ce (MarkRead (message_id message))) as [[]|];
      subst run; cbn; (split; [reflexivity|]; intros o; discriminate).
  - unfold _process_feedback_message, nbind, answer, reddit, nret in Erun.
    rewrite Hauthor in Erun.
    repeat match type of Erun with
           | context [if ?c then _ else _] => destruct c
           end;
      subst run; cbn;
      repeat match goal with
             | |- context [reddit_answer ce ?c] =>
                 destruct (reddit_answer ce c) as [[]|]
             end;
      cbn; (split; [reflexivity|]; intros o; discriminate).
Qed.

(** *** Mentions *)

Lemma finish_final (ce : cycle_env) (message : Message)
      (processed : result outcome * state * list event) :
  final (finish ce message processed) = state_of processed.
Proof. unfold finish. now destruct (result_of processed). Qed.


Lemma finish_outcome (ce : cycle_env) (message : Message)
      (processed : result outcome * state * list event) (o : outcome) :
  outcome_of (finish ce message processed) = Ok (Mention o) ->
  result_of processed = Ok o.
Proof.
  unfold finish. destruct (result_of processed) as [o'|err]; cbn; [|discriminate].
  destruct (reddit_answer ce (MarkRead (message_id message))); [|discriminate].
  now intros [= ->].
Qed.






(** The run of [_process_submission] from the rhyme check on leaves the
    messages table alone when it ends at the last line. *)
Lemma accepted_processed_messages
      (e : env) (submission : Submission) (source_comment : option Comment)
      (custom_title : option string) (name : string) (st : state)
      (run : result outcome * state * list event) :
  run = (if is_boot submission && negb (is_set source_comment)
            && negb (existsb (fun t => contains t (lower (title submission))) triggers)
         then ret NotARhyme
         else
           if endswith (url submission) ".gif" || endswith (url submission) ".gifv"
           then ret AnimatedGif
           else
             fetched <- try_except
                          (img <- fetch e (url submission) ;; ret (Some img))
                          is_OSError
                          (fun _ =>
                             try_except
                               (img <- fetch e (url submission +:+ ".jpg") ;;
                                ret (Some img))
                               is_OSError
                               (fun _ => ret None)) ;;
             match fetched with
             | None => ret DownloadFailed
             | Some img =>
                 compose_and_publish e submission source_comment custom_title name img
             end) st ->
  result_of run = Ok Processed ->
  Database.messages (Database.connection (db (state_of run)))
  = Database.messages (Database.connection (db st)).
Proof.
  intros ->.
  destruct (is_boot submission && negb (is_set source_comment)
            && negb (existsb (fun t => contains t (lower (title submission))) triggers));
    [discriminate|].
  destruct (endswith (url submission) ".gif" || endswith (url submission) ".gifv");
    [discriminate|].
  pose proof (download_run e (url submission) st) as Hdl.
  assert (Hpublish : forall img gets,
    result_of (after_calls gets
                 (compose_and_publish e submission source_comment custom_title
                    name img st)) = Ok Processed ->
    Database.messages (Database.connection (db (state_of (after_calls gets
                 (compose_and_publish e submission source_comment custom_title
                    name img st)))))
    = Database.messages (Database.connection (db st))).
  { intros img gets. cbn [after_calls result_of state_of fst snd].
    intros Hdone. apply publish_processed_state in Hdone as (link & _ & Hstate).
    unfold state_of in *. now rewrite Hstate. }
  destruct (fetch_image e (url submission)) as [img|err].
  - rewrite (run_bind_ok _ _ _ _ _ _ Hdl). apply Hpublish.
  - destruct (is_OSError err).
    + destruct (fetch_image e (url submission +:+ ".jpg")) as [img|err'].
      * rewrite (run_bind_ok _ _ _ _ _ _ Hdl). apply Hpublish.
      * destruct (is_OSError err').
        -- rewrite (run_bind_ok _ _ _ _ _ _ Hdl). discriminate.
        -- rewrite (run_bind_raise _ _ _ _ _ _ Hdl). discriminate.
    + rewrite (run_bind_raise _ _ _ _ _ _ Hdl). discriminate.
Qed.

(** A run of [_process_submission] that ends at the last line leaves
    the messages table as it found it. *)
Lemma processed_keeps_messages
      (e : env) (submission : Submission) (source_comment : option Comment)
      (custom_title : option string) (st : state) :
  result_of (_process_submission e submission source_comment custom_title st)
  = Ok Processed ->
  Database.messages (Database.connection
    (db (state_of (_process_submission e submission source_comment custom_title st))))
  = Database.messages (Database.connection (db st)).
Proof.
  remember (_process_submission e submission source_comment custom_title st)
    as run eqn:Erun.
  unfold _process_submission in Erun.
  destruct (author submission) as [name|]; [|subst run; discriminate].
  destruct (String.eqb (subreddit submission) "fakehistoryporn"
            && negb (is_set source_comment)
            && (score submission <? score_threshold)); [subst run; discriminate|].
  rewrite (run_bind_ok _ _ st st
             (Database.submission_select (db st) (id submission)) [] eq_refl),
    after_no_calls in Erun.
  destruct (Database.submission_select (db st) (id submission)) as [row|] eqn:Esel.
  - destruct (negb (negb (Database.row_retry_is_zero row) || is_set source_comment));
      [subst run; discriminate|].
    rewrite (run_bind_ok _ _ st st tt [] eq_refl), after_no_calls in Erun.
    apply (accepted_processed_messages e submission source_comment custom_title
             name st run Erun).
  - cbn [negb] in Erun.
    unfold Database.submission_select in Esel.
    set (st1 := {| db := snd (Database.submission_insert (db st) (id submission) name
                                (title submission) (url submission));
                   files := files st |}).
    assert (Hins : with_db (fun d => Database.submission_insert d (id submission) name
                                       (title submission) (url submission)) st
                   = (Ok tt, st1, [])).
    { unfold with_db, st1, Database.submission_insert. now rewrite Esel. }
    rewrite (run_bind_ok _ _ _ _ _ _ Hins), after_no_calls in Erun.
    intros Hdone.
    rewrite (accepted_processed_messages e submission source_comment custom_title
               name st1 run Erun Hdone).
    unfold st1, Database.submission_insert. now rewrite Esel.
Qed.

(** A mention that [_process_submission] processed to its last line
    stays in the messages table, so that every later delivery of the
    same message, whatever the outside then answers, is passed over as
    a duplicate: no second image, upload or reply. *)
Theorem processed_mention_is_not_replayed
        (ce : cycle_env) (message : Message) (st : state) :
  outcome_of (_process_message ce message st) = Ok (Mention Processed) ->
  let after := final (_process_message ce message st) in
  Database.message_exists (db after) (message_id message) = true
  /\ forall ce' : cycle_env, _process_message ce' message after = (Ok Duplicate, after, []).
Proof.
  intros Hdone after. subst after.
  destruct (message_cases ce message st)
    as [[_ Hne] | (author & submission & Hauthor & Hnew & _ & Erun)].
  { now apply Hne in Hdone. }
  rewrite Erun in Hdone |- *. rewrite finish_final.
  apply finish_outcome in Hdone.
  assert (Hexists : Database.message_exists
            (db (state_of (_process_submission (base ce) submission
                             (Some (as_comment message))
                             (custom_title_of (message_body message))
                             (recorded message author st))))
            (message_id message) = true).
  { unfold Database.message_exists.
    rewrite (processed_keeps_messages _ _ _ _ _ Hdone).
    apply (recorded_exists message author st Hnew). }
  split; [exact Hexists|].
  intros ce'. now apply known_message_run with author.
Qed.

Lemma processed_mention_is_not_replayed_witness :
  Database.message_exists (db (final (_process_message served summon Demo.fresh)))
    (message_id summon) = true
  /\ forall ce' : cycle_env,
      _process_message ce' summon (final (_process_message served summon Demo.fresh))
      = (Ok Duplicate, final (_process_message served summon Demo.fresh), []).
Proof.
  apply (processed_mention_is_not_replayed served summon Demo.fresh).
  vm_compute. reflexivity.
Defined.

Lemma addressed_not_automoderator (ce : cycle_env) (message : Message)
      (author : string) (submission : Submission) :
  addressed ce message author = Some submission ->
  String.eqb (lower author) "automoderator" = false.
Proof.
  unfold addressed.
  destruct (me ce) as [me_name|]; [|discriminate].
  destruct (String.eqb author me_name); [discriminate|].
  destruct (mentioned message _ _); [|discriminate].
  now destruct (String.eqb (lower author) "automoderator").
Qed.

(** Nothing is made for AutoModerator: a message whose author is
    AutoModerator, in whatever case of letters, never reaches
    [_process_submission]: no download, image, upload or reply, whatever
    it says and whatever the tables hold. *)
Theorem automoderator_is_never_served
        (ce : cycle_env) (message : Message) (author : string) (st : state) :
  message_author message = Some author ->
  lower author = "automoderator" ->
  forallb (fun c => negb (is_processing c)) (calls_of (_process_message ce message st))
  = true
  /\ forall o, outcome_of (_process_message ce message st) <> Ok (Mention o).
Proof.
  intros Hauthor Hname.
  destruct (message_cases ce message st)
    as [Hquiet | (author' & submission & Hauthor' & _ & Haddr & _)]; [exact Hquiet|].
  rewrite Hauthor in Hauthor'. injection Hauthor' as <-.
  apply addressed_not_automoderator in Haddr.
  rewrite Hname in Haddr. discriminate.
Qed.

Lemma automoderator_is_never_served_witness :
  forallb (fun c => negb (is_processing c))
    (calls_of (_process_message served warning Demo.fresh)) = true
  /\ forall o, outcome_of (_process_message served warning Demo.fresh) <> Ok (Mention o).
Proof.
  apply (automoderator_is_never_served served warning "AutoModerator" Demo.fresh);
    reflexivity.
Defined.

(** *** The cycle *)

Lemma deleted_app (calls1 calls2 : list call) :
  deleted (calls1 ++ calls2) = deleted calls1 ++ deleted calls2.
Proof. apply flat_map_app. Qed.

Lemma deletes_nothing_nret {A : Type} (a : A) : deletes_nothing (nret a).
Proof. intros st. reflexivity. Qed.

Lemma deletes_nothing_answer {A : Type} (r : result A) : deletes_nothing (answer r).
Proof. intros st. reflexivity. Qed.

Lemma deletes_nothing_processing {A : Type} (m : M A) : deletes_nothing (processing m).
Proof.
  intros st. unfold processing. destruct (m st) as [[r st1] evs]. cbn.
  induction evs as [|ev evs IH]; [reflexivity | exact IH].
Qed.

Lemma deletes_nothing_mark_read (ce : cycle_env) (message_id : string) :
  deletes_nothing (reddit ce (MarkRead message_id)).
Proof. intros st. reflexivity. Qed.

Lemma deletes_nothing_send (ce : cycle_env) (recipient subject body : string) :
  deletes_nothing (reddit ce (SendMessage recipient subject body)).
Proof. intros st. reflexivity. Qed.

Lemma deletes_nothing_nbind {A B : Type} (m : N A) (k : A -> N B) :
  deletes_nothing m -> (forall a, deletes_nothing (k a)) -> deletes_nothing (nbind m k).
Proof.
  intros Hm Hk st. specialize (Hm st). unfold nbind, calls_of in *.
  destruct (m st) as [[[a|err] st1] calls1]; cbn [snd] in *; [|exact Hm].
  specialize (Hk a st1). unfold calls_of in Hk.
  destruct (k a st1) as [[r st2] calls2]. cbn [snd] in *.
  now rewrite deleted_app, Hm, Hk.
Qed.

Lemma deletes_nothing_for_each {A : Type} (items : list A) (body : A -> N unit) :
  (forall item, deletes_nothing (body item)) -> deletes_nothing (for_each items body).
Proof.
  intros Hbody. induction items as [|item items IH]; cbn [for_each].
  - apply deletes_nothing_nret.
  - apply deletes_nothing_nbind; [apply Hbody | intros _; exact IH].
Qed.

Ltac deletes_nothing_step :=
  first
    [ apply deletes_nothing_nbind
    | apply deletes_nothing_nret
    | apply deletes_nothing_answer
    | apply deletes_nothing_processing
    | apply deletes_nothing_mark_read
    | apply deletes_nothing_send
    | match goal with
      | |- deletes_nothing (match ?x with _ => _ end) => destruct x
      | |- forall _, _ => intros ?
      end ].

Lemma deletes_nothing_process_message (ce : cycle_env) (message : Message) :
  deletes_nothing (_process_message ce message).
Proof.
  unfold _process_message, _process_feedback_message.
  repeat deletes_nothing_step.
Qed.

(** The last loop of [run]: the comments it deletes are a prefix of the
    bad ones, and all of them when the loop ends without an exception. *)
Lemma sweep_run (ce : cycle_env) (comments : list (string * Z)) (st : state) :
  exists rest : list string,
    map fst (List.filter is_bad comments)
    = deleted (calls_of (for_each comments (remove_if_bad ce) st)) ++ rest
    /\ (outcome_of (for_each comments (remove_if_bad ce) st) = Ok tt -> rest = []).
Proof.
  induction comments as [|[comment_id score] comments IH]; cbn [for_each].
  - exists []. split; reflexivity.
  - destruct IH as (rest & Hrest & Hdone).
    cbn [List.filter]. unfold is_bad at 1, remove_if_bad at 1 3. cbn [fst snd].
    unfold nbind, outcome_of, calls_of in *.
    destruct (score <=? -1).
    + unfold reddit. destruct (reddit_answer ce (DeleteComment comment_id)) as [[]|err].
      * destruct (for_each comments (remove_if_bad ce) st) as [[r st2] calls2].
        cbn [fst snd map] in *. exists rest. split; [|exact Hdone].
        cbn. now rewrite Hrest.
      * cbn [fst snd map]. exists (map fst (List.filter is_bad comments)).
        split; [reflexivity | discriminate].
    + change (nret tt st) with (Ok tt, st, @nil call). cbv beta iota.
      destruct (for_each comments (remove_if_bad ce) st) as [[r st2] calls2].
      cbn [fst snd] in *. exists rest. split; [exact Hrest | exact Hdone].
Qed.

(** A computation that deletes nothing, run before, changes nothing to
    that. *)
Lemma sweep_after {A : Type} (m : N A) (k : A -> N unit) (pending : list string) :
  deletes_nothing m ->
  (forall a st, exists rest : list string,
      pending = deleted (calls_of (k a st)) ++ rest
      /\ (outcome_of (k a st) = Ok tt -> rest = [])) ->
  forall st, exists rest : list string,
      pending = deleted (calls_of (nbind m k st)) ++ rest
      /\ (outcome_of (nbind m k st) = Ok tt -> rest = []).
Proof.
  intros Hm Hk st. specialize (Hm st). unfold nbind, calls_of, outcome_of in *.
  destruct (m st) as [[[a|err] st1] calls1]; cbn [fst snd] in *.
  - destruct (Hk a st1) as (rest & Hrest & Hdone).
    destruct (k a st1) as [[r st2] calls2]. cbn [fst snd] in *.
    exists rest. split; [|exact Hdone]. now rewrite deleted_app, Hm.
  - exists pending. split; [now rewrite Hm | discriminate].
Qed.

(** What a cycle deletes. [run] deletes comments of the bot only, in
    the order of the listing of its newest hundred, and only those
    whose score is -1 or lower: the comments deleted are a prefix of
    the bad ones of the listing, and all of them when the cycle ends
    without an exception. No submission or message processed earlier
    in the cycle makes it delete anything. *)
Theorem run_deletes_the_bad_comments (ce : cycle_env) (limit : Z) (st : state) :
  exists rest : list string,
    map fst (List.filter is_bad (comments_new ce 100))
    = deleted (calls_of (run ce limit st)) ++ rest
    /\ (outcome_of (run ce limit st) = Ok tt -> rest = []).
Proof.
  unfold run.
  apply sweep_after.
  { apply deletes_nothing_for_each. intros submission.
    repeat deletes_nothing_step. }
  intros _. apply sweep_after.
  { apply deletes_nothing_for_each. intros message.
    apply deletes_nothing_nbind;
      [apply deletes_nothing_process_message | intros _; apply deletes_nothing_nret]. }
  intros _. apply sweep_after; [apply deletes_nothing_answer|].
  intros _. apply sweep_run.
Qed.

End InboxFacts.
